(* ===== verification/_CoqProject ===== *)
-Q . S2P
Prelude.v
Types.v
JsText.v
Fares.v
RequestCard.v
LocationPicker.v
PickerMap.v
TripStateMachine.v
Backend.v
DriverApp.v
DriverSerial.v
DriverRuns.v
History.v
Dashboard.v
MapLife.v
DashUi.v
LocationTracker.v
TrackerReals.v
RouteEngine.v
TripScreen.v
RouteRuns.v
GhostDrivers.v
