(* ===== verification/Prelude.v ===== *)
(** * Driver-side trip runtime: a verification development

    This library models the driver application of the ride-hailing
    repository (src/components/DriverApp.tsx, ActiveTripView.tsx,
    MapPicker.tsx, RequestCard.tsx) and proves what makes its trip
    lifecycle, live location and route tracking correct, together with
    the places where the code departs from its specification.

    ** The program and its parts

    - [DriverApp] (DriverApp.tsx, component [DriverApp]) owns the booking
      view [allBookings], the trip history, the online flag and the
      driver position.  It derives the active trip (first booking whose
      status is accepted, arrived or in_progress) and the pending
      requests, and writes status changes through
      [dbService.updateBookingStatus]; the new status comes back through
      the [subscribeToBookings] callback, which replaces the whole view.
    - [ActiveTripView] (ActiveTripView.tsx) is mounted, keyed by the
      active trip's id, while a trip is active.  It offers one slider per
      status (accepted -> arrived -> in_progress -> summary -> completed),
      polls the stored driver location every second through a jitter
      filter, lets the driver teleport by clicking the map, and
      debounce-fetches the destination label and the route.
    - [MapPicker] (MapPicker.tsx) lets the user choose a point (map
      click, "my location", a search result), names it by a debounced
      reverse geocode, and animates "ghost" drivers around the selected
      pickup point with a random walk; its [SearchOverlay] debounces the
      query.
    - [RequestCard] (RequestCard.tsx) shows a pending request with its
      price and, after a stagger of [index * 300] ms, the geocoded
      pickup and drop; DriverApp's history and top bar show the same
      fare and its sum.
    - [DriverDashboard] (DriverApp.tsx) is mounted while no trip is
      active: the GO button, a request tab listing the pending requests
      as RequestCards and an earnings tab, over a map with the driver's
      marker.
    - The services ([dbService], [driverBackgroundService], [apiService],
      [localStorage]) are not under src/: they are modelled from the
      specification, as an interface with laws ([Backend.BookingDb])
      and one instance.

    ** Files

    Each entry ends with the claims (the manifest's properties) proved
    in the file.

    - [Prelude]     : this header, the [driver_scope] notations, the Ltac
                      tactics, the [driver] hint database, the counted
                      reflexive-transitive closure [starn]/[star] of a step
                      relation, and the generic lemmas on lists and
                      options the components share.
    - [Types]       : the data model (booking status, coordinates as
                      rationals, the [Booking] record, the JS tuple check
                      [isValidLatLngTuple]).
    - [JsText]      : Module [Js], the JavaScript built-ins the code calls
                      ([split], [join], [trim], [||] on strings,
                      [parseFloat], [toFixed], [+] and [*] with NaN and
                      infinities), with the round trips [join]/[split]
                      and [parseFloat]/[toFixed] and [toFixed]'s rounding
                      error.
    - [Fares]       : Module [Fares], the price of RequestCard and
                      TripHistoryItem and DriverApp's [earnings] reduce,
                      against the specification's fare, and the trip
                      summary's constant earnings line.
                      [claims of Fares: C21-C23]
    - [RequestCard] : Module [Card], RequestCard's staggered address
                      effect: timer, the two awaits, the shortening, the
                      [Lat:] fallback and the catch branch, and what the
                      card renders ([view_of]).
                      [claims of RequestCard: C32]
    - [LocationPicker] : Module [Picker], MapPicker's selection: initial
                      geolocation and fallback, map click, my location,
                      search choice, the 500 ms reverse-geocode effect
                      with its [displayAddress] dependency, messages and
                      confirm; Module [Search], the SearchOverlay's query
                      effect and its list (result items, recent
                      searches).  [claims of LocationPicker: C33-C37]
    - [PickerMap]   : Module [PickerMap], MapPicker's blue-dot and red-pin
                      effects (lines 243-282) as the commands they send
                      to the map, run after every picker render
                      ([pm_run]), with the marker invariant [marker_inv]
                      and the frame of a picker step ([step_frame]).
                      [claims of PickerMap: C30]
    - [TripStateMachine] : Module [Spec] is the abstract trip lifecycle of
                      the specification (a step relation [tstep] with
                      reachability, determinism and a bound of four
                      steps); Module [Code] is the code's table of shown
                      controls (RequestCard's accept button, the three
                      sliders of ActiveTripView, the summary's confirm)
                      and the status each requests, with the refinement
                      between the two.  [claims of TripStateMachine: C7]
    - [Backend]     : the [BookingDb] class (what the booking store
                      promises the app: a status write by id that keeps
                      order and ids) and its instance, and the background
                      service's record.
    - [DriverApp]   : Module [App], a Section over any [BookingDb]: the
                      app controller's state ([App]: DriverApp's state
                      hooks, ActiveTripView's key and summary flag, the
                      server, localStorage's history, the background
                      service, and a table of in-flight requests), one
                      definition per handler (handleAccept,
                      handleTripUpdate, handleSwipeComplete,
                      handleToggleOnline, the two subscriptions,
                      updateBookingStatus split into [issue], [db_write]
                      and [after_update], with [DbFail] for a rejected
                      write) and the event step function [step], which
                      re-runs React's keyed mount and ActiveTripView's
                      status effect ([reconcile]).
    - [DriverSerial]: the serialized-execution discipline (each click's
                      request written, returned and delivered before the
                      next click), the invariant [app_inv] it preserves,
                      never two active trips, every write a legal
                      lifecycle edge, and decline doing nothing.
                      [claims of DriverSerial: C1, C2]
    - [DriverRuns]  : the specification's scenario as fixtures;
                      Section [Races], the interleavings that break the
                      serialized guarantees when clicks are not
                      serialized (double accept and double confirm),
                      a stale write reviving a completed trip and a
                      rejected write that is not rolled back, each for
                      every state where it can start.
                      [claims of DriverRuns: C4-C6, C24]
    - [History]     : the trip history's well-formedness: shown, stored
                      and captured histories hold completed trips only,
                      preserved by every event in any interleaving.
                      [claims of History: C3]
    - [Dashboard]   : Module [Dash], DriverApp's screen as data (the
                      top bar, the GO button's label, the bottom sheet
                      with its tabs, request cards and their [index],
                      status indicator, badge, history items, or
                      ActiveTripView keyed by the active trip), the
                      events its controls send ([dashboard_controls]:
                      GO and each card's decline and accept, wired to
                      the controller's handlers), and the dashboard
                      map's two effects as map commands.
                      [claims of Dashboard: C8]
    - [MapLife]     : Module [MapLife], the Leaflet map instances of the
                      three map views: the shared creation guard
                      [init_map], DriverApp's switches between the
                      dashboard and the keyed trip view (no cleanup), and
                      MapPicker's mount, awaited position and cleanup in
                      any order ([life_step]).
                      [claims of MapLife: C20, C31]
    - [DashUi]      : Module [DashUi], DriverApp as the driver operates it:
                      the controller state, the mounted view and the
                      dashboard's [activeTab]; tab clicks, clicks on the
                      dashboard's controls and the other events
                      ([ui_step]), with React's remount of the keyed
                      views ([rerender]).  [claims of DashUi: C9]
    - [LocationTracker] : Module [Tracker], the one-second poll of the
                      stored location through the truthiness check and
                      the 1e-5 jitter filter, and the map's click-to-drive
                      handler with the status its closure captured.
                      [claims of LocationTracker: C10, C11, C25-C27]
    - [TrackerReals] : Module [TrackerReals], the code's distance
                      formula with [Math.sqrt] over the reals and its
                      equivalence with the tracker's exact test (a
                      lemma that justifies computing the filter on
                      rationals; no claim).
    - [RouteEngine] : Module [Route], the navigation effect: the render
                      that re-arms the 1000 ms timer, [updateNavigation]
                      with its two awaits as in-flight processes, the
                      label cache and the ETA formula.
                      [claims of RouteEngine: C12-C14, C28]
    - [TripScreen]  : Module [TripMap], ActiveTripView's map-drawing
                      effect as map commands (layers by id, [layersRef],
                      the driver marker, the view) and the navigation
                      header [getHeaderInfo].
                      [claims of TripScreen: C29]
    - [RouteRuns]   : the label kept for the drop and the stale route
                      answer, for every state where they can happen; the
                      witnesses of RouteEngine's theorems and a few
                      concrete runs.  [claims of RouteRuns: C15, C16]
    - [GhostDrivers]: Module [Ghosts], MapPicker's ghost-driver effect:
                      its guard, cleanup, awaited driver list and the
                      random-walk interval; the drift bound, the clean
                      teardown under serialized dependency changes and
                      the race that leaks the interval.
                      [claims of GhostDrivers: C17-C19]

    ** What the theorems show

    Invariants are proved by induction on [star] of a serialized step
    relation ([DriverSerial.serial_step], [Ghosts.sim_serial_step]).
    Refinement: every request the shown controls can make is a
    [Spec.tstep] edge, and every edge is offered; the dashboard's
    controls are exactly the events the controller accepts in the
    state it renders, and an accept clicked on a card always sends
    that booking's request ([Dash.dashboard_controls_enabled]); every
    run of the UI is a run of the controller with the events it sent
    (the lemma [DashUi.ui_run_ok]), so the controller's theorems hold
    of what the driver can do.  A type invariant: the
    history holds completed trips only, under any interleaving
    ([history_only_completed]).  Equivalence: the tracker's rational
    test is the code's [Math.sqrt] formula over the reals (the lemma
    [TrackerReals.moved_is_sqrt_test]).  Termination: the suspended
    navigation runs drain after at most two answers each, by a measure
    ([Route.suspended_runs_terminate]).  Round trip: a search result's
    name and address give its display name back
    ([Search.result_item_parts]).  Liveness: the route
    debounce is postponed by every delivery of the booking set
    ([Route.redeliveries_postpone_navigation]).  The maps' effects
    are proved against the state they draw: the trip map shows exactly
    the current layers ([TripMap.render_shows_current_layers]) and the
    picker's pin and dot sit at the selection and the user's location,
    each created once ([PickerMap.markers_follow_picker]), by an
    invariant over every run of events.  Resources: MapPicker's map is
    released in every order of mount, answer and unmount
    ([MapLife.picker_map_released]), while DriverApp's two views leave
    one Leaflet map behind per switch ([MapLife.maps_leak_per_view_switch]).  Functional claims
    state each handler's result on each branch, including the error
    branches (unparseable or missing samples).  The findings are proved
    for every state where they can arise (reachable states, or every
    state showing the control that starts them), each with a witness
    run evaluated by [vm_compute]; they are listed with their source
    lines in the manifest.

    ** Bounds and constants

    The constants are the code's: the jitter threshold is 1e-5 degrees
    (ActiveTripView.tsx:77), the debounce 1000 ms (line 120), the walk
    step [(r - 0.5) * 0.0003] so at most 0.00015 per tick and axis
    (MapPicker.tsx:224-225).  No definition uses fuel: every step
    function is structural and every run is a fold over a finite event
    list, so "the code produces a result" is a statement about that fold
    ([debounce_single_run] gives the resulting state exactly).

    ** Modelling choices

    Coordinates are JS doubles in the code; they are rationals [Q] here,
    so that the distance test [sqrt(dx^2+dy^2) > 1e-5] is computed
    exactly (as [dx^2+dy^2 > 1e-10], the same comparison for a
    non-negative threshold).  Randomness ([Math.random]) is an input
    stream of rationals in [0,1).  Timers are explicit: a clock in
    milliseconds and a pending deadline per timer.  Asynchronous calls
    are pending requests that complete in any order.  JSON
    serialisation of the history is taken to round-trip exactly.
    React effects run when a dependency changed since the last render,
    compared by identity: an array dependency ([driverPosition]) carries
    an identity that changes at every callback that sets it.  The
    screen functions take the dashboard's [activeTab] as a parameter;
    DashUi holds it as the dashboard's state, with the tab clicks and
    the remount on the request tab.

    ** Not modelled

    Rendering (Leaflet tiles, icons, CSS, the header and slider markup
    of ActiveTripView, the "click map to move" hint; the dashboard's and
    ActiveTripView's maps and MapPicker's two markers are modelled by
    the commands their effects send) and the localisation strings (the
    texts are symbolic constructors) are presentation only.  The zoom
    buttons ([handleZoomIn]/[handleZoomOut], ActiveTripView.tsx lines
    175-181) and MapPicker's [setView] calls change only Leaflet's view
    of the map, whose state (zoom limits of the tile layer) is Leaflet's
    and not the program's.  The geocoding, routing, search and
    geolocation transports are oracles: their answers are inputs.  The
    recent-searches store is excluded by the specification.  A change
    of language while a picker or card is open is not modelled (the
    language is fixed per run), nor is a search result with
    non-numeric coordinates (the code would pass [NaN] to Leaflet's
    [setView], whose failure is Leaflet's behaviour).  JS numbers are exact rationals here, so
    double rounding (e.g. [1.005.toFixed(2)]) is not modelled.
*)

From Stdlib Require Import List Bool Arith Lia.
Import ListNotations.

Declare Scope driver_scope.
Delimit Scope driver_scope with drv.

(** JS's [a || d] on an optional field: the value when present,
    otherwise the default. *)
Notation "o ?? d" := (match o with Some x => x | None => d end)
  (at level 50, left associativity) : driver_scope.

Create HintDb driver.
Create Rewrite HintDb driver_rw.

(** ** Tactics shared by the components *)

Ltac inv H := inversion H; subst; clear H.

(** Split every [if] of the goal on its condition, remembering it. *)
Ltac case_ifs :=
  repeat match goal with
         | |- context [if ?b then _ else _] =>
             let E := fresh "E" in destruct b eqn:E
         end.

(** Split every [if] of a hypothesis. *)
Ltac case_ifs_in H :=
  repeat match type of H with
         | context [if ?b then _ else _] =>
             let E := fresh "E" in destruct b eqn:E
         end.

(** ** Generic lemmas on lists *)

Section ListFacts.
Context {A K : Type}.

(** A list in which every element satisfying [q] has the key [k], and
    whose keys are pairwise distinct, has at most one element
    satisfying [q]. *)
Lemma filter_le_one_key (key : A -> K) (q : A -> bool) (k : K) (l : list A) :
  NoDup (map key l) ->
  (forall x, In x l -> q x = true -> key x = k) ->
  length (filter q l) <= 1.
Proof.
  induction l as [|a l IH]; simpl; intros Hnd Hk; [lia|].
  inv Hnd.
  destruct (q a) eqn:Ha; simpl.
  - assert (Hnone : filter q l = []).
    { destruct (filter q l) as [|b r] eqn:Hf; [reflexivity|].
      assert (Hb : In b (filter q l)) by (rewrite Hf; left; reflexivity).
      apply filter_In in Hb as [Hbl Hqb].
      exfalso. apply H1. rewrite (Hk a (or_introl eq_refl) Ha).
      rewrite <- (Hk b (or_intror Hbl) Hqb). apply in_map; exact Hbl. }
    rewrite Hnone. simpl. lia.
  - apply IH; auto.
Qed.

(** Mapping a function that never makes [q] true where it was false
    does not grow the [q]-filter. *)
Lemma filter_map_length_le (f : A -> A) (q : A -> bool) (l : list A) :
  (forall x, q (f x) = true -> q x = true) ->
  length (filter q (map f l)) <= length (filter q l).
Proof.
  intros Hf. induction l as [|a l IH]; simpl; [lia|].
  destruct (q (f a)) eqn:E1.
  - rewrite (Hf _ E1). simpl. lia.
  - destruct (q a); simpl; lia.
Qed.

Lemma map_ext_in_key (f : A -> A) (key : A -> K) (l : list A) :
  (forall x, key (f x) = key x) -> map key (map f l) = map key l.
Proof.
  intros Hk. rewrite map_map. apply map_ext. exact Hk.
Qed.

(** [find] returns the first element satisfying the predicate. *)
Lemma find_app_none (p : A -> bool) (l1 l2 : list A) :
  find p l1 = None -> find p (l1 ++ l2) = find p l2.
Proof.
  induction l1 as [|a l1 IH]; simpl; [reflexivity|].
  destruct (p a); [discriminate | exact IH].
Qed.

Lemma find_none_filter (p : A -> bool) (l : list A) :
  find p l = None <-> filter p l = [].
Proof.
  induction l as [|a l IH]; simpl; [tauto|].
  destruct (p a); split; intro H; try discriminate; apply IH; exact H.
Qed.

Lemma find_filter_head (p : A -> bool) (l : list A) :
  find p l = hd_error (filter p l).
Proof.
  induction l as [|a l IH]; simpl; [reflexivity|].
  destruct (p a); [reflexivity | exact IH].
Qed.

(** Two elements of a list with distinct keys that share a key are the
    same element. *)
Lemma NoDup_map_inj (key : A -> K) (l : list A) x y :
  NoDup (map key l) -> In x l -> In y l -> key x = key y -> x = y.
Proof.
  induction l as [|a l IH]; simpl; [tauto|].
  intros Hnd Hx Hy Hk. inv Hnd.
  destruct Hx as [<- | Hx], Hy as [<- | Hy]; auto;
    exfalso; apply H1; [rewrite Hk | rewrite <- Hk]; apply in_map; assumption.
Qed.

(** In a list with at most one [q]-element, two [q]-elements are equal. *)
(** Two different elements satisfying [P] make [filter P] at least two
    long. *)
Lemma filter_two {T} (P : T -> bool) (l : list T) x y :
  In x l -> In y l -> x <> y -> P x = true -> P y = true -> 2 <= length (List.filter P l).
Proof.
  induction l as [|a l IH]; simpl; [tauto|].
  intros [<-|Hx] [<-|Hy] Hne Px Py; try congruence.
  - rewrite Px. simpl. apply le_n_S.
    destruct (List.filter P l) eqn:E; [|simpl; apply le_n_S, le_0_n].
    assert (In y (List.filter P l)) by (apply filter_In; auto). rewrite E in H. contradiction.
  - rewrite Py. simpl. apply le_n_S.
    destruct (List.filter P l) eqn:E; [|simpl; apply le_n_S, le_0_n].
    assert (In x (List.filter P l)) by (apply filter_In; auto). rewrite E in H. contradiction.
  - destruct (P a); [simpl; specialize (IH Hx Hy Hne Px Py)|]; auto.
Qed.

Lemma filter_le_one_unique (q : A -> bool) (l : list A) x y :
  length (filter q l) <= 1 -> In x l -> In y l -> q x = true -> q y = true -> x = y.
Proof.
  intros Hl Hx Hy Hqx Hqy.
  assert (Hx' : In x (filter q l)) by (apply filter_In; auto).
  assert (Hy' : In y (filter q l)) by (apply filter_In; auto).
  destruct (filter q l) as [|a [|b r]]; simpl in *; [tauto| |lia].
  destruct Hx' as [<-|[]], Hy' as [<-|[]]; reflexivity.
Qed.

(** [Forall2] weakening that may use membership in the left list. *)
Lemma Forall2_impl_in {B : Type} (P Q : A -> B -> Prop) (l : list A) (l' : list B) :
  (forall a b, In a l -> P a b -> Q a b) -> Forall2 P l l' -> Forall2 Q l l'.
Proof.
  intros HPQ HF. induction HF; constructor.
  - apply HPQ; [left; reflexivity | assumption].
  - apply IHHF. intros a b Ha. apply HPQ. right. exact Ha.
Qed.
End ListFacts.

#[export] Hint Resolve filter_le_one_key filter_map_length_le : driver.
#[export] Hint Rewrite @map_ext_in_key using assumption : driver_rw.

(** ** Sequences of steps

    The reflexive-transitive closure of a step relation, counted, so that
    a bound on the number of steps (termination) can be stated. *)

Section Star.
Context {St : Type} (R : St -> St -> Prop).

Inductive starn : nat -> St -> St -> Prop :=
| starn_refl s : starn 0 s s
| starn_step n s1 s2 s3 : R s1 s2 -> starn n s2 s3 -> starn (Datatypes.S n) s1 s3.

Definition star (s1 s2 : St) : Prop := exists n, starn n s1 s2.

Lemma star_refl s : star s s.
Proof. exists 0. constructor. Qed.

Lemma star_step s1 s2 s3 : R s1 s2 -> star s2 s3 -> star s1 s3.
Proof. intros H [n Hn]. exists (Datatypes.S n). econstructor; eauto. Qed.

Lemma starn_trans n m s1 s2 s3 :
  starn n s1 s2 -> starn m s2 s3 -> starn (n + m) s1 s3.
Proof. induction 1; simpl; intros; [assumption | econstructor; eauto]. Qed.

Lemma star_trans s1 s2 s3 : star s1 s2 -> star s2 s3 -> star s1 s3.
Proof. intros [n Hn] [m Hm]. exists (n + m). eapply starn_trans; eauto. Qed.

Lemma star_one s1 s2 : R s1 s2 -> star s1 s2.
Proof. intros H. eapply star_step; [exact H | apply star_refl]. Qed.

(** Invariance: a property preserved by every step holds all along. *)
Lemma star_preserves (P : St -> Prop) s1 s2 :
  (forall a b, P a -> R a b -> P b) -> star s1 s2 -> P s1 -> P s2.
Proof. intros Hp [n Hn]. induction Hn; eauto. Qed.

(** A measure that grows by one at every step counts the steps. *)
Lemma starn_measure (m : St -> nat) n s1 s2 :
  (forall a b, R a b -> m b = Datatypes.S (m a)) ->
  starn n s1 s2 -> m s2 = n + m s1.
Proof. intros Hm. induction 1; [reflexivity|]. rewrite IHstarn, (Hm _ _ H). lia. Qed.
End Star.

#[export] Hint Resolve star_refl star_one : driver.

Lemma last_default_irrelevant {A : Type} (l : list A) (x y : A) :
  l <> [] -> last l x = last l y.
Proof.
  induction l as [|a l IH]; [congruence|]. intros _.
  destruct l as [|b l]; [reflexivity|]. apply IH. discriminate.
Qed.

Lemma last_cons {A : Type} (l : list A) (x d : A) : last (x :: l) d = last l x.
Proof. destruct l as [|y l]; [reflexivity|]. exact (last_default_irrelevant (y :: l) d x ltac:(discriminate)). Qed.

(** [P] holds of the result of a computation that succeeds. *)
Definition on_some {A : Type} (o : option A) (P : A -> Prop) : Prop :=
  match o with Some a => P a | None => False end.

(** A guarded handler runs exactly when its guard holds. *)
Lemma if_some_iff {A : Type} (b : bool) (x : A) : b = true <-> (if b then Some x else None) <> None.
Proof. destruct b; split; try discriminate; intros H; [reflexivity | contradiction H; reflexivity]. Qed.

(** Filtering keeps a property of every element. *)
Lemma Forall_filter_keep {T : Type} (P : T -> Prop) (f : T -> bool) (l : list T) :
  Forall P l -> Forall P (filter f l).
Proof. rewrite !Forall_forall. intros H x Hx. apply filter_In in Hx. apply H, Hx. Qed.
