(* ===== verification/Types.v ===== *)
(** Data model shared by the components: the booking status enumeration,
    coordinates, the raw coordinate values a booking may carry, and the
    [Booking] record ([Booking], [LatLngTuple] of ../types, which is not
    under src/ and is modelled from the specification's data model), and
    the tuple check [isValidLatLngTuple] of ActiveTripView.tsx. *)

From Stdlib Require Import String QArith List Bool.
From S2P Require Import Prelude.

(** [Booking['status']]: the closed enumeration of the specification. *)
Inductive status : Type :=
| Pending
| Accepted
| Arrived
| InProgress
| Completed.

Definition status_eqb (a b : status) : bool :=
  match a, b with
  | Pending, Pending | Accepted, Accepted | Arrived, Arrived
  | InProgress, InProgress | Completed, Completed => true
  | _, _ => false
  end.

Lemma status_eqb_eq a b : status_eqb a b = true <-> a = b.
Proof. destruct a, b; simpl; split; congruence. Qed.

Lemma status_eq_dec (a b : status) : {a = b} + {a <> b}.
Proof. decide equality. Defined.

(** [LatLngTuple = [number, number]]: latitude, longitude. *)
Definition LatLngTuple : Type := (Q * Q)%type.

(** What a booking's [pickup]/[drop] field holds at run time: the code
    does not trust the type and checks it with [isValidLatLngTuple], so
    a value that is not a two-number array is representable. *)
Inductive coord_val : Type :=
| CPair (lat lng : Q)     (** [[lat, lng]] with two numbers *)
| CMalformed.             (** anything else (wrong length, strings, ...) *)

(** [isValidLatLngTuple] (ActiveTripView.tsx): an array of length two
    holding two numbers. *)
Definition isValidLatLngTuple (c : coord_val) : bool :=
  match c with
  | CPair _ _ => true
  | CMalformed => false
  end.

Definition coord_of (c : coord_val) : option LatLngTuple :=
  match c with
  | CPair a b => Some (a, b)
  | CMalformed => None
  end.

Lemma coord_of_valid c : isValidLatLngTuple c = true <-> exists p, coord_of c = Some p.
Proof. destruct c; simpl; split; intros H; try discriminate; eauto.
       destruct H; discriminate. Qed.

(** A booking record, with the fields the driver-side code reads. *)
Record Booking : Type := mkBooking {
  b_id : string;
  b_status : status;
  b_pickup : option coord_val;
  b_drop : option coord_val;
  b_distance : option string;
  b_duration : option string;
  b_service : string
}.

(** [{...trip, status}]: the same booking with a new status. *)
Definition with_status (b : Booking) (s : status) : Booking :=
  {| b_id := b_id b; b_status := s; b_pickup := b_pickup b;
     b_drop := b_drop b; b_distance := b_distance b;
     b_duration := b_duration b; b_service := b_service b |}.

Lemma with_status_id b s : b_id (with_status b s) = b_id b.
Proof. reflexivity. Qed.

Lemma with_status_status b s : b_status (with_status b s) = s.
Proof. reflexivity. Qed.

#[export] Hint Rewrite with_status_id with_status_status : driver_rw.
