(* ===== verification/JsText.v ===== *)
(** The JavaScript built-ins on strings and numbers that the components
    call: [String.prototype.split] and [Array.prototype.join] with a
    one-character separator, string truthiness in [a || b],
    [parseFloat] (ECMAScript's longest [StrDecimalLiteral] prefix after
    leading white space) and [Number.prototype.toFixed].  Numbers are
    finite rationals, NaN or an infinity; finite arithmetic is exact
    (no double rounding), and [toFixed]'s exponent form for |x| >= 1e21
    is not modelled.  The lemmas give [split]/[join] and
    [parseFloat]/[toFixed] as round trips, and the rounding error of
    [toFixed]. *)

From Stdlib Require Import String Ascii List Bool ZArith NArith QArith Qround Qabs Lia Lqa.
From S2P Require Import Prelude.
Import ListNotations.

Module Js.

(** ** Strings *)

(** [s.split(c)] for a one-character separator: every occurrence cuts,
    empty fields included; [""] splits into [[""]]. *)
Fixpoint split (c : ascii) (s : string) : list string :=
  match s with
  | EmptyString => [EmptyString]
  | String a s' =>
      if Ascii.eqb a c then EmptyString :: split c s'
      else match split c s' with
           | f :: fs => String a f :: fs
           | [] => [String a EmptyString]
           end
  end.

(** [xs.join(sep)]. *)
Fixpoint join (sep : string) (xs : list string) : string :=
  match xs with
  | [] => EmptyString
  | [x] => x
  | x :: xs' => x ++ sep ++ join sep xs'
  end.

(** [a || b] on strings: the empty string is falsy. *)
Definition str_or (a b : string) : string :=
  match a with EmptyString => b | _ => a end.

(** White space as [StrWhiteSpaceChar] has it in ASCII: tab, line feed,
    vertical tab, form feed, carriage return and space. *)
Definition is_ws (c : ascii) : bool :=
  let n := nat_of_ascii c in (n =? 32)%nat || ((9 <=? n)%nat && (n <=? 13)%nat).

Fixpoint trim_start (s : string) : string :=
  match s with
  | String c s' => if is_ws c then trim_start s' else s
  | EmptyString => EmptyString
  end.

(** [s.trim()]: white space removed at both ends. *)
Fixpoint drop_ws (l : list ascii) : list ascii :=
  match l with
  | c :: l' => if is_ws c then drop_ws l' else l
  | [] => []
  end.

Definition trim (s : string) : string :=
  string_of_list_ascii (rev (drop_ws (rev (list_ascii_of_string (trim_start s))))).

(** ** Numbers *)

(** A JS number: a finite value, NaN, or an infinity ([true]: negative). *)
Inductive jsnum : Type :=
| JNum (q : Q)
| JNaN
| JInf (neg : bool).

(** [x + y]. *)
Definition jadd (x y : jsnum) : jsnum :=
  match x, y with
  | JNaN, _ | _, JNaN => JNaN
  | JInf a, JInf b => if Bool.eqb a b then JInf a else JNaN
  | JInf a, JNum _ | JNum _, JInf a => JInf a
  | JNum p, JNum q => JNum (Qred (p + q))
  end.

(** [x * y]. *)
Definition jmul (x y : jsnum) : jsnum :=
  match x, y with
  | JNaN, _ | _, JNaN => JNaN
  | JInf a, JInf b => JInf (xorb a b)
  | JInf a, JNum q | JNum q, JInf a =>
      if Qeq_bool q 0 then JNaN else JInf (xorb a (negb (Qle_bool 0 q)))
  | JNum p, JNum q => JNum (Qred (p * q))
  end.

(** Decimal digits. *)
Definition digit_val (c : ascii) : option N :=
  let n := nat_of_ascii c in
  if (48 <=? n)%nat && (n <=? 57)%nat then Some (N.of_nat (n - 48)) else None.

Definition digit_char (d : N) : ascii := ascii_of_nat (48 + N.to_nat d).

(** Reads the longest run of digits: its value (continuing [acc]), its
    length (continuing [k]) and the rest. *)
Fixpoint scan_digits (s : string) (acc : N) (k : nat) : N * nat * string :=
  match s with
  | String c s' =>
      match digit_val c with
      | Some d => scan_digits s' (acc * 10 + d) (S k)
      | None => (acc, k, s)
      end
  | EmptyString => (acc, k, EmptyString)
  end.

(** An optional sign. *)
Definition scan_sign (t : string) : bool * string :=
  match t with
  | String c u =>
      if Ascii.eqb c "-"%char then (true, u)
      else if Ascii.eqb c "+"%char then (false, u) else (false, t)
  | EmptyString => (false, t)
  end.

(** [ExponentPart] if one is there: [e] or [E], a sign, at least one
    digit; otherwise it is not part of the literal and counts as 0. *)
Definition scan_exponent (s : string) : Z :=
  match s with
  | String c r =>
      if Ascii.eqb c "e"%char || Ascii.eqb c "E"%char then
        let '(neg, r') := scan_sign r in
        let '(e, k, _) := scan_digits r' 0 0 in
        if (k =? 0)%nat then 0%Z else if neg then (- Z.of_N e)%Z else Z.of_N e
      else 0%Z
  | EmptyString => 0%Z
  end.

(** The value of [a.b] (with [kb] fraction digits) times [10^e]. *)
Definition decimal_value (a b : N) (kb : nat) (e : Z) : Q :=
  Qred ((inject_Z (Z.of_N a) + inject_Z (Z.of_N b) / inject_Z (10 ^ Z.of_nat kb)) * Qpower 10 e).

(** The fraction part after the integer digits: [.] and digits if a dot
    follows (the digits may be empty), nothing otherwise. *)
Definition scan_fraction (r : string) : N * nat * string :=
  match r with
  | String c r' => if Ascii.eqb c "."%char then scan_digits r' 0 0 else (0%N, 0%nat, r)
  | EmptyString => (0%N, 0%nat, r)
  end.

(** [parseFloat(s)]. *)
Definition parseFloat (s : string) : jsnum :=
  let '(neg, u) := scan_sign (trim_start s) in
  if String.prefix "Infinity" u then JInf neg
  else
    let '(a, ka, r1) := scan_digits u 0 0 in
    let '(b, kb, r2) := scan_fraction r1 in
    if (ka =? 0)%nat && (kb =? 0)%nat then JNaN
    else
      let q := decimal_value a b kb (scan_exponent r2) in
      JNum (if neg then Qred (- q) else q).

(** The decimal digits of [n], most significant first, no leading zero
    ([[0]] for 0); the fuel is the bit length, never fewer than the
    digits. *)
Fixpoint digits_rev (fuel : nat) (n : N) : list N :=
  match fuel with
  | O => [n]
  | S f => if (n <? 10)%N then [n] else (n mod 10)%N :: digits_rev f (n / 10)%N
  end.

Definition digits (n : N) : list N := rev (digits_rev (N.to_nat (N.size n)) n).

Definition str_of_digits (ds : list N) : string :=
  fold_right (fun d s => String (digit_char d) s) EmptyString ds.

(** Step 11 of [toFixed] for the integer [n = round(x * 10^f)]: its
    digits, padded with zeros to [f + 1] digits, with a dot before the
    last [f]. *)
Definition fixed_digits (f : nat) (n : N) : string :=
  let m := digits n in
  if (f =? 0)%nat then str_of_digits m
  else
    let m := repeat 0%N (S f - length m) ++ m in
    let k := (length m - f)%nat in
    str_of_digits (firstn k m) ++ "." ++ str_of_digits (skipn k m).

(** The integer [n] nearest to [x * 10^f], the larger one on a tie. *)
Definition round_scaled (f : nat) (x : Q) : N :=
  Z.to_N (Qfloor (x * inject_Z (10 ^ Z.of_nat f) + (1 # 2))).

(** [x.toFixed(f)]. *)
Definition toFixed (f : nat) (x : jsnum) : string :=
  match x with
  | JNaN => "NaN"
  | JInf false => "Infinity"
  | JInf true => "-Infinity"
  | JNum q =>
      if Qle_bool 0 q then fixed_digits f (round_scaled f q)
      else "-" ++ fixed_digits f (round_scaled f (- q))
  end.

(** ** Lemmas: [split] and [join] *)

Lemma split_not_nil c s : split c s <> [].
Proof.
induction s as [|a s IH]; simpl; [discriminate|].
destruct (Ascii.eqb a c); [discriminate|]. destruct (split c s); discriminate.
Qed.

Lemma join_cons sep x l : l <> [] -> join sep (x :: l) = (x ++ sep ++ join sep l)%string.
Proof. destruct l; [contradiction | reflexivity]. Qed.

(** Joining the fields with the separator gives the string back. *)
Lemma join_split c s : join (String c EmptyString) (split c s) = s.
Proof.
induction s as [|a s IH]; [reflexivity|]. simpl.
pose proof (split_not_nil c s) as Hn.
destruct (Ascii.eqb_spec a c) as [->|Hne].
- rewrite join_cons by exact Hn. simpl. rewrite IH. reflexivity.
- destruct (split c s) as [|f fs]; [contradiction|].
  destruct fs as [|g fs]; simpl in *; rewrite IH; reflexivity.
Qed.

(** The first field is the text before the first separator. *)
Fixpoint before (c : ascii) (s : string) : string :=
  match s with
  | EmptyString => EmptyString
  | String a s' => if Ascii.eqb a c then EmptyString else String a (before c s')
  end.

Lemma split_head c s : hd EmptyString (split c s) = before c s.
Proof.
induction s as [|a s IH]; [reflexivity|]. simpl.
destruct (Ascii.eqb a c); [reflexivity|].
pose proof (split_not_nil c s) as Hn.
destruct (split c s) as [|f fs]; [contradiction|]. simpl in *. rewrite IH. reflexivity.
Qed.

Lemma append_empty_r s : (s ++ EmptyString)%string = s.
Proof. induction s as [|a s IH]; simpl; [reflexivity | rewrite IH; reflexivity]. Qed.

Lemma append_assoc_str a b c : ((a ++ b) ++ c)%string = (a ++ (b ++ c))%string.
Proof. induction a as [|x a IH]; simpl; [reflexivity | rewrite IH; reflexivity]. Qed.

(** ** Lemmas: digits *)

(** The value of a digit sequence read from the left, continuing [acc]. *)
Definition horner (acc : N) (ds : list N) : N := fold_left (fun a d => (a * 10 + d)%N) ds acc.

Lemma horner_app acc l1 l2 : horner acc (l1 ++ l2) = horner (horner acc l1) l2.
Proof. unfold horner. apply fold_left_app. Qed.

Lemma horner_acc acc ds : horner acc ds = (acc * 10 ^ N.of_nat (length ds) + horner 0 ds)%N.
Proof.
revert acc. induction ds as [|d ds IH]; intros acc; [unfold horner; simpl; lia|].
change (horner acc (d :: ds)) with (horner (acc * 10 + d)%N ds).
change (horner 0 (d :: ds)) with (horner (0 * 10 + d)%N ds).
rewrite (IH (acc * 10 + d)%N), (IH (0 * 10 + d)%N).
cbn [length]. rewrite Nat2N.inj_succ, N.pow_succ_r'. nia.
Qed.

Lemma horner_zeros k ds : horner 0 (repeat 0%N k ++ ds) = horner 0 ds.
Proof.
rewrite horner_app. replace (horner 0 (repeat 0%N k)) with 0%N; [reflexivity|].
induction k as [|k IH]; [reflexivity|]. unfold horner in *; simpl. exact IH.
Qed.

Lemma horner_split k ds :
  horner 0 ds = (horner 0 (firstn k ds) * 10 ^ N.of_nat (length (skipn k ds)) + horner 0 (skipn k ds))%N.
Proof.
rewrite <- (firstn_skipn k ds) at 1. rewrite horner_app, horner_acc. reflexivity.
Qed.

Fixpoint val_rev (ds : list N) : N :=
  match ds with [] => 0%N | d :: ds' => (d + 10 * val_rev ds')%N end.

Lemma horner_rev ds : horner 0 (rev ds) = val_rev ds.
Proof.
induction ds as [|d ds IH]; [reflexivity|]. cbn [rev val_rev].
rewrite horner_app, IH. unfold horner at 1. cbn [fold_left]. lia.
Qed.

Lemma digits_rev_spec f n :
  (n < 2 ^ N.of_nat f)%N ->
  val_rev (digits_rev f n) = n /\ Forall (fun d => d < 10)%N (digits_rev f n).
Proof.
revert n. induction f as [|f IH]; intros n Hn; cbn [digits_rev].
- simpl in Hn. split; [cbn [val_rev]; lia | repeat constructor; lia].
- destruct (N.ltb_spec n 10) as [Hlt|Hge]; [split; [cbn [val_rev]; lia | repeat constructor; lia]|].
  rewrite Nat2N.inj_succ, N.pow_succ_r' in Hn.
  destruct (IH (n / 10)%N) as [Hv Hf].
  + apply N.Div0.div_lt_upper_bound. lia.
  + split; [cbn [val_rev]; rewrite Hv; pose proof (N.div_mod n 10); lia|].
    constructor; [apply N.mod_lt; lia | exact Hf].
Qed.

Lemma digits_spec n :
  horner 0 (digits n) = n /\ Forall (fun d => d < 10)%N (digits n) /\ digits n <> [].
Proof.
unfold digits.
destruct (digits_rev_spec (N.to_nat (N.size n)) n) as [Hv Hf].
- rewrite N2Nat.id. apply N.size_gt.
- split; [rewrite horner_rev; exact Hv|]. split; [apply Forall_rev; exact Hf|].
  destruct (N.to_nat (N.size n)); simpl; [discriminate|].
  destruct (n <? 10)%N; simpl; [discriminate|]. intros H. apply app_eq_nil in H. destruct H; discriminate.
Qed.

(** The characters of a digit. *)
Lemma digit_char_facts d : (d < 10)%N ->
  digit_val (digit_char d) = Some d /\ is_ws (digit_char d) = false /\
  Ascii.eqb (digit_char d) "-"%char = false /\ Ascii.eqb (digit_char d) "+"%char = false /\
  Ascii.eqb (digit_char d) "I"%char = false.
Proof.
intros Hd. assert (H : d = 0%N \/ d = 1%N \/ d = 2%N \/ d = 3%N \/ d = 4%N \/ d = 5%N \/
                       d = 6%N \/ d = 7%N \/ d = 8%N \/ d = 9%N) by lia.
repeat destruct H as [->|H]; [..|subst]; vm_compute; repeat split.
Qed.

Lemma scan_digits_cons c s acc k d :
  digit_val c = Some d -> scan_digits (String c s) acc k = scan_digits s (acc * 10 + d)%N (S k).
Proof. intros H. simpl. rewrite H. reflexivity. Qed.

Lemma scan_digits_app ds rest acc k :
  Forall (fun d => d < 10)%N ds ->
  (forall c r, rest = String c r -> digit_val c = None) ->
  scan_digits (str_of_digits ds ++ rest) acc k = (horner acc ds, (k + length ds)%nat, rest).
Proof.
intros Hds Hrest. revert acc k. induction Hds as [|d ds Hd Hds IH]; intros acc k.
- change (str_of_digits [] ++ rest)%string with rest.
  destruct rest as [|c r]; [cbn; rewrite Nat.add_0_r; reflexivity|].
  cbn [scan_digits]. rewrite (Hrest c r eq_refl), Nat.add_0_r. reflexivity.
- change (str_of_digits (d :: ds) ++ rest)%string with (String (digit_char d) (str_of_digits ds ++ rest)).
  rewrite (scan_digits_cons _ _ _ _ d (proj1 (digit_char_facts d Hd))), IH.
  cbn [length]. f_equal. f_equal. lia.
Qed.
(** A string that starts with a digit is left alone by the white-space
    trim and the sign, and is not [Infinity]. *)
Lemma digits_lead ds rest :
  Forall (fun d => d < 10)%N ds -> ds <> [] ->
  let s := (str_of_digits ds ++ rest)%string in
  trim_start s = s /\ scan_sign s = (false, s) /\ String.prefix "Infinity" s = false.
Proof.
intros Hf Hne. destruct ds as [|d ds]; [contradiction|]. inversion Hf as [|? ? Hd _]; subst.
destruct (digit_char_facts d Hd) as (_ & Hw & Hm & Hp & HI).
change (str_of_digits (d :: ds) ++ rest)%string with (String (digit_char d) (str_of_digits ds ++ rest)).
cbn [trim_start scan_sign]. rewrite Hw, Hm, Hp. split; [reflexivity|]. split; [reflexivity|].
cbn [String.prefix]. destruct (ascii_dec "I"%char (digit_char d)) as [E|E]; [|reflexivity].
rewrite <- E in HI. discriminate HI.
Qed.

Lemma inject_Z_pow10_nonzero f : ~ inject_Z (10 ^ Z.of_nat f) == 0.
Proof.
assert (H : (0 < 10 ^ Z.of_nat f)%Z) by (apply Z.pow_pos_nonneg; lia).
unfold Qeq; simpl. lia.
Qed.

Lemma decimal_value_int a b f :
  decimal_value a b f 0 =
  Qred (inject_Z (Z.of_N (a * 10 ^ N.of_nat f + b)) / inject_Z (10 ^ Z.of_nat f)).
Proof.
unfold decimal_value. apply Qred_complete.
rewrite N2Z.inj_add, N2Z.inj_mul, N2Z.inj_pow, nat_N_Z, inject_Z_plus, inject_Z_mult.
pose proof (inject_Z_pow10_nonzero f). change (Z.of_N 10) with 10%Z. simpl Qpower. field. exact H.
Qed.

(** The two parts of [fixed_digits] for [f <> 0]: digits before and
    after the dot, [f] of them after it, worth [n] together. *)
Lemma fixed_parts f n : f <> 0%nat ->
  let P := repeat 0%N (S f - length (digits n)) ++ digits n in
  let k := (length P - f)%nat in
  Forall (fun d => d < 10)%N (firstn k P) /\ Forall (fun d => d < 10)%N (skipn k P) /\
  firstn k P <> [] /\ length (skipn k P) = f /\ (k =? 0)%nat = false /\ horner 0 P = n.
Proof.
intros Hf0 P k. destruct (digits_spec n) as (Hv & Hf & Hne).
assert (HP : Forall (fun d => d < 10)%N P)
  by (apply Forall_app; split; [apply Forall_forall; intros x Hx; apply repeat_spec in Hx; lia | exact Hf]).
assert (HL : (S f <= length P)%nat) by (unfold P; rewrite length_app, repeat_length; lia).
assert (Hparts : Forall (fun d => d < 10)%N (firstn k P) /\ Forall (fun d => d < 10)%N (skipn k P))
  by (apply Forall_app; rewrite firstn_skipn; exact HP).
destruct Hparts as [Hfirst Hskip]. split; [exact Hfirst|]. split; [exact Hskip|].
assert (Hk : (length (firstn k P) = k /\ length (skipn k P) = f)%nat)
  by (rewrite length_firstn, length_skipn; unfold k; lia).
split; [intros E; rewrite E in Hk; simpl in Hk; unfold k in Hk; lia|].
split; [exact (proj2 Hk)|]. split; [apply Nat.eqb_neq; unfold k; lia|].
unfold P. rewrite horner_zeros. exact Hv.
Qed.

(** [toFixed]'s digits start with a digit. *)
Lemma fixed_digits_lead f n :
  trim_start (fixed_digits f n) = fixed_digits f n /\ scan_sign (fixed_digits f n) = (false, fixed_digits f n).
Proof.
destruct (digits_spec n) as (Hv & Hf & Hne). unfold fixed_digits.
destruct (Nat.eqb_spec f 0) as [->|Hf0].
- rewrite <- (append_empty_r (str_of_digits (digits n))).
  destruct (digits_lead (digits n) EmptyString Hf Hne) as (Ht & Hs & _). split; assumption.
- destruct (fixed_parts f n Hf0) as (Hfirst & _ & Hfne & _).
  edestruct digits_lead as (Ht & Hs & _); [exact Hfirst | exact Hfne | split; [exact Ht | exact Hs]].
Qed.

(** [parseFloat] reads back what step 11 of [toFixed] writes. *)
Lemma parse_fixed_digits f n :
  parseFloat (fixed_digits f n) = JNum (Qred (inject_Z (Z.of_N n) / inject_Z (10 ^ Z.of_nat f))).
Proof.
destruct (digits_spec n) as (Hv & Hf & Hne). unfold fixed_digits.
destruct (Nat.eqb_spec f 0) as [->|Hf0].
- rewrite <- (append_empty_r (str_of_digits (digits n))).
  destruct (digits_lead (digits n) EmptyString Hf Hne) as (Ht & Hs & Hi).
  unfold parseFloat. rewrite Ht, Hs, Hi.
  rewrite (scan_digits_app _ _ _ _ Hf) by discriminate.
  assert (Hl : (0 + length (digits n) =? 0)%nat = false) by (destruct (digits n); [contradiction | reflexivity]).
  cbv beta iota zeta. cbn [scan_fraction scan_exponent]. cbv beta iota zeta. rewrite Hl. cbn [andb].
  rewrite decimal_value_int, Hv. replace (n * 10 ^ N.of_nat 0 + 0)%N with n by (simpl; lia). reflexivity.
- destruct (fixed_parts f n Hf0) as (Hfirst & Hskip & Hfne & Hk2 & Ek & HPv).
  set (P := repeat 0%N (S f - length (digits n)) ++ digits n) in *.
  set (k := (length P - f)%nat) in *.
  destruct (digits_lead (firstn k P) ("." ++ str_of_digits (skipn k P)) Hfirst Hfne) as (Ht & Hs & Hi).
  unfold parseFloat. rewrite Ht, Hs, Hi.
  rewrite (scan_digits_app _ _ _ _ Hfirst) by (intros c r E; injection E as <- _; reflexivity).
  cbn [scan_fraction String.append]. rewrite Ascii.eqb_refl.
  rewrite <- (append_empty_r (str_of_digits (skipn k P))), (scan_digits_app _ _ _ _ Hskip) by discriminate.
  rewrite length_firstn, Hk2. replace (0 + min k (length P))%nat with k by (unfold k; lia).
  cbv beta iota zeta. cbn [scan_exponent]. rewrite Ek. cbn [andb]. rewrite decimal_value_int.
  rewrite <- Hk2 at 1. rewrite <- horner_split, HPv. reflexivity.
Qed.

(** The number [x.toFixed(f)] denotes. *)
Definition fixed_value (f : nat) (q : Q) : Q :=
  if Qle_bool 0 q then inject_Z (Z.of_N (round_scaled f q)) / inject_Z (10 ^ Z.of_nat f)
  else - (inject_Z (Z.of_N (round_scaled f (- q))) / inject_Z (10 ^ Z.of_nat f)).

Lemma parseFloat_minus s :
  trim_start s = s -> scan_sign s = (false, s) ->
  parseFloat ("-" ++ s) =
  match parseFloat s with JNum q => JNum (Qred (- q)) | JInf b => JInf (negb b) | JNaN => JNaN end.
Proof.
intros Ht Hs.
assert (E1 : is_ws "-"%char = false) by reflexivity.
assert (E2 : Ascii.eqb "-"%char "-"%char = true) by reflexivity.
unfold parseFloat. cbn [String.append trim_start]. rewrite E1. cbn [scan_sign]. rewrite E2.
rewrite Ht, Hs. cbv beta iota zeta.
destruct (String.prefix "Infinity" s); [reflexivity|].
destruct (scan_digits s 0 0) as [[a ka] r1]. destruct (scan_fraction r1) as [[b kb] r2].
destruct ((ka =? 0)%nat && (kb =? 0)%nat); reflexivity.
Qed.

(** Round trip: [parseFloat(x.toFixed(f))] is the rounded value. *)
Lemma parseFloat_toFixed f q : parseFloat (toFixed f (JNum q)) = JNum (Qred (fixed_value f q)).
Proof.
unfold toFixed, fixed_value. destruct (Qle_bool 0 q).
- apply parse_fixed_digits.
- destruct (fixed_digits_lead f (round_scaled f (- q))) as [Ht Hs].
  rewrite (parseFloat_minus _ Ht Hs), parse_fixed_digits. f_equal.
  apply Qred_complete. rewrite Qred_correct. reflexivity.
Qed.

Lemma round_scaled_error f q : 0 <= q ->
  Qabs (inject_Z (Z.of_N (round_scaled f q)) / inject_Z (10 ^ Z.of_nat f) - q)
  <= 1 / (2 * inject_Z (10 ^ Z.of_nat f)).
Proof.
intros Hq. unfold round_scaled.
set (D := inject_Z (10 ^ Z.of_nat f)).
assert (HD : 0 < D) by (unfold D, Qlt; simpl; rewrite Z.mul_1_r; apply Z.pow_pos_nonneg; lia).
set (x := q * D + (1 # 2)).
assert (Hlo := Qfloor_le x). assert (Hhi := Qlt_floor x).
assert (Hz : (0 <= Qfloor x)%Z).
{ assert (Hqd : 0 <= q * D) by (apply Qmult_le_0_compat; lra).
  assert (H0 : 0 < inject_Z (Qfloor x + 1)) by (unfold x in *; lra).
  change 0 with (inject_Z 0) in H0. rewrite <- Zlt_Qlt in H0. lia. }
rewrite Z2N.id by exact Hz.
rewrite inject_Z_plus in Hhi. set (z := inject_Z (Qfloor x)) in *.
assert (Hiv : 0 < / D) by (apply Qinv_lt_0_compat; exact HD).
assert (HD0 : ~ D == 0) by (intros E; rewrite E in HD; apply (Qlt_irrefl 0); exact HD).
setoid_replace (z / D - q) with ((z - q * D) * / D) by (field; exact HD0).
setoid_replace (1 / (2 * D)) with ((1 # 2) * / D) by (field; exact HD0).
apply Qabs_Qle_condition. change (inject_Z 1) with 1 in Hhi.
assert (Hx : x == q * D + (1 # 2)) by reflexivity. clearbody z x.
assert (Hiv' : 0 <= / D) by (apply Qlt_le_weak; exact Hiv). split.
- setoid_replace (- ((1 # 2) * / D)) with ((- (1 # 2)) * / D) by ring.
  apply Qmult_le_compat_r; [lra | exact Hiv'].
- apply Qmult_le_compat_r; [lra | exact Hiv'].
Qed.

(** The value [x.toFixed(f)] shows is within half a unit of its last
    digit of [x]. *)
Lemma fixed_value_error f q :
  Qabs (fixed_value f q - q) <= 1 / (2 * inject_Z (10 ^ Z.of_nat f)).
Proof.
unfold fixed_value. destruct (Qle_bool 0 q) eqn:E.
- apply round_scaled_error. apply Qle_bool_iff. exact E.
- assert (Hn : 0 <= - q).
  { apply Qnot_lt_le. intros H. apply Qlt_le_weak in H.
    assert (H' : 0 <= q) by lra. apply Qle_bool_iff in H'. congruence. }
  pose proof (round_scaled_error f (- q) Hn) as H.
  rewrite <- Qabs_opp. setoid_replace (- (- (inject_Z (Z.of_N (round_scaled f (- q))) / inject_Z (10 ^ Z.of_nat f)) - q))
    with (inject_Z (Z.of_N (round_scaled f (- q))) / inject_Z (10 ^ Z.of_nat f) - - q) by ring.
  exact H.
Qed.

End Js.
