(* ===== verification/Fares.v ===== *)
(** The fare and earnings arithmetic of the driver screens: the price of
    a request card and of a history item
    ([((parseFloat(distance || '0') * 0.5) + 2).toFixed(2)], RequestCard.tsx
    and DriverApp.tsx's [TripHistoryItem]) and DriverApp's [earnings], a
    [reduce] of the same fare over the trip history.  The theorems relate
    the displayed strings to the specification's linear fare
    [distance * 0.5 + 2]: the price is that fare to the cent, the
    earnings are the sum of the fares, a history entry whose distance is
    not numeric turns the whole sum into NaN, and the trip summary's
    constant "$8.50" is the fare of 13 km trips only. *)

From Stdlib Require Import String List Bool ZArith QArith Qabs Lia Lqa.
From S2P Require Import Prelude Types JsText.
Import ListNotations Js.

Module Fares.

(** [booking.distance || '0']: absent and empty distances read as "0". *)
Definition distance_or_zero (d : option string) : string :=
  match d with
  | Some s => str_or s "0"
  | None => "0"
  end.

(** [parseFloat(t.distance || '0') * 0.5 + 2]. *)
Definition fare (b : Booking) : jsnum :=
  jadd (jmul (parseFloat (distance_or_zero (b_distance b))) (JNum (1 # 2))) (JNum 2).

(** [price] of RequestCard and of TripHistoryItem. *)
Definition price (b : Booking) : string := toFixed 2 (fare b).

(** [earnings = tripHistory.reduce((acc, t) => acc + fare, 0)]. *)
Definition earnings (h : list Booking) : jsnum :=
  fold_left (fun acc t => jadd acc (fare t)) h (JNum 0).

(** [earnings.toFixed(2)] of the top bar and the earnings tab. *)
Definition earnings_text (h : list Booking) : string := toFixed 2 (earnings h).

(** The trip summary's earnings line (ActiveTripView.tsx): a constant. *)
Definition summary_earnings_text : string := "8.50".

(** The specification's fare of a distance. *)
Definition spec_fare (d : Q) : Q := d * (1 # 2) + 2.

(** ** Lemmas *)

Lemma fare_finite b d :
  parseFloat (distance_or_zero (b_distance b)) = JNum d ->
  fare b = JNum (Qred (Qred (d * (1 # 2)) + 2)).
Proof. intros H. unfold fare. rewrite H. reflexivity. Qed.

Lemma fare_nan b :
  parseFloat (distance_or_zero (b_distance b)) = JNaN -> fare b = JNaN.
Proof. intros H. unfold fare. rewrite H. reflexivity. Qed.

Lemma jadd_nan_r x : jadd x JNaN = JNaN.
Proof. destruct x as [q| |[]]; reflexivity. Qed.

Lemma fold_fares_nan h : fold_left (fun acc t => jadd acc (fare t)) h JNaN = JNaN.
Proof. induction h as [|t h IH]; [reflexivity|]. exact IH. Qed.

Lemma fold_fares_finite h ds a :
  Forall2 (fun t d => parseFloat (distance_or_zero (b_distance t)) = JNum d) h ds ->
  exists v, fold_left (fun acc t => jadd acc (fare t)) h (JNum a) = JNum v /\
            v == a + fold_right (fun d acc => spec_fare d + acc) 0 ds.
Proof.
intros Hf. revert a. induction Hf as [|t d h ds Ht Hf IH]; intros a.
- exists a. split; [reflexivity | simpl; ring].
- cbn [fold_left]. rewrite (fare_finite t d Ht). cbn [jadd].
  destruct (IH (Qred (a + Qred (Qred (d * (1 # 2)) + 2)))) as (v & Hv & Heq).
  exists v. split; [exact Hv|]. rewrite Heq, !Qred_correct. unfold spec_fare. simpl. ring.
Qed.

Lemma fold_fares_nan_in h t a :
  In t h -> fare t = JNaN -> fold_left (fun acc t => jadd acc (fare t)) h a = JNaN.
Proof.
revert a. induction h as [|t' h IH]; intros a Hin Ht; [contradiction|].
cbn [fold_left]. destruct Hin as [<-|Hin].
- rewrite Ht, jadd_nan_r. apply fold_fares_nan.
- apply IH; assumption.
Qed.

(** ** Properties *)

(** C21: The price shown on a request card or a history item is the
    specification's fare [distance * 0.5 + 2] to the cent: whenever the
    distance (or "0" when it is missing) parses to a number [d], the
    price string reads back as a value within half a cent of
    [d * 0.5 + 2]. *)
Theorem price_is_fare_to_the_cent b d :
  parseFloat (distance_or_zero (b_distance b)) = JNum d ->
  exists v, parseFloat (price b) = JNum v /\ Qabs (v - spec_fare d) <= 1 # 200.
Proof.
intros H. unfold price. rewrite (fare_finite b d H), parseFloat_toFixed.
eexists. split; [reflexivity|].
set (x := Qred (Qred (d * (1 # 2)) + 2)).
assert (E1 : Qred (fixed_value 2 x) == fixed_value 2 x) by apply Qred_correct.
assert (E2 : x == spec_fare d) by (unfold x, spec_fare; rewrite !Qred_correct; reflexivity).
rewrite E1, <- E2.
eapply Qle_trans; [apply fixed_value_error | apply Qle_bool_iff; reflexivity].
Qed.

(** The trip summary does not show the trip's fare: it always says
    8.50, which is the price only of trips whose distance is within
    10 m of 13 km; the spec scenario's 5 km trip costs 4.50. *)
Theorem summary_earnings_is_not_the_fare b d :
  parseFloat (distance_or_zero (b_distance b)) = JNum d ->
  price b = summary_earnings_text -> Qabs (d - 13) <= 1 # 100.
Proof.
intros H Hp.
set (x := Qred (Qred (d * (1 # 2)) + 2)).
assert (Hv : JNum (Qred (fixed_value 2 x)) = JNum (17 # 2)).
{ transitivity (parseFloat (price b)); [|rewrite Hp; reflexivity].
  unfold price. rewrite (fare_finite b d H), parseFloat_toFixed. reflexivity. }
assert (Hq : Qred (fixed_value 2 x) = 17 # 2) by congruence.
pose proof (fixed_value_error 2 x) as E.
assert (E1 : fixed_value 2 x == 17 # 2) by (rewrite <- Hq; symmetry; apply Qred_correct).
assert (E2 : x == d * (1 # 2) + 2) by (unfold x; rewrite !Qred_correct; reflexivity).
rewrite E1, E2 in E. apply Qabs_Qle_condition in E. apply Qabs_Qle_condition.
change (1 / (2 * inject_Z (10 ^ Z.of_nat 2))) with (1 # 200) in E. destruct E. split; lra.
Qed.

(** C22: The earnings are the sum of the history's fares: when every
    trip's distance parses to a number, the earnings are the sum of
    [d * 0.5 + 2] over the history. *)
Theorem earnings_is_sum_of_fares h ds :
  Forall2 (fun t d => parseFloat (distance_or_zero (b_distance t)) = JNum d) h ds ->
  exists v, earnings h = JNum v /\ v == fold_right (fun d acc => spec_fare d + acc) 0 ds.
Proof.
intros Hf. destruct (fold_fares_finite h ds 0 Hf) as (v & Hv & Heq).
exists v. split; [exact Hv | rewrite Heq; ring].
Qed.

(** C23: One trip whose distance is not numeric (say "n/a") poisons the
    earnings: the sum is NaN and the top bar shows "$NaN", whatever the
    other trips earned; the data model promises numeric distances but
    the code has no fallback. *)
Theorem earnings_nan_poisoned h t :
  In t h -> parseFloat (distance_or_zero (b_distance t)) = JNaN ->
  earnings h = JNaN /\ earnings_text h = "NaN"%string.
Proof.
intros Hin Ht. unfold earnings_text, earnings.
rewrite (fold_fares_nan_in h t (JNum 0) Hin (fare_nan t Ht)). split; reflexivity.
Qed.

(** A booking without a distance, or with an empty one, is priced
    at the base fare "2.00". *)
Theorem missing_distance_base_fare b :
  b_distance b = None \/ b_distance b = Some ""%string -> price b = "2.00"%string.
Proof. unfold price, fare. intros [H|H]; rewrite H; reflexivity. Qed.

End Fares.

(** ** Witnesses *)

Import Fares.

Definition fb (id dist : string) : Booking :=
  mkBooking id Completed None None (Some dist) None "car"%string.

Lemma price_is_fare_to_the_cent_witness :
  parseFloat (distance_or_zero (b_distance (fb "b1" "12.5 km"))) = JNum (25 # 2) /\
  exists v, parseFloat (price (fb "b1" "12.5 km")) = JNum v /\ Qabs (v - spec_fare (25 # 2)) <= 1 # 200.
Proof.
split; [reflexivity|]. apply (price_is_fare_to_the_cent (fb "b1" "12.5 km") (25 # 2)). reflexivity.
Defined.

Lemma earnings_is_sum_of_fares_witness :
  exists v, earnings [fb "b1" "12.5"; fb "b2" "3"] = JNum v /\
            v == fold_right (fun d acc => spec_fare d + acc) 0 [25 # 2; 3].
Proof.
apply (earnings_is_sum_of_fares [fb "b1" "12.5"; fb "b2" "3"] [25 # 2; 3]).
repeat constructor.
Defined.

Lemma earnings_nan_poisoned_witness :
  earnings [fb "b1" "12.5"; fb "b2" "n/a"] = JNaN /\
  earnings_text [fb "b1" "12.5"; fb "b2" "n/a"] = "NaN"%string.
Proof.
apply (earnings_nan_poisoned _ (fb "b2" "n/a")); [right; left; reflexivity | reflexivity].
Defined.

Lemma summary_earnings_is_not_the_fare_witness :
  Qabs (13 - 13) <= 1 # 100.
Proof. apply (summary_earnings_is_not_the_fare (fb "b4" "13") 13); reflexivity. Defined.

Lemma missing_distance_base_fare_witness :
  price (mkBooking "b3" Pending None None None None "car") = "2.00"%string.
Proof. apply missing_distance_base_fare. left. reflexivity. Defined.
