(* ===== verification/RequestCard.v ===== *)
(** RequestCard's address effect (RequestCard.tsx): after a stagger of
    [index * 300] ms the card reverse-geocodes the pickup and then the
    drop, shortens each answer to its first two comma-separated parts,
    falls back to ["Lat: " + lat.toFixed(3)] when the answer is empty, and
    on any exception shows the error text in both places.  The state is
    the card's three state hooks plus the effect's timer and the awaits
    in flight; replies are inputs and may come in any order.  The
    theorems give the labels of a normal run, the shortening as a prefix
    of the answer, the fallback's precision, the catch branch that
    overwrites a label already shown, and the reload that a new
    delivery of the same booking triggers; [view_of] is what the card
    renders (price, and the placeholder while loading). *)

From Stdlib Require Import String Ascii List Bool Arith ZArith QArith Qabs Lia Lqa.
From S2P Require Import Prelude Types JsText Fares.
Import ListNotations Js.
Local Open Scope nat_scope.

Module Card.

(** The texts the card shows: an address, [t('notSpecified')] or
    [t('routeFetchError')] (localized strings are symbolic). *)
Inductive label : Type :=
| Text (s : string)
| NotSpecified
| FetchError.

(** How an awaited [apiService.reverseGeocode] settles. *)
Inductive geo_reply : Type :=
| Resolved (answer : option string)
| Rejected.

(** The effect's dependencies [booking.pickup, booking.drop, language]
    and the card's [index]. *)
Record card_deps : Type := mkCardDeps {
  cd_pickup : option coord_val;
  cd_drop : option coord_val;
  cd_lang : string;
  cd_index : nat
}.

(** Where a running [fetchAddresses] is suspended. *)
Inductive cproc : Type :=
| AwaitPickup (d : card_deps)
| AwaitDrop (d : card_deps) (pAddress : label).

Record Card : Type := mkCard {
  c_now : nat;
  c_mounted : bool;
  c_timer : option (nat * card_deps);
  c_procs : list (nat * cproc);
  c_next : nat;
  pickupAddress : option label;
  dropAddress : option label;
  isLoadingAddresses : bool;
  geocode_calls : list coord_val
}.

Inductive card_event : Type :=
| CRender (t : nat) (d : card_deps)   (** a render whose dependency array changed *)
| CWait (t : nat)
| CGeo (k : nat) (r : geo_reply)
| CUnmount (t : nat).

(** [fetched?.split(',').slice(0, 2).join(',')]. *)
Definition short_address (a : string) : string := join "," (firstn 2 (split ","%char a)).

(** [`Lat: ${c[0].toFixed(3)}`]; [None] when it throws (the first
    element is not a number). *)
Definition lat_fallback (c : coord_val) : option string :=
  match c with
  | CPair lat _ => Some ("Lat: " ++ toFixed 3 (JNum lat))%string
  | CMalformed => None
  end.

(** [fetched?.split(',').slice(0, 2).join(',') || fallback]; [None] when
    the fallback throws. *)
Definition address_of (fetched : option string) (c : coord_val) : option string :=
  match option_map short_address fetched with
  | Some (String a s) => Some (String a s)
  | _ => lat_fallback c
  end.

(** State setters: React drops them once the card is unmounted. *)
Definition set_labels (p d : option label) (loading : bool) (st : Card) : Card :=
  if c_mounted st then
    mkCard (c_now st) true (c_timer st) (c_procs st) (c_next st) p d loading (geocode_calls st)
  else st.

(** Calling [reverseGeocode(c, language)] and awaiting it. *)
Definition await_geocode (c : coord_val) (p : cproc) (st : Card) : Card :=
  mkCard (c_now st) (c_mounted st) (c_timer st) (c_procs st ++ [(c_next st, p)]) (S (c_next st))
         (pickupAddress st) (dropAddress st) (isLoadingAddresses st) (geocode_calls st ++ [c]).

(** From [setPickupAddress(pAddress)] on: the drop part of the try block,
    and the [finally] when nothing is awaited. *)
Definition after_pickup (d : card_deps) (pl : label) (st : Card) : Card :=
  let st1 := set_labels (Some pl) (dropAddress st) (isLoadingAddresses st) st in
  match cd_drop d with
  | Some c => await_geocode c (AwaitDrop d pl) st1
  | None => set_labels (pickupAddress st1) (Some NotSpecified) false st1
  end.

(** The [catch] and [finally] blocks. *)
Definition caught (st : Card) : Card := set_labels (Some FetchError) (Some FetchError) false st.

(** [fetchAddresses()] up to its first await. *)
Definition fetchAddresses (d : card_deps) (st : Card) : Card :=
  let st1 := set_labels (pickupAddress st) (dropAddress st) true st in
  match cd_pickup d with
  | Some c => await_geocode c (AwaitPickup d) st1
  | None => after_pickup d NotSpecified st1
  end.

(** A reply to the await [p]. *)
Definition resume (p : cproc) (r : geo_reply) (st : Card) : Card :=
  match p, r with
  | _, Rejected => caught st
  | AwaitPickup d, Resolved a =>
      match cd_pickup d with
      | Some c =>
          match address_of a c with
          | Some s => after_pickup d (Text s) st
          | None => caught st
          end
      | None => st
      end
  | AwaitDrop d pl, Resolved a =>
      match cd_drop d with
      | Some c =>
          match address_of a c with
          | Some s => set_labels (pickupAddress st) (Some (Text s)) false st
          | None => caught st
          end
      | None => st
      end
  end.

Definition with_now (t : nat) (st : Card) : Card :=
  mkCard t (c_mounted st) (c_timer st) (c_procs st) (c_next st)
         (pickupAddress st) (dropAddress st) (isLoadingAddresses st) (geocode_calls st).

Definition with_timer (tm : option (nat * card_deps)) (st : Card) : Card :=
  mkCard (c_now st) (c_mounted st) tm (c_procs st) (c_next st)
         (pickupAddress st) (dropAddress st) (isLoadingAddresses st) (geocode_calls st).

(** Time passes to [t]; the stagger timer fires once its deadline is
    reached. *)
Definition advance (t : nat) (st : Card) : Card :=
  match c_timer st with
  | Some (dl, d) =>
      if dl <=? t then with_now t (fetchAddresses d (with_timer None (with_now dl st)))
      else with_now t st
  | None => with_now t st
  end.

Definition find_cproc (k : nat) (ps : list (nat * cproc)) : option cproc :=
  option_map snd (find (fun kp => Nat.eqb (fst kp) k) ps).

Definition drop_cproc (k : nat) (ps : list (nat * cproc)) : list (nat * cproc) :=
  List.filter (fun kp => negb (Nat.eqb (fst kp) k)) ps.

Definition with_procs (ps : list (nat * cproc)) (st : Card) : Card :=
  mkCard (c_now st) (c_mounted st) (c_timer st) ps (c_next st)
         (pickupAddress st) (dropAddress st) (isLoadingAddresses st) (geocode_calls st).

(** One event.  A render with new dependencies runs the cleanup
    ([clearTimeout]) and the effect ([setTimeout(..., index * 300)]). *)
Definition card_step (st : Card) (e : card_event) : option Card :=
  match e with
  | CRender t d =>
      if t <? c_now st then None
      else let st1 := advance t st in
           if c_mounted st1 then Some (with_timer (Some (t + cd_index d * 300, d)) st1)
           else Some st1
  | CWait t => if t <? c_now st then None else Some (advance t st)
  | CGeo k r =>
      match find_cproc k (c_procs st) with
      | Some p => Some (resume p r (with_procs (drop_cproc k (c_procs st)) st))
      | None => None
      end
  | CUnmount t =>
      if t <? c_now st then None
      else let st1 := advance t st in
           Some (mkCard (c_now st1) false None (c_procs st1) (c_next st1)
                        (pickupAddress st1) (dropAddress st1) (isLoadingAddresses st1) (geocode_calls st1))
  end.

Fixpoint card_run (st : Card) (es : list card_event) : option Card :=
  match es with
  | [] => Some st
  | e :: es' => match card_step st e with Some st' => card_run st' es' | None => None end
  end.

(** The card as first rendered at time [t]: labels [null], loading, and
    the effect's timer armed. *)
Definition card_mount (t : nat) (d : card_deps) : Card :=
  mkCard t true (Some (t + cd_index d * 300, d)) [] 0 None None true [].

(** What a label slot shows: the loading placeholder while
    [isLoadingAddresses], otherwise the label ([null] shows nothing). *)
Inductive shown : Type :=
| Skeleton
| Shown (l : option label).

Definition shown_label (loading : bool) (l : option label) : shown :=
  if loading then Skeleton else Shown l.

(** The card as rendered for booking [b]: service, distance, duration,
    price, and the from and to slots. *)
Record card_view : Type := mkCardView {
  v_service : string;
  v_distance : option string;
  v_duration : option string;
  v_price : string;
  v_from : shown;
  v_to : shown
}.

Definition view_of (b : Booking) (st : Card) : card_view :=
  mkCardView (b_service b) (b_distance b) (b_duration b) (Fares.price b)
    (shown_label (isLoadingAddresses st) (pickupAddress st))
    (shown_label (isLoadingAddresses st) (dropAddress st)).

(** The card's two action buttons, in their order on the card. *)
Inductive card_action : Type := CardDecline | CardAccept.

(** [onClick={() => onDecline(booking.id)}] and
    [onClick={() => onAccept(booking.id)}]: each hands the booking's id
    to the handler the dashboard passed down. *)
Definition card_buttons (b : Booking) : list (card_action * string) :=
  [(CardDecline, b_id b); (CardAccept, b_id b)].

(** ** Lemmas *)

Lemma join_app sep l1 l2 : l1 <> [] -> l2 <> [] ->
  join sep (l1 ++ l2) = (join sep l1 ++ sep ++ join sep l2)%string.
Proof.
intros H1 H2. induction l1 as [|x l1 IH]; [contradiction|].
destruct l1 as [|y l1].
- simpl app. rewrite join_cons by exact H2. reflexivity.
- rewrite <- app_comm_cons, join_cons by (simpl; discriminate).
  rewrite IH by discriminate. rewrite (join_cons sep x (y :: l1)) by discriminate.
  rewrite !append_assoc_str. reflexivity.
Qed.

Section Run.
Variables (t0 i : nat) (p q : coord_val) (lang : string).
Let d := mkCardDeps (Some p) (Some q) lang i.

(** The stagger timer fires at [t0 + index * 300] and the pickup is
    geocoded. *)
Lemma card_fire :
  card_step (card_mount t0 d) (CWait (t0 + i * 300)) =
  Some (mkCard (t0 + i * 300) true None [(0, AwaitPickup d)] 1 None None true [p]).
Proof.
unfold card_step, card_mount, d. cbn [c_now cd_index].
replace (t0 + i * 300 <? t0) with false by (symmetry; apply Nat.ltb_ge; lia).
unfold advance. cbn [c_timer]. rewrite Nat.leb_refl. reflexivity.
Qed.

(** Before that nothing is fetched. *)
Lemma card_wait_early t :
  t0 <= t < t0 + i * 300 ->
  card_step (card_mount t0 d) (CWait t) = Some (with_now t (card_mount t0 d)).
Proof.
intros Ht. unfold card_step, card_mount, d. cbn [c_now cd_index].
replace (t <? t0) with false by (symmetry; apply Nat.ltb_ge; lia).
unfold advance. cbn [c_timer]. replace (t0 + i * 300 <=? t) with false by (symmetry; apply Nat.leb_gt; lia).
reflexivity.
Qed.

(** The pickup's answer: its label is shown and the drop is geocoded. *)
Lemma card_pickup_reply ap sp :
  address_of ap p = Some sp ->
  card_step (mkCard (t0 + i * 300) true None [(0, AwaitPickup d)] 1 None None true [p]) (CGeo 0 (Resolved ap)) =
  Some (mkCard (t0 + i * 300) true None [(1, AwaitDrop d (Text sp))] 2 (Some (Text sp)) None true [p; q]).
Proof. intros H. cbn. rewrite H. reflexivity. Qed.

(** The drop's answer: both labels are shown. *)
Lemma card_drop_reply ap aq sp sq :
  address_of ap p = Some sp -> address_of aq q = Some sq ->
  card_run (card_mount t0 d) [CWait (t0 + i * 300); CGeo 0 (Resolved ap); CGeo 1 (Resolved aq)] =
  Some (mkCard (t0 + i * 300) true None [] 2 (Some (Text sp)) (Some (Text sq)) false [p; q]).
Proof.
  intros Hp Hq. cbn [card_run]. rewrite card_fire, (card_pickup_reply ap sp Hp). cbn. rewrite Hq. reflexivity.
Qed.

(** A later render whose dependency array changed arms the stagger
    again, and when it fires the card loads and geocodes the pickup. *)
Lemma card_rerender t pl dl calls :
  t0 + i * 300 <= t ->
  card_run (mkCard (t0 + i * 300) true None [] 2 pl dl false calls) [CRender t d; CWait (t + i * 300)] =
  Some (mkCard (t + i * 300) true None [(2, AwaitPickup d)] 3 pl dl true (calls ++ [p])).
Proof.
  intros Ht. cbn -[Nat.leb Nat.ltb].
  replace (t <? t0 + i * 300) with false by (symmetry; apply Nat.ltb_ge; lia).
  cbn -[Nat.leb Nat.ltb]. replace (t + i * 300 <? t) with false by (symmetry; apply Nat.ltb_ge; lia).
  cbn -[Nat.leb Nat.ltb]. rewrite Nat.leb_refl. reflexivity.
Qed.

End Run.

(** ** Properties *)

(** The shortened address is the answer up to its second comma: it
    is the whole answer when the answer has at most one comma, and
    otherwise the answer is the shortened text, a comma and the rest. *)
Theorem short_address_prefix a :
  short_address a = a \/ exists rest, a = (short_address a ++ "," ++ rest)%string.
Proof.
unfold short_address. pose proof (join_split ","%char a) as Hj.
destruct (split ","%char a) as [|x [|y [|z zs]]] eqn:E; simpl firstn.
- left. exact Hj.
- left. exact Hj.
- left. exact Hj.
- right. exists (join "," (z :: zs)).
  rewrite <- Hj at 1. change (x :: y :: z :: zs) with ([x; y] ++ z :: zs).
  apply join_app; discriminate.
Qed.

(** A card at index [i] fetches nothing before [i * 300] ms, then
    geocodes the pickup and the drop in this order, and, when both
    answers give a label, shows them and stops loading. *)
Theorem card_labels_after_stagger t0 i p q lang ap aq sp sq :
  address_of ap p = Some sp -> address_of aq q = Some sq ->
  (forall t, t0 <= t < t0 + i * 300 ->
     exists st, card_run (card_mount t0 (mkCardDeps (Some p) (Some q) lang i)) [CWait t] = Some st /\
                geocode_calls st = [] /\ pickupAddress st = None /\ isLoadingAddresses st = true) /\
  exists st, card_run (card_mount t0 (mkCardDeps (Some p) (Some q) lang i))
               [CWait (t0 + i * 300); CGeo 0 (Resolved ap); CGeo 1 (Resolved aq)] = Some st /\
             pickupAddress st = Some (Text sp) /\ dropAddress st = Some (Text sq) /\
             isLoadingAddresses st = false /\ geocode_calls st = [p; q].
Proof.
intros Hp Hq. split.
- intros t Ht. eexists. cbn [card_run]. rewrite card_wait_early by exact Ht.
  split; [reflexivity|]. repeat split.
- eexists. cbn [card_run]. rewrite card_fire, (card_pickup_reply t0 i p q lang ap sp Hp).
  cbn. rewrite Hq. split; [reflexivity|]. repeat split.
Qed.

(** C32: A failed drop lookup erases the pickup's label: the pickup's
    address is on screen, the drop's [reverseGeocode] rejects, and the
    [catch] block replaces both labels with the error text, where the
    specification keeps the last good label on a geocoding failure. *)
Theorem drop_failure_erases_pickup t0 i p q lang ap sp :
  address_of ap p = Some sp ->
  exists st1 st2,
    card_run (card_mount t0 (mkCardDeps (Some p) (Some q) lang i))
      [CWait (t0 + i * 300); CGeo 0 (Resolved ap)] = Some st1 /\
    pickupAddress st1 = Some (Text sp) /\
    card_step st1 (CGeo 1 Rejected) = Some st2 /\
    pickupAddress st2 = Some FetchError /\ dropAddress st2 = Some FetchError.
Proof.
intros Hp. do 2 eexists. cbn [card_run]. rewrite card_fire, (card_pickup_reply t0 i p q lang ap sp Hp).
split; [reflexivity|]. split; [reflexivity|]. split; [reflexivity|]. split; reflexivity.
Qed.

(** When the geocoder has no answer, the label is "Lat: " and the
    latitude to three decimals: the digits read back within 0.0005 of
    the latitude. *)
Theorem lat_fallback_precision lat lng :
  exists s v, address_of None (CPair lat lng) = Some ("Lat: " ++ s)%string /\
              parseFloat s = JNum v /\ (Qabs (v - lat) <= 1 # 2000)%Q.
Proof.
exists (toFixed 3 (JNum lat)), (Qred (fixed_value 3 lat)).
split; [reflexivity|]. split; [apply parseFloat_toFixed|].
assert (E1 : Qred (fixed_value 3 lat) == fixed_value 3 lat) by apply Qred_correct.
rewrite E1. eapply Qle_trans; [apply fixed_value_error | apply Qle_bool_iff; reflexivity].
Qed.

(** Every delivery of the booking set hands the card new
    [booking.pickup] and [booking.drop] arrays, which the effect
    compares by identity: once both labels are shown, such a render,
    even with unchanged values, arms the stagger again; when it fires
    both slots fall back to the loading placeholder and the pickup is
    geocoded a second time (the stagger exists to spare the geocoder). *)
Theorem redelivery_reloads_labels b t0 i p q lang ap aq sp sq t :
  address_of ap p = Some sp -> address_of aq q = Some sq -> t0 + i * 300 <= t ->
  exists st1 st2,
    card_run (card_mount t0 (mkCardDeps (Some p) (Some q) lang i))
      [CWait (t0 + i * 300); CGeo 0 (Resolved ap); CGeo 1 (Resolved aq)] = Some st1 /\
    v_from (view_of b st1) = Shown (Some (Text sp)) /\ v_to (view_of b st1) = Shown (Some (Text sq)) /\
    card_run st1 [CRender t (mkCardDeps (Some p) (Some q) lang i); CWait (t + i * 300)] = Some st2 /\
    v_from (view_of b st2) = Skeleton /\ v_to (view_of b st2) = Skeleton /\ geocode_calls st2 = [p; q; p].
Proof.
  intros Hp Hq Ht. do 2 eexists. rewrite (card_drop_reply t0 i p q lang ap aq sp sq Hp Hq).
  split; [reflexivity|]. split; [reflexivity|]. split; [reflexivity|].
  rewrite (card_rerender t0 i p q lang t _ _ _ Ht). repeat split.
Qed.

End Card.

(** ** Witnesses *)

Import Card.

Definition wp : coord_val := CPair (153 # 10) (442 # 10).
Definition wq : coord_val := CPair (1535 # 100) (4425 # 100).

Lemma card_labels_after_stagger_witness :
  (forall t, 0 <= t < 600 ->
     exists st, card_run (card_mount 0 (mkCardDeps (Some wp) (Some wq) "ar" 2)) [CWait t] = Some st /\
                geocode_calls st = [] /\ pickupAddress st = None /\ isLoadingAddresses st = true) /\
  exists st, card_run (card_mount 0 (mkCardDeps (Some wp) (Some wq) "ar" 2))
               [CWait 600; CGeo 0 (Resolved (Some "Tahrir St, Sanaa, Yemen"%string)); CGeo 1 (Resolved (Some ""%string))] = Some st /\
             pickupAddress st = Some (Text "Tahrir St, Sanaa") /\ dropAddress st = Some (Text "Lat: 15.350") /\
             isLoadingAddresses st = false /\ geocode_calls st = [wp; wq].
Proof.
apply (card_labels_after_stagger 0 2 wp wq "ar" (Some "Tahrir St, Sanaa, Yemen"%string) (Some ""%string)
         "Tahrir St, Sanaa" "Lat: 15.350"); vm_compute; reflexivity.
Defined.

Lemma drop_failure_erases_pickup_witness :
  exists st1 st2,
    card_run (card_mount 0 (mkCardDeps (Some wp) (Some wq) "ar" 0))
      [CWait 0; CGeo 0 (Resolved (Some "Tahrir St, Sanaa, Yemen"%string))] = Some st1 /\
    pickupAddress st1 = Some (Text "Tahrir St, Sanaa") /\
    card_step st1 (CGeo 1 Rejected) = Some st2 /\
    pickupAddress st2 = Some FetchError /\ dropAddress st2 = Some FetchError.
Proof.
apply (drop_failure_erases_pickup 0 0 wp wq "ar" (Some "Tahrir St, Sanaa, Yemen"%string) "Tahrir St, Sanaa").
vm_compute. reflexivity.
Defined.

Lemma redelivery_reloads_labels_witness :
  exists st1 st2,
    card_run (card_mount 0 (mkCardDeps (Some wp) (Some wq) "ar" 1))
      [CWait 300; CGeo 0 (Resolved (Some "Tahrir St, Sanaa, Yemen"%string));
       CGeo 1 (Resolved (Some "Hadda St, Sanaa"%string))] = Some st1 /\
    v_from (view_of (mkBooking "b1" Pending (Some wp) (Some wq) (Some "5"%string) (Some "12"%string) "car") st1) =
      Shown (Some (Text "Tahrir St, Sanaa")) /\
    v_to (view_of (mkBooking "b1" Pending (Some wp) (Some wq) (Some "5"%string) (Some "12"%string) "car") st1) =
      Shown (Some (Text "Hadda St, Sanaa")) /\
    card_run st1 [CRender 2000 (mkCardDeps (Some wp) (Some wq) "ar" 1); CWait 2300] = Some st2 /\
    v_from (view_of (mkBooking "b1" Pending (Some wp) (Some wq) (Some "5"%string) (Some "12"%string) "car") st2) = Skeleton /\
    v_to (view_of (mkBooking "b1" Pending (Some wp) (Some wq) (Some "5"%string) (Some "12"%string) "car") st2) = Skeleton /\
    geocode_calls st2 = [wp; wq; wp].
Proof.
  apply (redelivery_reloads_labels (mkBooking "b1" Pending (Some wp) (Some wq) (Some "5"%string) (Some "12"%string) "car")
           0 1 wp wq "ar" _ _ "Tahrir St, Sanaa" "Hadda St, Sanaa" 2000);
    [vm_compute; reflexivity | vm_compute; reflexivity | apply Nat.leb_le; reflexivity].
Defined.
