(* ===== verification/LocationPicker.v ===== *)
(** MapPicker's location selection (MapPicker.tsx): the initial
    geolocation with its default-centre fallback, the map click, the
    "my location" button, the choice of a search result, the
    reverse-geocode effect debounced by 500 ms with its [displayAddress]
    rule, the five-second error message and the confirm button.  The
    state is the component's state hooks, the map reference, the effect's
    timer and dependencies, the message timers and the awaits in flight;
    geolocation and geocoder answers are inputs and may come in any
    order.  The theorems give the fallback and the "my location"
    indicator, the search name that the geocoder does not overwrite, and
    the departures from the specification, each for every state where it
    can happen: a late reply of an earlier lookup that puts its address
    on the current selection (and is then written back by the effect), a
    late initial geolocation that overrides a point already chosen, two
    lookups per cleared selection, a message timer that clears whatever
    message is shown (a newer error included), and a search spinner that
    never stops once the query is shortened below two characters. *)

From Stdlib Require Import String Ascii List Bool Arith ZArith QArith Qabs Lia Lqa.
From S2P Require Import Prelude Types JsText.
Import ListNotations Js.
Local Open Scope nat_scope.

Module Picker.

(** [locationMessage]'s texts (localized strings are symbolic). *)
Inductive message : Type :=
| CouldNotGetLocation
| LocationPermissionDenied.

(** How [geolocationService.getCurrentPosition] settles. *)
Inductive geo_result : Type :=
| Located (p : LatLngTuple)
| GeoFailed (permission_denied : bool).

(** Where an async function is suspended: [initializeMap] and
    [handleMyLocationClick] at their geolocation await, the debounced
    lookup at its [reverseGeocode] await with the [displayAddress] its
    closure saw. *)
Inductive pproc : Type :=
| InitLocate
| MyLocate
| Lookup (seenDisplay : string).

Inductive reply : Type :=
| GeoReply (r : geo_result)
| AddrReply (address : option string).

Record Picker : Type := mkPicker {
  p_now : nat;
  map_ready : bool;                        (** [mapRef.current] *)
  selectedLocation : option LatLngTuple;
  sel_version : nat;                       (** identity of the [selectedLocation] array *)
  displayAddress : string;
  userPhysicalLocation : option LatLngTuple;
  isGettingLocation : bool;
  locationMessage : option message;
  currentAddress : option string;
  isFetchingAddress : bool;
  manual : bool;                           (** [hasLocationBeenManuallyUpdated] *)
  searchOpen : bool;                       (** [isSearchViewOpen] *)
  rg_deps : option (nat * string);         (** the effect's last dependencies *)
  rg_timer : option (nat * (LatLngTuple * string));
  msg_timers : list nat;
  p_procs : list (nat * pproc);
  p_next : nat;
  lookups : list LatLngTuple;              (** [reverseGeocode] calls *)
  confirmed : list LatLngTuple             (** [onSelect] calls *)
}.

Inductive picker_event : Type :=
| PReply (k : nat) (r : reply)
| PMapClick (p : LatLngTuple)
| POpenSearch
| PCloseSearch
| PSearchSelect (lat lon name : string)
| PMyLocation
| PWait (t : nat)
| PConfirm.

(** [[15.3694, 44.1910]]. *)
Definition default_center : LatLngTuple := (153694 # 10000, 441910 # 10000)%Q.

(** [areLocationsEqual]. *)
Definition areLocationsEqual (l1 l2 : option LatLngTuple) : bool :=
  match l1, l2 with
  | Some (a1, b1), Some (a2, b2) =>
      negb (Qle_bool (1 # 100000) (Qabs (a1 - a2))) && negb (Qle_bool (1 # 100000) (Qabs (b1 - b2)))
  | _, _ => false
  end.

Definition isMyLocationActive (st : Picker) : bool :=
  areLocationsEqual (userPhysicalLocation st) (selectedLocation st).

(** The footer's caption: [true] for "current ... location", [false] for
    "updated ... location". *)
Definition shows_current_caption (st : Picker) : bool :=
  negb (manual st) || isMyLocationActive st.

(** ** Field updates *)

Definition set_selected (p : LatLngTuple) (st : Picker) : Picker :=
  let '(mkPicker n m _ v da u g msg ca f man so dp tm mt ps nx lk cf) := st in
  mkPicker n m (Some p) (S v) da u g msg ca f man so dp tm mt ps nx lk cf.

Definition set_display (s : string) (st : Picker) : Picker :=
  let '(mkPicker n m sel v _ u g msg ca f man so dp tm mt ps nx lk cf) := st in
  mkPicker n m sel v s u g msg ca f man so dp tm mt ps nx lk cf.

Definition set_user (p : LatLngTuple) (st : Picker) : Picker :=
  let '(mkPicker n m sel v da _ g msg ca f man so dp tm mt ps nx lk cf) := st in
  mkPicker n m sel v da (Some p) g msg ca f man so dp tm mt ps nx lk cf.

Definition set_getting (b : bool) (st : Picker) : Picker :=
  let '(mkPicker n m sel v da u _ msg ca f man so dp tm mt ps nx lk cf) := st in
  mkPicker n m sel v da u b msg ca f man so dp tm mt ps nx lk cf.

Definition set_message (o : option message) (st : Picker) : Picker :=
  let '(mkPicker n m sel v da u g _ ca f man so dp tm mt ps nx lk cf) := st in
  mkPicker n m sel v da u g o ca f man so dp tm mt ps nx lk cf.

Definition set_current (o : option string) (st : Picker) : Picker :=
  let '(mkPicker n m sel v da u g msg _ f man so dp tm mt ps nx lk cf) := st in
  mkPicker n m sel v da u g msg o f man so dp tm mt ps nx lk cf.

Definition set_fetching (b : bool) (st : Picker) : Picker :=
  let '(mkPicker n m sel v da u g msg ca _ man so dp tm mt ps nx lk cf) := st in
  mkPicker n m sel v da u g msg ca b man so dp tm mt ps nx lk cf.

Definition set_manual (st : Picker) : Picker :=
  let '(mkPicker n m sel v da u g msg ca f _ so dp tm mt ps nx lk cf) := st in
  mkPicker n m sel v da u g msg ca f true so dp tm mt ps nx lk cf.

Definition set_search_open (b : bool) (st : Picker) : Picker :=
  let '(mkPicker n m sel v da u g msg ca f man _ dp tm mt ps nx lk cf) := st in
  mkPicker n m sel v da u g msg ca f man b dp tm mt ps nx lk cf.

Definition set_map_ready (st : Picker) : Picker :=
  let '(mkPicker n _ sel v da u g msg ca f man so dp tm mt ps nx lk cf) := st in
  mkPicker n true sel v da u g msg ca f man so dp tm mt ps nx lk cf.

Definition set_effect (dp : option (nat * string)) (tm : option (nat * (LatLngTuple * string))) (st : Picker) : Picker :=
  let '(mkPicker n m sel v da u g msg ca f man so _ _ mt ps nx lk cf) := st in
  mkPicker n m sel v da u g msg ca f man so dp tm mt ps nx lk cf.

Definition set_msg_timers (mt : list nat) (st : Picker) : Picker :=
  let '(mkPicker n m sel v da u g msg ca f man so dp tm _ ps nx lk cf) := st in
  mkPicker n m sel v da u g msg ca f man so dp tm mt ps nx lk cf.

Definition set_procs (ps : list (nat * pproc)) (st : Picker) : Picker :=
  let '(mkPicker n m sel v da u g msg ca f man so dp tm mt _ nx lk cf) := st in
  mkPicker n m sel v da u g msg ca f man so dp tm mt ps nx lk cf.

Definition set_now (t : nat) (st : Picker) : Picker :=
  let '(mkPicker _ m sel v da u g msg ca f man so dp tm mt ps nx lk cf) := st in
  mkPicker t m sel v da u g msg ca f man so dp tm mt ps nx lk cf.

(** Starting an awaited call. *)
Definition spawn (p : pproc) (st : Picker) : Picker :=
  let '(mkPicker n m sel v da u g msg ca f man so dp tm mt ps nx lk cf) := st in
  mkPicker n m sel v da u g msg ca f man so dp tm mt (ps ++ [(nx, p)]) (S nx) lk cf.

Definition add_lookup (p : LatLngTuple) (st : Picker) : Picker :=
  let '(mkPicker n m sel v da u g msg ca f man so dp tm mt ps nx lk cf) := st in
  mkPicker n m sel v da u g msg ca f man so dp tm mt ps nx (lk ++ [p]) cf.

Definition add_confirmed (p : LatLngTuple) (st : Picker) : Picker :=
  let '(mkPicker n m sel v da u g msg ca f man so dp tm mt ps nx lk cf) := st in
  mkPicker n m sel v da u g msg ca f man so dp tm mt ps nx lk (cf ++ [p]).

(** ** The reverse-geocode effect *)

Definition deps_same (dp : option (nat * string)) (v : nat) (da : string) : bool :=
  match dp with
  | Some (v', da') => Nat.eqb v v' && String.eqb da da'
  | None => false
  end.

(** Run after every render: when [selectedLocation] (by identity) or
    [displayAddress] changed, the cleanup clears the pending timer, and
    with a location the effect sets [isFetchingAddress] and arms a 500 ms
    timer whose closure holds the location and this render's
    [displayAddress].  (The language does not change in this model.) *)
Definition rg_effect (st : Picker) : Picker :=
  if deps_same (rg_deps st) (sel_version st) (displayAddress st) then st
  else
    let dp := Some (sel_version st, displayAddress st) in
    match selectedLocation st with
    | None => set_effect dp None st
    | Some p => set_fetching true (set_effect dp (Some (p_now st + 500, (p, displayAddress st))) st)
    end.

(** ** Handlers and continuations *)

(** [initializeMap] after its await: the position or the fallback and
    the message, [finally], the selection, the map and its click
    handler. *)
Definition after_init_locate (r : geo_result) (st : Picker) : Picker :=
  let st1 := match r with
             | Located q => set_user q st
             | GeoFailed _ => set_message (Some CouldNotGetLocation) st
             end in
  let center := match r with Located q => q | GeoFailed _ => default_center end in
  set_map_ready (set_selected center (set_getting false st1)).

(** [handleMyLocationClick] after its await. *)
Definition after_my_locate (r : geo_result) (st : Picker) : Picker :=
  match r with
  | Located q => set_getting false (set_manual (set_display "" (set_selected q (set_user q st))))
  | GeoFailed denied =>
      set_getting false
        (set_msg_timers (msg_timers st ++ [p_now st + 5000])
          (set_message (Some (if denied then LocationPermissionDenied else CouldNotGetLocation)) st))
  end.

(** The debounced lookup after its await: [setCurrentAddress(address)],
    the name from the answer when the closure's [displayAddress] was
    empty, and [setIsFetchingAddress(false)]. *)
Definition after_lookup (seen : string) (a : option string) (st : Picker) : Picker :=
  let st1 := set_current a st in
  let st2 := if String.eqb seen "" then
               set_display (match a with Some s => before ","%char s | None => "" end) st1
             else st1 in
  set_fetching false st2.

(** The map's click handler. *)
Definition on_map_click (p : LatLngTuple) (st : Picker) : Picker :=
  set_manual (set_display "" (set_selected p st)).

(** [handleSelectFromSearch]; [None] when a coordinate is not numeric
    (outside the geocoder's contract). *)
Definition handleSelectFromSearch (lat lon name : string) (st : Picker) : option Picker :=
  match parseFloat lat, parseFloat lon with
  | JNum a, JNum b =>
      Some (set_manual (set_display (before ","%char name) (set_search_open false (set_selected (a, b) st))))
  | _, _ => None
  end.

(** [handleMyLocationClick] up to its await. *)
Definition handleMyLocationClick (st : Picker) : Picker :=
  spawn MyLocate (set_message None (set_getting true st)).

(** Timers due by [t]: the message timers clear the message; the lookup
    timer calls [reverseGeocode] with its closure's location. *)
Definition fire_timers (t : nat) (st : Picker) : Picker :=
  let st1 := if existsb (fun dl => dl <=? t) (msg_timers st)
             then set_message None (set_msg_timers (List.filter (fun dl => negb (dl <=? t)) (msg_timers st)) st)
             else st in
  match rg_timer st1 with
  | Some (dl, (p, seen)) =>
      if dl <=? t then spawn (Lookup seen) (add_lookup p (set_effect (rg_deps st1) None st1)) else st1
  | None => st1
  end.

Definition find_pproc (k : nat) (ps : list (nat * pproc)) : option pproc :=
  option_map snd (find (fun kp => Nat.eqb (fst kp) k) ps).

Definition drop_pproc (k : nat) (st : Picker) : Picker :=
  set_procs (List.filter (fun kp => negb (Nat.eqb (fst kp) k)) (p_procs st)) st.

(** One event, before the effect. *)
Definition picker_step0 (st : Picker) (e : picker_event) : option Picker :=
  match e with
  | PReply k r =>
      match find_pproc k (p_procs st), r with
      | Some InitLocate, GeoReply g => Some (after_init_locate g (drop_pproc k st))
      | Some MyLocate, GeoReply g => Some (after_my_locate g (drop_pproc k st))
      | Some (Lookup seen), AddrReply a => Some (after_lookup seen a (drop_pproc k st))
      | _, _ => None
      end
  | PMapClick p => if map_ready st then Some (on_map_click p st) else None
  | POpenSearch => Some (set_search_open true st)
  | PCloseSearch => if searchOpen st then Some (set_search_open false st) else None
  | PSearchSelect lat lon name => if searchOpen st then handleSelectFromSearch lat lon name st else None
  | PMyLocation => if isGettingLocation st then None else Some (handleMyLocationClick st)
  | PWait t => if t <? p_now st then None else Some (fire_timers t (set_now t st))
  | PConfirm =>
      match selectedLocation st with
      | Some p => if isFetchingAddress st then None else Some (add_confirmed p st)
      | None => None
      end
  end.

(** One event and the re-render's effect. *)
Definition picker_step (st : Picker) (e : picker_event) : option Picker :=
  option_map rg_effect (picker_step0 st e).

Fixpoint picker_run (st : Picker) (es : list picker_event) : option Picker :=
  match es with
  | [] => Some st
  | e :: es' => match picker_step st e with Some st' => picker_run st' es' | None => None end
  end.

(** Mount: [initializeMap] awaits the position; the first effect sees no
    location. *)
Definition picker_mount : Picker :=
  rg_effect (mkPicker 0 false None 0 "" None true None None false false false None None [] [(0, InitLocate)] 1 [] []).

(** ** Lemmas *)

Lemma areLocationsEqual_refl p : areLocationsEqual (Some p) (Some p) = true.
Proof.
destruct p as [a b]. unfold areLocationsEqual.
assert (H : forall x : Q, Qle_bool (1 # 100000) (Qabs (x - x)) = false).
{ intros x. apply Bool.not_true_iff_false. rewrite Qle_bool_iff.
  setoid_replace (x - x)%Q with 0%Q by ring. apply Qlt_not_le. reflexivity. }
rewrite !H. reflexivity.
Qed.

(** A render that changes neither dependency does not run the effect. *)
Lemma rg_effect_same st :
  rg_deps st = Some (sel_version st, displayAddress st) -> rg_effect st = st.
Proof.
intros H. unfold rg_effect. rewrite H. cbn. rewrite Nat.eqb_refl, String.eqb_refl. reflexivity.
Qed.

(** The picker after the initial geolocation failed: the map is at the
    default centre and its first lookup is armed. *)
Definition picker_fallback : Picker :=
  mkPicker 0 true (Some default_center) 1 EmptyString None false (Some CouldNotGetLocation) None true false false
           (Some (1, EmptyString)) (Some (500, (default_center, EmptyString))) [] [] 1 [] [].

Lemma picker_fallback_reached :
  picker_step picker_mount (PReply 0 (GeoReply (GeoFailed false))) = Some picker_fallback.
Proof. reflexivity. Qed.

(** ** Lemmas on the effect and the timers *)

(** After any render the effect's dependencies are the rendered ones. *)
Lemma rg_effect_synced st :
  rg_deps (rg_effect st) = Some (sel_version (rg_effect st), displayAddress (rg_effect st)).
Proof.
unfold rg_effect. destruct (deps_same _ _ _) eqn:E.
- unfold deps_same in E. destruct (rg_deps st) as [[v' da']|]; [|discriminate].
  apply andb_true_iff in E. destruct E as [E1 E2].
  apply Nat.eqb_eq in E1. apply String.eqb_eq in E2. subst. reflexivity.
- destruct st, selectedLocation0; reflexivity.
Qed.

Lemma picker_run_synced st0 es st :
  rg_deps st0 = Some (sel_version st0, displayAddress st0) -> picker_run st0 es = Some st ->
  rg_deps st = Some (sel_version st, displayAddress st).
Proof.
revert st0. induction es as [|e es IH]; intros st0 H Hr; cbn in Hr; [injection Hr as <-; exact H|].
destruct (picker_step st0 e) as [s1|] eqn:E; [|discriminate]. apply (IH s1); [|exact Hr].
unfold picker_step in E. destruct (picker_step0 st0 e); [|discriminate]. injection E as <-. apply rg_effect_synced.
Qed.

Lemma rg_effect_message st : locationMessage (rg_effect st) = locationMessage st.
Proof. unfold rg_effect. destruct (deps_same _ _ _); [reflexivity|]. destruct st, selectedLocation0; reflexivity. Qed.

Lemma rg_effect_display st : displayAddress (rg_effect st) = displayAddress st.
Proof. unfold rg_effect. destruct (deps_same _ _ _); [reflexivity|]. destruct st, selectedLocation0; reflexivity. Qed.

Lemma rg_effect_selected st : selectedLocation (rg_effect st) = selectedLocation st.
Proof. unfold rg_effect. destruct (deps_same _ _ _); [reflexivity|]. destruct st, selectedLocation0; reflexivity. Qed.

(** A due message timer clears the message, whichever it is. *)
Lemma fire_timers_message t st :
  existsb (fun dl => dl <=? t) (msg_timers st) = true -> locationMessage (fire_timers t st) = None.
Proof.
intros H. unfold fire_timers. rewrite H. destruct st; cbn.
destruct rg_timer0 as [[dl [p seen]]|]; [destruct (dl <=? t)|]; reflexivity.
Qed.

(** A reply to an awaited call, one step unfolded. *)
Lemma picker_step_reply st k r :
  picker_step st (PReply k r) =
  option_map rg_effect
    match find_pproc k (p_procs st), r with
    | Some InitLocate, GeoReply g => Some (after_init_locate g (drop_pproc k st))
    | Some MyLocate, GeoReply g => Some (after_my_locate g (drop_pproc k st))
    | Some (Lookup seen), AddrReply a => Some (after_lookup seen a (drop_pproc k st))
    | _, _ => None
    end.
Proof. reflexivity. Qed.

(** ** Properties *)

(** The initial geolocation decides the first selection: on success
    the map opens at the driver's position with the "my location"
    indicator on; on failure it opens at the default centre
    (15.3694, 44.1910) with the "could not get location" message.  In
    both cases the spinner stops and the first address lookup is
    scheduled. *)
Theorem init_locate_outcome r :
  exists st, picker_step picker_mount (PReply 0 (GeoReply r)) = Some st /\
    isGettingLocation st = false /\ map_ready st = true /\ isFetchingAddress st = true /\
    match r with
    | Located q => selectedLocation st = Some q /\ isMyLocationActive st = true /\
                   shows_current_caption st = true /\ locationMessage st = None
    | GeoFailed _ => selectedLocation st = Some default_center /\
                     locationMessage st = Some CouldNotGetLocation
    end.
Proof.
destruct r as [q|denied]; eexists; (split; [reflexivity|]); cbn -[areLocationsEqual]; repeat split;
  unfold shows_current_caption, isMyLocationActive; cbn -[areLocationsEqual];
  rewrite areLocationsEqual_refl; reflexivity.
Qed.

(** The message of a failed initial geolocation is never taken down:
    no timer is set for it, so it stays on screen however long the
    picker waits, where the specification makes it transient. *)
Theorem init_error_message_persists t :
  exists st, picker_run picker_fallback [PWait t] = Some st /\ locationMessage st = Some CouldNotGetLocation.
Proof.
eexists. split; [reflexivity|].
unfold fire_timers. cbn -[Nat.leb]. destruct (500 <=? t); reflexivity.
Qed.

(** A name chosen from the search results stays in the search bar:
    the lookup the choice schedules updates the footer's address but
    leaves the name, and the confirm button is enabled again. *)
Theorem search_name_survives_lookup lat lon name a b addr :
  parseFloat lat = JNum a -> parseFloat lon = JNum b -> before ","%char name <> ""%string ->
  exists st, picker_run picker_fallback [POpenSearch; PSearchSelect lat lon name; PWait 500; PReply 1 (AddrReply addr)] = Some st /\
    selectedLocation st = Some (a, b) /\ displayAddress st = before ","%char name /\
    currentAddress st = addr /\ isFetchingAddress st = false /\ lookups st = [(a, b)].
Proof.
intros Ha Hb Hn. destruct (before ","%char name) as [|c r] eqn:E; [contradiction|].
eexists. split.
{ cbn [picker_run]. unfold picker_step at 1. cbn [picker_step0 option_map].
  unfold picker_step at 1. cbn [picker_step0]. cbn [searchOpen rg_effect set_search_open].
  unfold handleSelectFromSearch. rewrite Ha, Hb, E.
  cbn. repeat (rewrite rg_effect_same by reflexivity; cbn). reflexivity. }
repeat split.
Qed.

(** Every selection that clears the name is looked up twice: the
    first answer fills [displayAddress], which is a dependency of the
    lookup effect, so the effect runs again and geocodes the same point
    once more. *)
Theorem selection_geocoded_twice p s1 s2 :
  before ","%char s1 <> ""%string ->
  exists st, picker_run picker_fallback
               [PMapClick p; PWait 500; PReply 1 (AddrReply (Some s1)); PWait 1000; PReply 2 (AddrReply (Some s2))] = Some st /\
    lookups st = [p; p] /\ displayAddress st = before ","%char s1 /\ currentAddress st = Some s2.
Proof.
intros Hn. destruct (before ","%char s1) as [|c r] eqn:E; [contradiction|].
eexists. split; [cbn; rewrite E; cbn; repeat (rewrite rg_effect_same by reflexivity; cbn); reflexivity|].
repeat split.
Qed.

(** C33: A late answer names whatever is selected now: in any state the
    picker reaches from its mount, the answer of a lookup whose closure
    saw an empty search bar is written into the bar as the first segment
    of the street, whichever point the lookup was for and whatever is
    selected now; since the bar changed, the lookup of the current
    selection is armed again carrying that name, and every lookup whose
    closure saw a non-empty name leaves the bar as it is, so the current
    selection's own answer never replaces it. *)
Theorem stale_reply_names_selection es st k a q st' :
  picker_run picker_mount es = Some st ->
  find_pproc k (p_procs st) = Some (Lookup EmptyString) ->
  selectedLocation st = Some q -> before ","%char a <> displayAddress st ->
  picker_step st (PReply k (AddrReply (Some a))) = Some st' ->
  displayAddress st' = before ","%char a /\ selectedLocation st' = Some q /\
  (exists dl, rg_timer st' = Some (dl, (q, before ","%char a))) /\
  (forall st0 k0 seen a0 st1, find_pproc k0 (p_procs st0) = Some (Lookup seen) -> seen <> EmptyString ->
     picker_step st0 (PReply k0 (AddrReply a0)) = Some st1 -> displayAddress st1 = displayAddress st0).
Proof.
intros Hr Hf Hq Hne Hs. pose proof (picker_run_synced _ _ _ (rg_effect_synced _) Hr) as Hd.
split; [|split; [|split]].
- rewrite picker_step_reply, Hf in Hs. injection Hs as <-. rewrite rg_effect_display.
  destruct st; reflexivity.
- rewrite picker_step_reply, Hf in Hs. injection Hs as <-. rewrite rg_effect_selected.
  destruct st; exact Hq.
- rewrite picker_step_reply, Hf in Hs. injection Hs as <-.
  destruct st as [n m sel v da u g msg ca f man so dp tm mt ps nx lk cf]; cbn in *. subst sel dp.
  unfold rg_effect, deps_same; cbn. rewrite Nat.eqb_refl.
  destruct (String.eqb (before ","%char a) da) eqn:E; [apply String.eqb_eq in E; congruence|].
  eexists. reflexivity.
- intros st0 k0 seen a0 st1 Hf0 Hseen Hs0. rewrite picker_step_reply, Hf0 in Hs0. injection Hs0 as <-.
  rewrite rg_effect_display. unfold after_lookup.
  destruct (String.eqb seen EmptyString) eqn:E; [apply String.eqb_eq in E; contradiction|].
  destruct st0; reflexivity.
Qed.

(** C34: The initial position overrides any selection: in any state
    where [initializeMap] still awaits the position, its arrival selects
    the driver's position and marks it as the user's location, but
    leaves the search bar's name and the manual flag as they are; a
    place chosen from the search meanwhile is replaced while the bar
    keeps its name. *)
Theorem init_reply_overrides_selection st k q st' :
  find_pproc k (p_procs st) = Some InitLocate ->
  picker_step st (PReply k (GeoReply (Located q))) = Some st' ->
  selectedLocation st' = Some q /\ userPhysicalLocation st' = Some q /\
  displayAddress st' = displayAddress st /\ manual st' = manual st.
Proof.
intros Hf Hs. rewrite picker_step_reply, Hf in Hs. injection Hs as <-.
rewrite rg_effect_selected, rg_effect_display. unfold rg_effect.
destruct (deps_same _ _ _); destruct st; repeat split.
Qed.

(** C36: A message timer clears whatever message is shown: every
    5000 ms timer armed by a failed "my location" clears the message
    when it fires, including a later error's message shown since
    (nothing ties the timer to its message). *)
Theorem message_timer_clears_any_message st t dl st' :
  In dl (msg_timers st) -> dl <= t ->
  picker_step st (PWait t) = Some st' -> locationMessage st' = None.
Proof.
intros Hin Hle Hs. unfold picker_step, picker_step0 in Hs. destruct (t <? p_now st); [discriminate|].
injection Hs as <-. rewrite rg_effect_message. apply fire_timers_message.
destruct st; cbn. apply existsb_exists. exists dl. split; [exact Hin | apply Nat.leb_le, Hle].
Qed.

End Picker.

(** ** Points of the witnesses *)

Import Picker.

Definition pA : LatLngTuple := (153 # 10, 442 # 10)%Q.
Definition pB : LatLngTuple := (154 # 10, 443 # 10)%Q.

(** ** Witnesses *)

(** The driver clicks B while the lookup of the default centre (armed
    after the initial geolocation failed) is in flight; that lookup's
    answer names B. *)
Lemma stale_reply_names_selection_witness :
  exists st,
    picker_run picker_mount [PReply 0 (GeoReply (GeoFailed false)); PWait 500; PMapClick pB] = Some st /\
    exists st', picker_step st (PReply 1 (AddrReply (Some "A St, Sanaa"%string))) = Some st' /\
    displayAddress st' = before ","%char "A St, Sanaa" /\ selectedLocation st' = Some pB /\
    (exists dl, rg_timer st' = Some (dl, (pB, before ","%char "A St, Sanaa"))) /\
    (forall st0 k0 seen a0 st1, find_pproc k0 (p_procs st0) = Some (Lookup seen) -> seen <> EmptyString ->
       picker_step st0 (PReply k0 (AddrReply a0)) = Some st1 -> displayAddress st1 = displayAddress st0).
Proof.
eexists. split; [vm_compute; reflexivity|].
match goal with |- exists st', picker_step ?s _ = _ /\ _ =>
  eexists; split; [vm_compute; reflexivity|];
  apply (stale_reply_names_selection [PReply 0 (GeoReply (GeoFailed false)); PWait 500; PMapClick pB] s 1);
    vm_compute; first [reflexivity | discriminate]
end.
Defined.

(** The driver picks "Sanaa Mall" from the search while the position is
    pending; the position then arrives. *)
Lemma init_reply_overrides_selection_witness :
  exists st,
    picker_run picker_mount [POpenSearch; PSearchSelect "15.40" "44.30" "Sanaa Mall, Sanaa"] = Some st /\
    exists st', picker_step st (PReply 0 (GeoReply (Located pA))) = Some st' /\
    selectedLocation st' = Some pA /\ userPhysicalLocation st' = Some pA /\
    displayAddress st' = displayAddress st /\ manual st' = manual st.
Proof.
eexists. split; [vm_compute; reflexivity|].
match goal with |- exists st', picker_step ?s _ = _ /\ _ =>
  eexists; split; [vm_compute; reflexivity|];
  apply (init_reply_overrides_selection s 0); vm_compute; reflexivity
end.
Defined.

(** "My location" fails at 0 ms (timer at 5000 ms) and again at 4000 ms;
    the first timer clears the second message at 5000 ms. *)
Lemma message_timer_clears_any_message_witness :
  exists st,
    picker_run picker_fallback [PMyLocation; PReply 1 (GeoReply (GeoFailed true)); PWait 4000; PMyLocation;
                                PReply 3 (GeoReply (GeoFailed false))] = Some st /\
    locationMessage st = Some CouldNotGetLocation /\
    exists st', picker_step st (PWait 5000) = Some st' /\ locationMessage st' = None.
Proof.
eexists. split; [vm_compute; reflexivity|]. split; [vm_compute; reflexivity|].
match goal with |- exists st', picker_step ?s _ = _ /\ _ =>
  eexists; split; [vm_compute; reflexivity|];
  apply (message_timer_clears_any_message s 5000 5000); [vm_compute; auto | apply le_n | vm_compute; reflexivity]
end.
Defined.

Lemma search_name_survives_lookup_witness :
  exists st, picker_run picker_fallback
    [POpenSearch; PSearchSelect "15.35" "44.21" "Tahrir Square, Sanaa"; PWait 500;
     PReply 1 (AddrReply (Some "Tahrir St, Old City, Sanaa"%string))] = Some st /\
    selectedLocation st = Some (307 # 20, 4421 # 100)%Q /\ displayAddress st = before ","%char "Tahrir Square, Sanaa" /\
    currentAddress st = Some "Tahrir St, Old City, Sanaa"%string /\ isFetchingAddress st = false /\
    lookups st = [(307 # 20, 4421 # 100)%Q].
Proof.
apply (search_name_survives_lookup _ _ _ (307 # 20) (4421 # 100)); [reflexivity | reflexivity | discriminate].
Defined.

Lemma selection_geocoded_twice_witness :
  exists st, picker_run picker_fallback
               [PMapClick pB; PWait 500; PReply 1 (AddrReply (Some "B St, Sanaa"%string)); PWait 1000;
                PReply 2 (AddrReply (Some "B St, Sanaa"%string))] = Some st /\
    lookups st = [pB; pB] /\ displayAddress st = before ","%char "B St, Sanaa" /\
    currentAddress st = Some "B St, Sanaa"%string.
Proof. apply selection_geocoded_twice. discriminate. Defined.

(** ** SearchOverlay's query effect *)

Module Search.

(** SearchOverlay's state: [query], [results] (their display names),
    [isSearching], the effect's last query, its debounce timer, the
    searches in flight and the [searchLocation] calls made. *)
Record Overlay : Type := mkOverlay {
  s_now : nat;
  query : string;
  results : list string;
  isSearching : bool;
  s_deps : string;
  s_timer : option (nat * string);
  s_procs : list (nat * string);
  s_next : nat;
  searches : list string
}.

Inductive overlay_event : Type :=
| SType (q : string)                   (** [onChange]: [setQuery] *)
| SWait (t : nat)
| SReply (k : nat) (rs : list string).

(** The effect on [query]: the cleanup clears the timer; a query shorter
    than two characters after trimming clears the results and returns;
    otherwise the spinner starts and a 500 ms timer is armed. *)
Definition query_effect (st : Overlay) : Overlay :=
  let '(mkOverlay n q rs busy dq tm ps nx ss) := st in
  if String.eqb q dq then st
  else if String.length (trim q) <? 2 then mkOverlay n q [] busy q None ps nx ss
  else mkOverlay n q rs true q (Some (n + 500, q)) ps nx ss.

(** The timer's callback up to its await: [searchLocation(query)]. *)
Definition fire_search (t : nat) (st : Overlay) : Overlay :=
  let '(mkOverlay _ q rs busy dq tm ps nx ss) := st in
  match tm with
  | Some (dl, sq) =>
      if dl <=? t then mkOverlay t q rs busy dq None (ps ++ [(nx, sq)]) (S nx) (ss ++ [sq])
      else mkOverlay t q rs busy dq tm ps nx ss
  | None => mkOverlay t q rs busy dq tm ps nx ss
  end.

(** After the await: [setResults], [setIsSearching(false)]. *)
Definition overlay_step (st : Overlay) (e : overlay_event) : option Overlay :=
  let '(mkOverlay n q rs busy dq tm ps nx ss) := st in
  match e with
  | SType q' => Some (query_effect (mkOverlay n q' rs busy dq tm ps nx ss))
  | SWait t => if t <? n then None else Some (fire_search t st)
  | SReply k rs' =>
      if existsb (fun kp => Nat.eqb (fst kp) k) ps
      then Some (mkOverlay n q rs' false dq tm (List.filter (fun kp => negb (Nat.eqb (fst kp) k)) ps) nx ss)
      else None
  end.

Fixpoint overlay_run (st : Overlay) (es : list overlay_event) : option Overlay :=
  match es with
  | [] => Some st
  | e :: es' => match overlay_step st e with Some st' => overlay_run st' es' | None => None end
  end.

Definition overlay_mount : Overlay := mkOverlay 0 "" [] false "" None [] 0 [].

(** [SearchResultItem]: [nameParts = display_name.split(',')], the main
    name [nameParts[0]] and the address
    [nameParts.slice(1).join(',').trim()]. *)
Definition result_item (display_name : string) : string * string :=
  let parts := split ","%char display_name in
  (hd EmptyString parts, trim (join "," (tl parts))).

(** The list under the search box: the recent searches, flagged, while
    [query.length < 2] (not trimmed) and there are some, then the
    results. *)
Definition overlay_list (st : Overlay) (recents : list string) : list (bool * (string * string)) :=
  (if (String.length (query st) <? 2) && (0 <? length recents)
   then map (fun r => (true, result_item r)) recents else []) ++
  map (fun r => (false, result_item r)) (results st).

(** A [NominatimResult]: the coordinates as the geocoder's strings and
    the display name. *)
Record nominatim : Type := mkNominatim { n_lat : string; n_lon : string; n_display_name : string }.

(** A click on a result item: [handleSelect(result)] calls
    [onSelect(result)], which MapPicker wires to
    [handleSelectFromSearch]. *)
Definition item_click (r : nominatim) : picker_event :=
  PSearchSelect (n_lat r) (n_lon r) (n_display_name r).

(** C35: A search result's main name and address are its display name
    cut at the first comma, and together give it back: without a comma
    the name is the whole display name and the address is empty;
    otherwise the display name is the name, a comma and a rest whose
    trimmed text is the address. *)
Theorem result_item_parts dn :
  let '(main, addr) := result_item dn in
  (dn = main /\ addr = EmptyString) \/
  exists rest, dn = (main ++ "," ++ rest)%string /\ addr = trim rest.
Proof.
  unfold result_item. pose proof (join_split ","%char dn) as Hj.
  pose proof (split_not_nil ","%char dn) as Hn.
  destruct (split ","%char dn) as [|x [|y ys]]; [congruence| |]; cbn [hd tl].
  - left. split; [symmetry; exact Hj | reflexivity].
  - right. exists (join "," (y :: ys)). split; [|reflexivity].
    rewrite <- Hj at 1. apply join_cons. discriminate.
Qed.

(** A query of at least two characters that trims to fewer than two
    (say two spaces) hides the recent searches, by the untrimmed test
    of the list, and starts no search, by the trimmed test of the
    effect: the overlay lists nothing. *)
Theorem blank_query_hides_recents st q recents :
  2 <= String.length q -> String.length (trim q) < 2 -> q <> s_deps st ->
  exists st', overlay_step st (SType q) = Some st' /\ overlay_list st' recents = [] /\
              s_timer st' = None /\ searches st' = searches st.
Proof.
  intros Hl Ht Hd. destruct st as [n q0 rs busy dq tm ps nx ss]. cbn -[Nat.ltb] in Hd |- *.
  destruct (String.eqb q dq) eqn:E; [apply String.eqb_eq in E; contradiction|].
  replace (String.length (trim q) <? 2) with true by (symmetry; apply Nat.ltb_lt; exact Ht).
  eexists. split; [reflexivity|]. unfold overlay_list. cbn -[Nat.ltb].
  replace (String.length q <? 2) with false by (symmetry; apply Nat.ltb_ge; exact Hl).
  repeat split.
Qed.

(** A search started for a two-character query answers after the query
    was shortened: the early return of the effect does not cancel it,
    and its results are listed under the one-character query, while the
    spinner stops. *)
Example stale_results_after_shortening :
  on_some (overlay_run overlay_mount
             [SType "sa"; SWait 500; SType "s"; SReply 0 ["Sanaa, Yemen"%string]])
    (fun st => query st = "s"%string /\ isSearching st = false /\
               overlay_list st [] = [(false, ("Sanaa"%string, "Yemen"%string))]).
Proof. vm_compute. repeat split. Qed.

(** The spinner is on with no search scheduled and no result listed. *)
Definition stuck_spinner (st : Overlay) : Prop :=
  isSearching st = true /\ s_timer st = None /\ results st = [].

(** The inputs that leave a stuck spinner stuck: waits, and typed
    queries shorter than two characters after trimming. *)
Definition short_or_wait (e : overlay_event) : Prop :=
  match e with
  | SWait _ => True
  | SType q => String.length (trim q) < 2
  | SReply _ _ => False
  end.

Lemma stuck_spinner_step st e st' :
  stuck_spinner st -> short_or_wait e -> overlay_step st e = Some st' ->
  stuck_spinner st' /\ searches st' = searches st.
Proof.
destruct st as [n q rs busy dq tm ps nx ss]. unfold stuck_spinner; cbn.
intros (-> & -> & ->) He Hs. destruct e as [q'|t|k rs']; cbn in He, Hs.
- injection Hs as <-. unfold query_effect. cbn -[Nat.ltb trim String.length String.eqb].
  destruct (String.eqb q' dq); [repeat split|].
  destruct (Nat.leb (String.length (trim q')) 1) eqn:L; [repeat split | apply Nat.leb_gt in L; exfalso; lia].
- destruct n as [|n]; [|destruct (Nat.leb t n)]; try discriminate; injection Hs as <-; repeat split.
- contradiction.
Qed.

Lemma stuck_spinner_run st es st' :
  stuck_spinner st -> Forall short_or_wait es -> overlay_run st es = Some st' ->
  stuck_spinner st' /\ searches st' = searches st.
Proof.
revert st. induction es as [|e es IH]; intros st H Hes Hr; cbn in Hr; [injection Hr as <-; split; auto|].
inversion Hes as [|? ? He Hes']; subst.
destruct (overlay_step st e) as [s1|] eqn:E; [|discriminate].
destruct (stuck_spinner_step st e s1 H He E) as (H1 & S1). destruct (IH s1 H1 Hes' Hr) as (H2 & S2).
split; [exact H2 | congruence].
Qed.

(** C37: Shortening the query stops the search without stopping the
    spinner: from any state with the spinner on, typing a query shorter
    than two characters (other than the effect's last query) clears the
    timer and the results but never resets [isSearching]; whatever the
    overlay then waits and whatever short queries are typed, the
    spinner stays on, no result is listed and no search is made. *)
Theorem short_query_spinner_stuck st q es st' :
  isSearching st = true -> String.length (trim q) < 2 -> String.eqb q (s_deps st) = false ->
  Forall short_or_wait es -> overlay_run st (SType q :: es) = Some st' ->
  isSearching st' = true /\ results st' = [] /\ searches st' = searches st.
Proof.
intros Hb Hq Hd Hes Hr. cbn [overlay_run] in Hr.
destruct (overlay_step st (SType q)) as [s1|] eqn:E1; [|discriminate].
assert (H1 : stuck_spinner s1 /\ searches s1 = searches st).
{ destruct st as [n q0 rs busy dq tm ps nx ss]; cbn in Hb, Hd, E1 |- *. subst busy.
  injection E1 as <-. unfold query_effect. cbn -[Nat.ltb trim String.length String.eqb]. rewrite Hd. destruct (Nat.leb (String.length (trim q)) 1) eqn:L; [repeat split | apply Nat.leb_gt in L; exfalso; lia]. }
destruct H1 as [H1 S1]. destruct (stuck_spinner_run _ _ _ H1 Hes Hr) as ((B & _ & R) & S).
rewrite S, S1. repeat split; assumption.
Qed.

(** The specification's debounce for search: queries typed in quick
    succession give one search, for the last query, 500 ms after it. *)
Lemma search_debounced :
  on_some (overlay_run overlay_mount [SType "s"; SType "sa"; SWait 200; SType "san"; SWait 699; SWait 700])
    (fun st => searches st = ["san"%string] /\ isSearching st = true).
Proof. vm_compute. repeat split. Qed.

(** What the driver clicked is what the picker shows: choosing a result
    item whose coordinates are numeric closes the overlay, selects the
    result's coordinates and puts in the search bar the main name the
    item displayed ([display_name.split(',')[0]] in both places). *)
Lemma item_click_selects_shown_name st r a b :
  searchOpen st = true -> Js.parseFloat (n_lat r) = Js.JNum a -> Js.parseFloat (n_lon r) = Js.JNum b ->
  exists st', picker_step0 st (item_click r) = Some st' /\
    selectedLocation st' = Some (a, b) /\ searchOpen st' = false /\
    displayAddress st' = fst (result_item (n_display_name r)).
Proof.
  intros Ho Ha Hb. cbn [picker_step0 item_click]. rewrite Ho.
  unfold handleSelectFromSearch. rewrite Ha, Hb. eexists. split; [reflexivity|].
  destruct st; cbn. rewrite split_head. repeat split.
Qed.

End Search.

Lemma blank_query_hides_recents_witness :
  exists st', Search.overlay_step Search.overlay_mount (Search.SType "  ") = Some st' /\
              Search.overlay_list st' ["Sanaa, Yemen"%string] = [] /\
              Search.s_timer st' = None /\ Search.searches st' = Search.searches Search.overlay_mount.
Proof.
  apply Search.blank_query_hides_recents;
    [apply Nat.leb_le; reflexivity | apply Nat.ltb_lt; reflexivity | discriminate].
Defined.

Lemma short_query_spinner_stuck_witness :
  exists st st', Search.overlay_run Search.overlay_mount [Search.SType "sa"; Search.SWait 500] = Some st /\
    Search.overlay_run st [Search.SType "s"; Search.SWait 600] = Some st' /\
    Search.isSearching st' = true /\ Search.results st' = [] /\ Search.searches st' = Search.searches st.
Proof.
  do 2 eexists. split; [vm_compute; reflexivity|]. split; [vm_compute; reflexivity|].
  apply (Search.short_query_spinner_stuck _ "s" [Search.SWait 600]);
    [vm_compute; reflexivity | apply Nat.ltb_lt; reflexivity | reflexivity | repeat constructor | vm_compute; reflexivity].
Defined.
