(* ===== verification/PickerMap.v ===== *)
(** MapPicker's two marker effects (src/components/MapPicker.tsx, lines
    243-282): the blue dot at the user's physical location and the red
    pin at the selected location, as the commands they send to the map,
    run after every render of the picker model (LocationPicker.v).

    The dot's effect depends on [userPhysicalLocation], the pin's on
    [selectedLocation] (by identity, [sel_version]); both return at once
    while [mapRef.current] is unset.  The theorem: once the map exists,
    the pin is at the selected location and the dot at the user's
    location, each marker created at most once.  It rests on facts of
    the picker: the map, once there, stays; a selection keeps its value
    while its identity is unchanged; the map appears together with a
    new selection; and before it appears no location of the user is
    known and "my location" is disabled. *)

From Stdlib Require Import String List Bool Arith Lia QArith ZArith.
From S2P Require Import Prelude Types JsText LocationPicker.
Import ListNotations Picker.

Module PickerMap.

Record PinMap : Type := mkPinMap {
  pm_dot : option LatLngTuple;          (** [userLocationMarkerRef.current] *)
  pm_dot_adds : nat;                    (** [L.circleMarker(...).addTo] calls *)
  pm_pin : option LatLngTuple;          (** [selectedPinMarkerRef.current] *)
  pm_pin_adds : nat;                    (** [L.marker(...).addTo] calls *)
  pm_seen_user : option (option LatLngTuple);   (** the dot effect's last dependency *)
  pm_seen_sel : option nat                      (** the pin effect's last dependency *)
}.

Definition pm_init : PinMap := mkPinMap None 0 None 0 None None.

(** Equality of coordinates as the dependency check sees it. *)
Definition pt_eqb (a b : LatLngTuple) : bool :=
  Z.eqb (Qnum (fst a)) (Qnum (fst b)) && Pos.eqb (Qden (fst a)) (Qden (fst b)) &&
  Z.eqb (Qnum (snd a)) (Qnum (snd b)) && Pos.eqb (Qden (snd a)) (Qden (snd b)).

Definition opt_pt_eqb (a b : option LatLngTuple) : bool :=
  match a, b with
  | Some x, Some y => pt_eqb x y
  | None, None => true
  | _, _ => false
  end.

(** [if (mapRef.current && userPhysicalLocation)]: create the dot or
    move it. *)
Definition dot_effect (ready : bool) (user : option LatLngTuple) (m : PinMap) : PinMap :=
  match ready, user with
  | true, Some p =>
      let adds := match pm_dot m with None => S (pm_dot_adds m) | Some _ => pm_dot_adds m end in
      mkPinMap (Some p) adds (pm_pin m) (pm_pin_adds m) (pm_seen_user m) (pm_seen_sel m)
  | _, _ => m
  end.

(** [if (!mapRef.current) return]; move or create the pin at the
    selection, or remove it when there is none. *)
Definition pin_effect (ready : bool) (sel : option LatLngTuple) (m : PinMap) : PinMap :=
  if negb ready then m
  else match sel with
       | Some p =>
           let adds := match pm_pin m with None => S (pm_pin_adds m) | Some _ => pm_pin_adds m end in
           mkPinMap (pm_dot m) (pm_dot_adds m) (Some p) adds (pm_seen_user m) (pm_seen_sel m)
       | None => mkPinMap (pm_dot m) (pm_dot_adds m) None (pm_pin_adds m) (pm_seen_user m) (pm_seen_sel m)
       end.

(** After a render of [st]: each effect runs when its dependency
    changed (the dot's when the location's value changed: setting the
    same value again would only move the dot where it is). *)
Definition marker_effects (st : Picker) (m : PinMap) : PinMap :=
  let m1 := match pm_seen_user m with
            | Some u => if opt_pt_eqb u (userPhysicalLocation st) then m
                        else dot_effect (map_ready st) (userPhysicalLocation st) m
            | None => dot_effect (map_ready st) (userPhysicalLocation st) m
            end in
  let m2 := match pm_seen_sel m1 with
            | Some v => if Nat.eqb v (sel_version st) then m1
                        else pin_effect (map_ready st) (selectedLocation st) m1
            | None => pin_effect (map_ready st) (selectedLocation st) m1
            end in
  mkPinMap (pm_dot m2) (pm_dot_adds m2) (pm_pin m2) (pm_pin_adds m2)
           (Some (userPhysicalLocation st)) (Some (sel_version st)).

(** The picker with its markers over a sequence of events. *)
Fixpoint pm_run (st : Picker) (m : PinMap) (es : list picker_event) : option (Picker * PinMap) :=
  match es with
  | [] => Some (st, m)
  | e :: es' =>
      match picker_step st e with
      | Some st' => pm_run st' (marker_effects st' m) es'
      | None => None
      end
  end.

(** Before the map exists: no location of the user, "my location"
    disabled, and no [handleMyLocationClick] suspended. *)
Definition pre_map (st : Picker) : Prop :=
  map_ready st = false ->
  userPhysicalLocation st = None /\ isGettingLocation st = true /\
  Forall (fun kp => snd kp <> MyLocate) (p_procs st).

(** What one picker step does to the fields the markers read. *)
Definition step_frame (st st' : Picker) : Prop :=
  (map_ready st = true -> map_ready st' = true) /\
  (sel_version st' = sel_version st -> selectedLocation st' = selectedLocation st) /\
  (map_ready st = false -> map_ready st' = true -> sel_version st' <> sel_version st) /\
  ((map_ready st = true -> selectedLocation st <> None) ->
     map_ready st' = true -> selectedLocation st' <> None) /\
  (userPhysicalLocation st' = None -> userPhysicalLocation st = None) /\
  pre_map st'.

(** The markers agree with the picker state they were last run on:
    before the map exists there is none; once it does, the pin is at the
    selection and the dot at the user's location, each created once. *)
Definition marker_inv (st : Picker) (m : PinMap) : Prop :=
  pm_seen_user m = Some (userPhysicalLocation st) /\ pm_seen_sel m = Some (sel_version st) /\
  if map_ready st then
    pm_pin m = selectedLocation st /\ pm_pin_adds m = 1%nat /\
    pm_dot m = userPhysicalLocation st /\
    pm_dot_adds m = match userPhysicalLocation st with Some _ => 1%nat | None => 0%nat end
  else pm_pin m = None /\ pm_pin_adds m = 0%nat /\ pm_dot m = None /\ pm_dot_adds m = 0%nat.

(** ** Lemmas *)

Lemma rg_effect_keeps st :
  map_ready (rg_effect st) = map_ready st /\ selectedLocation (rg_effect st) = selectedLocation st /\
  sel_version (rg_effect st) = sel_version st /\
  userPhysicalLocation (rg_effect st) = userPhysicalLocation st /\
  isGettingLocation (rg_effect st) = isGettingLocation st /\ p_procs (rg_effect st) = p_procs st.
Proof.
  unfold rg_effect. destruct (deps_same _ _ _); [repeat split|].
  destruct st; cbn; destruct selectedLocation0; repeat split.
Qed.

Lemma find_pproc_some k ps p : find_pproc k ps = Some p -> exists kp, In kp ps /\ snd kp = p.
Proof.
  unfold find_pproc. destruct (find _ ps) as [kp|] eqn:E; [|discriminate]. cbn. intros H.
  injection H as <-. exists kp. split; [exact (proj1 (find_some _ _ E)) | reflexivity].
Qed.

Lemma no_mylocate k ps :
  Forall (fun kp => snd kp <> MyLocate) ps -> find_pproc k ps <> Some MyLocate.
Proof.
  intros H E. destruct (find_pproc_some _ _ _ E) as (kp & Hin & Hs).
  rewrite Forall_forall in H. exact (H kp Hin Hs).
Qed.

(** Closes the frame goals of a step once the states are computed. *)
Ltac frame_close :=
  unfold step_frame, pre_map; cbn;
  repeat split; intros;
  repeat match goal with H : ?x = false -> _, H' : ?x = false |- _ => specialize (H H') end;
  repeat match goal with H : _ /\ _ |- _ => destruct H end;
  try discriminate; try lia; try congruence;
  repeat (apply Forall_app; split); try (apply Forall_filter_keep; assumption);
  try (repeat constructor; discriminate); try tauto.

Lemma step0_frame st e st' : pre_map st -> picker_step0 st e = Some st' -> step_frame st st'.
Proof.
  intros Hpre Hs. destruct st as [n m sel v da u g msg ca f man so dp tm mt ps nx lk cf].
  unfold pre_map in Hpre; cbn in Hpre.
  destruct e as [k r|p| | |lat lon name| |t|];
    cbn -[find_pproc after_init_locate after_my_locate after_lookup handleSelectFromSearch fire_timers Nat.ltb] in Hs.
  - destruct (find_pproc k ps) as [[| |seen]|] eqn:Hf; destruct r as [g0|a]; try discriminate;
      injection Hs as <-.
    + unfold after_init_locate. destruct g0; frame_close.
    + destruct m; [unfold after_my_locate; destruct g0; frame_close|].
      exfalso. destruct (Hpre eq_refl) as (_ & _ & Hn). exact (no_mylocate k ps Hn Hf).
    + unfold after_lookup. destruct (String.eqb seen ""); frame_close.
  - destruct m; [injection Hs as <-; frame_close | discriminate].
  - injection Hs as <-. frame_close.
  - destruct so; [injection Hs as <-; frame_close | discriminate].
  - destruct so; [|discriminate]. unfold handleSelectFromSearch in Hs. cbn in Hs.
    destruct (Js.parseFloat lat), (Js.parseFloat lon); try discriminate. injection Hs as <-. frame_close.
  - destruct g; [discriminate|]. injection Hs as <-. frame_close.
  - destruct (t <? n); [discriminate|]. injection Hs as <-. unfold fire_timers. cbn.
    destruct (existsb _ mt); cbn; destruct tm as [[dl [q seen]]|]; cbn; try destruct (dl <=? t); frame_close.
  - destruct sel as [q|]; [|discriminate]. destruct f; [discriminate|]. injection Hs as <-. frame_close.
Qed.

Lemma step_frame_rg st st0 : step_frame st st0 -> step_frame st (rg_effect st0).
Proof.
  destruct (rg_effect_keeps st0) as (E1 & E2 & E3 & E4 & E5 & E6).
  unfold step_frame, pre_map. rewrite E1, E2, E3, E4, E5, E6. exact id.
Qed.

Lemma step_frame_ok st e st' : pre_map st -> picker_step st e = Some st' -> step_frame st st'.
Proof.
  intros Hpre Hs. unfold picker_step in Hs. destruct (picker_step0 st e) as [s0|] eqn:E; [|discriminate].
  injection Hs as <-. apply step_frame_rg, (step0_frame st e), E. exact Hpre.
Qed.

Lemma pt_eqb_true a b : pt_eqb a b = true -> a = b.
Proof.
  destruct a as [[an ad] [bn bd]], b as [[cn cd] [dn dd]]. unfold pt_eqb. cbn.
  rewrite !andb_true_iff, !Z.eqb_eq, !Pos.eqb_eq. intros (((-> & ->) & ->) & ->). reflexivity.
Qed.

(** One render's marker effects keep the markers in step with the
    picker. *)
Lemma effects_inv st st' m :
  pre_map st -> (map_ready st = true -> selectedLocation st <> None) -> step_frame st st' ->
  marker_inv st m -> marker_inv st' (marker_effects st' m).
Proof.
  intros Hpre Hsel (F1 & F2 & F3 & F4 & F5 & F6) (Su & Ss & Hm).
  destruct m as [d da p pa su ss]; cbn in Su, Ss, Hm; subst su ss.
  unfold marker_inv, marker_effects; cbn [pm_seen_user pm_seen_sel].
  specialize (F4 Hsel). unfold pre_map in *.
  destruct st as [n m sel v dsp u g msg ca f man so dp tm mt ps nx lk cf],
           st' as [n' m' sel' v' dsp' u' g' msg' ca' f' man' so' dp' tm' mt' ps' nx' lk' cf'];
    cbn in *.
  destruct m, m'; [| specialize (F1 eq_refl); discriminate | |];
    destruct u as [x|], u' as [y|]; cbn;
    try (destruct (pt_eqb x y) eqn:Exy; [apply pt_eqb_true in Exy; subst y|]); cbn;
    destruct (Nat.eqb v v') eqn:Ev; try apply Nat.eqb_eq in Ev; cbn;
    destruct sel' as [q|]; cbn;
    destruct sel; intuition (subst; cbn;
      repeat match goal with H : ?a = ?a -> _ |- _ => specialize (H eq_refl) end; try contradiction; try congruence).
Qed.

Lemma pm_run_inv st m es st' m' :
  pre_map st -> (map_ready st = true -> selectedLocation st <> None) -> marker_inv st m ->
  pm_run st m es = Some (st', m') ->
  marker_inv st' m' /\ (map_ready st' = true -> selectedLocation st' <> None).
Proof.
  revert st m. induction es as [|e es IH]; intros st m Hpre Hsel Hm Hr; cbn in Hr.
  - injection Hr as <- <-. split; assumption.
  - destruct (picker_step st e) as [s1|] eqn:E; [|discriminate].
    pose proof (step_frame_ok st e s1 Hpre E) as F.
    pose proof (effects_inv st s1 m Hpre Hsel F Hm) as Hm1.
    destruct F as (_ & _ & _ & F4 & _ & F6). exact (IH s1 _ F6 (F4 Hsel) Hm1 Hr).
Qed.

(** ** Properties *)

(** C30: The map's markers follow the picker: after the mount's render
    and any sequence of events (replies of the location, the lookups in
    any order, clicks, searches, "my location", waits), while the map
    is not there no marker exists, and once it is, the red pin is at
    the selected location (which is never empty) and was created
    exactly once, and the blue dot is at the user's physical location,
    created at most once (moved, never re-created). *)
Theorem markers_follow_picker es st m :
  pm_run picker_mount (marker_effects picker_mount pm_init) es = Some (st, m) ->
  if map_ready st then
    pm_pin m = selectedLocation st /\ selectedLocation st <> None /\ pm_pin_adds m = 1%nat /\
    pm_dot m = userPhysicalLocation st /\ (pm_dot_adds m <= 1)%nat
  else pm_pin m = None /\ pm_dot m = None.
Proof.
  intros Hr.
  assert (H0 : pre_map picker_mount) by (intros _; vm_compute; repeat constructor; discriminate).
  assert (H1 : map_ready picker_mount = true -> selectedLocation picker_mount <> None)
    by (vm_compute; discriminate).
  assert (H2 : marker_inv picker_mount (marker_effects picker_mount pm_init)) by (vm_compute; tauto).
  destruct (pm_run_inv _ _ es st m H0 H1 H2 Hr) as ((_ & _ & Hm) & Hs).
  destruct (map_ready st); [|tauto].
  destruct Hm as (P & PA & D & DA). rewrite DA.
  repeat split; auto. destruct (userPhysicalLocation st); lia.
Qed.

End PickerMap.

(** Witness of [markers_follow_picker]: the position arrives, the map
    appears, the driver taps the map, then asks for "my location",
    which answers with a new position. *)
Lemma markers_follow_picker_witness :
  exists st m,
    PickerMap.pm_run picker_mount (PickerMap.marker_effects picker_mount PickerMap.pm_init)
      [PReply 0 (GeoReply (Located (1535 # 100, 442 # 10))); PMapClick (1536 # 100, 4421 # 100);
       PMyLocation; PReply 1 (GeoReply (Located (1537 # 100, 4422 # 100)))] = Some (st, m) /\
    map_ready st = true /\
    (if map_ready st then
       PickerMap.pm_pin m = selectedLocation st /\ selectedLocation st <> None /\
       PickerMap.pm_pin_adds m = 1%nat /\
       PickerMap.pm_dot m = userPhysicalLocation st /\ (PickerMap.pm_dot_adds m <= 1)%nat
     else PickerMap.pm_pin m = None /\ PickerMap.pm_dot m = None).
Proof.
  do 2 eexists. split; [vm_compute; reflexivity|]. split; [vm_compute; reflexivity|].
  apply (PickerMap.markers_follow_picker
           [PReply 0 (GeoReply (Located (1535 # 100, 442 # 10))); PMapClick (1536 # 100, 4421 # 100);
            PMyLocation; PReply 1 (GeoReply (Located (1537 # 100, 4422 # 100)))]).
  vm_compute; reflexivity.
Defined.
