(* ===== verification/TripStateMachine.v ===== *)
(** The trip lifecycle.

    [Spec]: the abstract state machine of the specification (section 4.1
    of the spec): the four legal edges pending -> accepted -> arrived ->
    in_progress -> completed, as a decidable edge table and a step
    relation, with reachability, determinism and termination.

    [Code]: what the driver's screens actually offer at each status.  The
    dashboard accepts a pending request (DriverApp.tsx, [handleAccept]);
    ActiveTripView.tsx shows one slider per status and, once the last
    slider opened the summary, a confirm button that completes the trip.
    [offered_refines] shows that every status change these buttons
    request is a legal edge of the abstract machine, and
    [offered_complete] that every legal edge out of an active status is
    reachable from the buttons. *)

From Stdlib Require Import List Bool Arith Lia.
From S2P Require Import Prelude Types.
Import ListNotations.

Module Spec.

(** The legal edges of the lifecycle (spec 4.1). *)
Definition legal_edge (s s' : status) : bool :=
  match s, s' with
  | Pending, Accepted | Accepted, Arrived | Arrived, InProgress
  | InProgress, Completed => true
  | _, _ => false
  end.

Inductive tstep : status -> status -> Prop :=
| tstep_edge s s' : legal_edge s s' = true -> tstep s s'.

(** Position along the lifecycle. *)
Definition rank (s : status) : nat :=
  match s with
  | Pending => 0 | Accepted => 1 | Arrived => 2 | InProgress => 3
  | Completed => 4
  end.

Definition reachable (s : status) : Prop := star tstep Pending s.

(** The active trip of the glossary: a booking in accepted, arrived or
    in_progress. *)
Definition active_phase (s : status) : bool :=
  (1 <=? rank s) && (rank s <=? 3).

Lemma legal_edge_rank s s' : legal_edge s s' = true -> rank s' = S (rank s).
Proof. destruct s, s'; simpl; congruence. Qed.

Lemma legal_edge_functional s a b :
  legal_edge s a = true -> legal_edge s b = true -> a = b.
Proof. destruct s, a, b; simpl; congruence. Qed.

Lemma tstep_rank s s' : tstep s s' -> rank s' = S (rank s).
Proof. intros []. apply legal_edge_rank; assumption. Qed.

(** Every run of the lifecycle is as long as the ranks it climbs: no
    run is longer than four transitions. *)
Theorem lifecycle_steps_bounded n s s' :
  starn tstep n s s' -> n = rank s' - rank s /\ n <= 4.
Proof.
  intros H. pose proof (starn_measure tstep rank n s s' tstep_rank H) as E.
  assert (rank s' <= 4) by (destruct s'; simpl; lia). lia.
Qed.

(** The lifecycle is deterministic: each status has at most one
    successor. *)
Theorem tstep_deterministic s s1 s2 : tstep s s1 -> tstep s s2 -> s1 = s2.
Proof.
  intros H1 H2. inv H1. inv H2. eapply legal_edge_functional; eassumption.
Qed.

(** [completed] is terminal. *)
Theorem completed_terminal s : ~ tstep Completed s.
Proof. intros H; inv H. destruct s; discriminate. Qed.

Lemma reachable_all s : reachable s.
Proof.
  unfold reachable.
  assert (H1 : tstep Pending Accepted) by (constructor; reflexivity).
  assert (H2 : tstep Accepted Arrived) by (constructor; reflexivity).
  assert (H3 : tstep Arrived InProgress) by (constructor; reflexivity).
  assert (H4 : tstep InProgress Completed) by (constructor; reflexivity).
  destruct s; eauto 10 using star_step, star_refl.
Qed.

(** The order in which a trip visits its statuses: [s] precedes [s']
    in some run iff its rank is not greater. *)
Theorem star_tstep_iff s s' : star tstep s s' <-> rank s <= rank s'.
Proof.
  split.
  - intros [n Hn]. pose proof (starn_measure tstep rank n s s' tstep_rank Hn). lia.
  - assert (H1 : tstep Pending Accepted) by (constructor; reflexivity).
    assert (H2 : tstep Accepted Arrived) by (constructor; reflexivity).
    assert (H3 : tstep Arrived InProgress) by (constructor; reflexivity).
    assert (H4 : tstep InProgress Completed) by (constructor; reflexivity).
    destruct s, s'; simpl; intros; try lia;
      eauto 10 using star_step, star_refl.
Qed.

End Spec.

Module Code.

(** ['accepted', 'arrived', 'in_progress'].includes(b.status)
    (DriverApp.tsx, [activeTrip]). *)
Definition is_active_status (s : status) : bool :=
  match s with
  | Accepted | Arrived | InProgress => true
  | Pending | Completed => false
  end.

Lemma is_active_status_spec s : is_active_status s = Spec.active_phase s.
Proof. destruct s; reflexivity. Qed.

(** The controls a driver can press: accept on a pending request card,
    the three sliders of the bottom panel, and the summary's confirm. *)
Inductive trip_button : Type :=
| BtnAccept
| SlideArrived
| SlideStart
| SlideEnd
| ConfirmCompleted.

(** The buttons shown for a booking of status [s] with the summary
    overlay [summary] (ActiveTripView.tsx bottom panel and summary
    overlay; the accept button of a pending request card). *)
Definition offered (s : status) (summary : bool) : list trip_button :=
  match s with
  | Pending => [BtnAccept]
  | Accepted => [SlideArrived]
  | Arrived => [SlideStart]
  | InProgress => [SlideEnd]
  | Completed => []
  end ++ (if summary then [ConfirmCompleted] else []).

(** The status each button sends to [updateBookingStatus]:
    [handleAccept] sends accepted, the first two sliders go through
    [handleSwipeComplete], the last slider only opens the summary, and
    the confirm sends completed. *)
Definition button_request (b : trip_button) : option status :=
  match b with
  | BtnAccept => Some Accepted
  | SlideArrived => Some Arrived
  | SlideStart => Some InProgress
  | SlideEnd => None
  | ConfirmCompleted => Some Completed
  end.

(** The summary overlay is only open during the in_progress phase. *)
Definition summary_ok (s : status) (summary : bool) : bool :=
  negb summary || status_eqb s InProgress.


(** While the summary overlay is only open in the in_progress phase,
    every status a shown button sends is a legal successor of the
    booking's current status. *)
Theorem offered_refines s summary b s' :
  summary_ok s summary = true ->
  In b (offered s summary) ->
  button_request b = Some s' ->
  Spec.tstep s s'.
Proof.
  intros Hok Hin Hreq. constructor.
  destruct s, summary; simpl in Hok, Hin; try discriminate;
    repeat destruct Hin as [<- | Hin]; try contradiction;
    simpl in Hreq; inv Hreq; reflexivity.
Qed.

(** Every legal edge is offered: for each abstract transition some
    shown button (with the summary open or closed) requests it. *)
Theorem offered_complete s s' :
  Spec.tstep s s' ->
  exists summary b, summary_ok s summary = true /\
    In b (offered s summary) /\ button_request b = Some s'.
Proof.
  intros H; inv H.
  destruct s, s'; simpl in *; try discriminate;
    first [ solve [exists false; eexists; simpl; eauto]
          | exists true, ConfirmCompleted; simpl; auto ].
Qed.

(** C7: Refinement of the abstract lifecycle by the screens: the status
    changes the driver's buttons request, from a booking of status [s]
    with the summary overlay open only in the in_progress phase, are
    exactly the legal edges of the specification's lifecycle out of
    [s]. *)
Theorem buttons_request_exactly_legal_edges s s' :
  (exists summary b, summary_ok s summary = true /\
     In b (offered s summary) /\ button_request b = Some s') <->
  Spec.tstep s s'.
Proof.
  split.
  - intros (summary & b & Hok & Hin & Hreq). exact (offered_refines s summary b s' Hok Hin Hreq).
  - apply offered_complete.
Qed.

(** Where each button can appear. *)
Lemma offered_inv b s summary :
  In b (offered s summary) ->
  match b with
  | BtnAccept => s = Pending
  | SlideArrived => s = Accepted
  | SlideStart => s = Arrived
  | SlideEnd => s = InProgress
  | ConfirmCompleted => summary = true
  end.
Proof.
  destruct s, summary; simpl; intros H;
    repeat destruct H as [<- | H]; try contradiction; reflexivity.
Qed.

(** The summary overlay is opened by the last slider, which sends no
    status itself. *)
Lemma summary_reached_by_slide_end :
  In SlideEnd (offered InProgress false) /\ button_request SlideEnd = None.
Proof. split; [left|]; reflexivity. Qed.

End Code.

(** Witnesses of the lifecycle theorems at concrete runs. *)

Lemma lifecycle_steps_bounded_witness :
  starn Spec.tstep 4 Pending Completed /\ 4 = Spec.rank Completed - Spec.rank Pending /\ 4 <= 4.
Proof.
  assert (H : starn Spec.tstep 4 Pending Completed).
  { apply (starn_step _ 3 Pending Accepted); [constructor; reflexivity|].
    apply (starn_step _ 2 Accepted Arrived); [constructor; reflexivity|].
    apply (starn_step _ 1 Arrived InProgress); [constructor; reflexivity|].
    apply (starn_step _ 0 InProgress Completed); [constructor; reflexivity|].
    apply starn_refl. }
  split; [exact H|]. exact (Spec.lifecycle_steps_bounded 4 Pending Completed H).
Defined.

Lemma tstep_deterministic_witness :
  Spec.tstep Arrived InProgress /\ InProgress = InProgress.
Proof.
  assert (H : Spec.tstep Arrived InProgress) by (constructor; reflexivity).
  split; [exact H|]. exact (Spec.tstep_deterministic Arrived InProgress InProgress H H).
Defined.
