(* ===== verification/Backend.v ===== *)
(** The services the driver app calls, which are not under src/ and are
    modelled from the specification (section 4.5 and 6):

    - [BookingDb]: what [dbService.updateBookingStatus(id, status,
      driverId)] promises about the server's booking set: the order and
      the ids of the bookings are kept, the booking with that id gets the
      new status (the store may stamp other fields of it, such as the
      driver), and every other booking is untouched.  The app's theorems
      are proved against this class; [firestore_db] is an instance.
    - [Background]: the state of [driverBackgroundService] (online flag,
      the trip status it reports, the last published position) and the
      location document that [subscribeToDriverLocation] delivers. *)

From Stdlib Require Import String List Bool QArith.
From S2P Require Import Prelude Types.
Import ListNotations.

Class BookingDb : Type := {
  db_update_status : string -> status -> list Booking -> list Booking;
  db_update_spec : forall id s l,
    Forall2 (fun b b' => b_id b' = b_id b /\
               (if String.eqb (b_id b) id then b_status b' = s else b' = b))
            l (db_update_status id s l)
}.

(** The server write of [updateBookingStatus]: a status update keyed by
    id over the whole collection. *)
Definition firestore_update (id : string) (s : status) (l : list Booking) : list Booking :=
  map (fun b => if String.eqb (b_id b) id then with_status b s else b) l.

Lemma firestore_update_spec id s l :
  Forall2 (fun b b' => b_id b' = b_id b /\
             (if String.eqb (b_id b) id then b_status b' = s else b' = b))
          l (firestore_update id s l).
Proof.
  induction l as [|b l IH]; simpl; constructor; auto.
  destruct (String.eqb (b_id b) id); simpl; auto.
Qed.

#[export] Instance firestore_db : BookingDb :=
  {| db_update_status := firestore_update; db_update_spec := firestore_update_spec |}.

(** State of [driverBackgroundService]. *)
Record Background : Type := mkBackground {
  bg_online : bool;                      (** [isOnline] *)
  bg_trip_status : option status;        (** [setActiveTripStatus] *)
  bg_position : option LatLngTuple       (** last published [driver_lat],
                                             [driver_lng], if any *)
}.

Definition goOnline (g : Background) : Background :=
  {| bg_online := true; bg_trip_status := bg_trip_status g;
     bg_position := bg_position g |}.

Definition goOffline (g : Background) : Background :=
  {| bg_online := false; bg_trip_status := bg_trip_status g;
     bg_position := bg_position g |}.

Definition setActiveTripStatus (s : option status) (g : Background) : Background :=
  {| bg_online := bg_online g; bg_trip_status := s;
     bg_position := bg_position g |}.

(** ** Consequences of the [BookingDb] laws used by the app *)

Section DbFacts.
Context `{BookingDb}.

Lemma db_update_ids id s l : map b_id (db_update_status id s l) = map b_id l.
Proof.
  pose proof (db_update_spec id s l) as F.
  induction F as [|b b' l l' [Hid _] _ IH]; simpl; congruence.
Qed.

(** Every booking of the result comes from one of the input, with the
    same id, and it is either unchanged or it is the one updated. *)
Lemma db_update_in id s l b' :
  In b' (db_update_status id s l) ->
  exists b, In b l /\ b_id b' = b_id b /\
    ((b_id b = id /\ b_status b' = s) \/ (b_id b <> id /\ b' = b)).
Proof.
  pose proof (db_update_spec id s l) as F. revert b'.
  induction F as [|b b1 l l1 [Hid Hb] _ IH]; simpl; [tauto|].
  intros b' [<- | Hin].
  - exists b. split; [left; reflexivity|]. split; [exact Hid|].
    destruct (String.eqb_spec (b_id b) id); [left | right]; auto.
  - destruct (IH b' Hin) as (c & Hc & Hcid & Hcase).
    exists c. auto.
Qed.

(** The updated booking of the input has its counterpart in the output. *)
Lemma db_update_hit id s l b :
  In b l -> b_id b = id ->
  exists b', In b' (db_update_status id s l) /\ b_id b' = id /\ b_status b' = s.
Proof.
  pose proof (db_update_spec id s l) as F. revert b.
  induction F as [|c c' l l' [Hid Hc] _ IH]; simpl; [tauto|].
  intros b [<- | Hin] Hb.
  - exists c'. rewrite Hb, String.eqb_refl in Hc. split; [left|]; auto.
    split; congruence.
  - destruct (IH b Hin Hb) as (b' & ? & ? & ?). exists b'. auto.
Qed.
(** A booking with another id passes through the write unchanged. *)
Lemma db_update_other id s l b :
  In b l -> b_id b <> id -> In b (db_update_status id s l).
Proof.
  pose proof (db_update_spec id s l) as F. revert b.
  induction F as [|c c' l l' [Hid Hc] _ IH]; simpl; [tauto|].
  intros b [<- | Hin] Hb.
  - left. apply String.eqb_neq in Hb. rewrite Hb in Hc. exact Hc.
  - right. apply IH; assumption.
Qed.
End DbFacts.
