(* ===== verification/DriverApp.v ===== *)
(** The driver app controller (src/components/DriverApp.tsx, component
    [DriverApp], with the parts of ActiveTripView.tsx that talk to it).

    State: [View] is DriverApp's [useState] ([allBookings],
    [tripHistory], [isOnline], [driverPosition]); [TripView] is the
    mounted ActiveTripView (its React [key], the [trip.status] its
    effect last saw, [isSummaryVisible]); [Env] holds the services (the
    server's booking set, localStorage's [driver_trip_history], the
    background service); [requests] are the calls of
    [updateBookingStatus] that are in flight, each with the closure it
    captured ([allBookings], [tripHistory] at the time of the click).

    Events: the two subscription callbacks, the user's clicks (go
    online/offline, accept, decline, the trip buttons), and for each
    request its server write ([DbWrite]) and the return of its [await]
    ([DbReturn]).  After every event the app re-renders: [reconcile]
    mounts, re-keys or unmounts ActiveTripView and runs its
    [setActiveTripStatus(trip.status)] effect.  [step] is partial: it
    returns [None] when the event cannot happen (a button that is not on
    screen, a request that is not in flight). *)

From Stdlib Require Import String List Bool QArith.
From stdpp Require Import base gmap strings list.
From S2P Require Import Prelude Types TripStateMachine Backend.
Import TripStateMachine.Code.
Local Open Scope driver_scope.

#[export] Instance status_eq_decision : EqDecision status.
Proof. solve_decision. Defined.
#[export] Instance trip_button_eq_decision : EqDecision trip_button.
Proof. solve_decision. Defined.

Module App.

(** An in-flight call of [updateBookingStatus(id, status)]. *)
Record request : Type := mkRequest {
rq_id : string;
rq_status : status;
rq_bookings : list Booking;   (** [allBookings] of the handler's closure *)
rq_history : list Booking;    (** [tripHistory] of the handler's closure *)
rq_written : bool             (** the server write has happened *)
}.

Record View : Type := mkView {
allBookings : list Booking;
tripHistory : list Booking;
isOnline : bool;
driverPosition : option LatLngTuple
}.

Record TripView : Type := mkTripView {
tv_key : string;        (** [key={activeTrip.id}] *)
tv_status : status;     (** [trip.status] the mount effect last ran for *)
tv_summary : bool       (** [isSummaryVisible] *)
}.

Record Env : Type := mkEnv {
server : list Booking;                   (** the booking collection *)
stored_history : option (list Booking);  (** [localStorage[DRIVER_HISTORY_KEY]] *)
background : Background                  (** [driverBackgroundService] *)
}.

Record App : Type := mkApp {
view : View;
trip_view : option TripView;
env : Env;
requests : gmap nat request;
next_request : nat
}.

Inductive event : Type :=
| OnBookings                  (** [subscribeToBookings] callback *)
| OnDriverLocation            (** [subscribeToDriverLocation] callback *)
| ToggleOnline                (** the GO button *)
| Accept (id : string)        (** accept on a request card *)
| Decline (id : string)       (** decline on a request card *)
| Press (b : trip_button)     (** a slider or the summary's confirm *)
| DbWrite (k : nat)           (** the server applies request [k] *)
| DbReturn (k : nat)          (** the [await] of request [k] returns *)
| DbFail (k : nat).           (** request [k]'s write is rejected: the [await]
                                  throws and nothing after it runs *)

Section Controller.
Context `{Db : BookingDb}.

(** [activeTrip]: the first booking with an active status. *)
Definition isActive (b : Booking) : bool := is_active_status (b_status b).

Definition activeTrip (all : list Booking) : option Booking := find isActive all.

(** [pendingRequests]. *)
Definition isPending (b : Booking) : bool := status_eqb (b_status b) Pending.

Definition pendingRequests (all : list Booking) : list Booking :=
List.filter isPending all.

(** Field updates. *)
Definition set_view (v : View) (st : App) : App :=
mkApp v (trip_view st) (env st) (requests st) (next_request st).
Definition set_trip_view (tv : option TripView) (st : App) : App :=
mkApp (view st) tv (env st) (requests st) (next_request st).
Definition set_env (e : Env) (st : App) : App :=
mkApp (view st) (trip_view st) e (requests st) (next_request st).
Definition set_requests (rs : gmap nat request) (st : App) : App :=
mkApp (view st) (trip_view st) (env st) rs (next_request st).
Definition map_background (f : Background -> Background) (st : App) : App :=
set_env (mkEnv (server (env st)) (stored_history (env st)) (f (background (env st)))) st.

(** Calling [updateBookingStatus(id, status)]: the request starts,
  capturing the handler's [allBookings] and [tripHistory]. *)
Definition issue (id : string) (s : status) (st : App) : App :=
let r := mkRequest id s (allBookings (view st)) (tripHistory (view st)) false in
mkApp (view st) (trip_view st) (env st)
      (<[next_request st := r]> (requests st)) (S (next_request st)).

(** The server write [dbService.updateBookingStatus(id, status, ...)]. *)
Definition db_write (r : request) (st : App) : App :=
set_env (mkEnv (db_update_status (rq_id r) (rq_status r) (server (env st)))
               (stored_history (env st)) (background (env st))) st.

(** What runs after the [await]: on completion the trip, looked up in
  the captured [allBookings], is put at the front of the captured
  history, which is shown and stored; the background service's trip
  status is cleared on completion and set otherwise. *)
Definition after_update (r : request) (st : App) : App :=
if status_eqb (rq_status r) Completed then
  let st1 :=
    match find (fun b => String.eqb (b_id b) (rq_id r)) (rq_bookings r) with
    | Some trip =>
        let newHistory := with_status trip Completed :: rq_history r in
        let v := view st in
        set_env (mkEnv (server (env st)) (Some newHistory) (background (env st)))
          (set_view (mkView (allBookings v) newHistory (isOnline v) (driverPosition v)) st)
    | None => st
    end in
  map_background (setActiveTripStatus None) st1
else map_background (setActiveTripStatus (Some (rq_status r))) st.

(** [handleAccept]: ignored while a trip is active. *)
Definition handleAccept (id : string) (st : App) : App :=
match activeTrip (allBookings (view st)) with
| Some _ => st
| None => issue id Accepted st
end.

(** [handleTripUpdate]: sends the new status of the active trip. *)
Definition handleTripUpdate (s : status) (st : App) : App :=
match activeTrip (allBookings (view st)) with
| Some t => issue (b_id t) s st
| None => st
end.

(** [handleSwipeComplete] (ActiveTripView.tsx). *)
Definition handleSwipeComplete (s : status) (st : App) : App :=
handleTripUpdate s (map_background (setActiveTripStatus (Some s)) st).

(** [handleToggleOnline]. *)
Definition handleToggleOnline (st : App) : App :=
if isOnline (view st) then map_background goOffline st
else map_background goOnline st.

(** The bookings callback: the view is replaced by the server's set and
  the history is reloaded from storage. *)
Definition onBookings (st : App) : App :=
let v := view st in
set_view (mkView (server (env st)) (stored_history (env st) ?? [])
                 (isOnline v) (driverPosition v)) st.

(** [if (data.driver_lat)]: a latitude of 0 is falsy in JS. *)
Definition lat_truthy (p : option LatLngTuple) : bool :=
match p with
| Some (lat, _) => negb (Qeq_bool lat 0)
| None => false
end.

(** The driver-location callback. *)
Definition onDriverLocation (st : App) : App :=
let v := view st in
let g := background (env st) in
set_view (mkView (allBookings v) (tripHistory v) (bg_online g)
                 (if lat_truthy (bg_position g) then bg_position g
                  else driverPosition v)) st.

(** The effect of pressing a trip button. *)
Definition press (b : trip_button) (st : App) : App :=
match b with
| SlideArrived => handleSwipeComplete Arrived st
| SlideStart => handleSwipeComplete InProgress st
| SlideEnd =>
    match trip_view st with
    | Some tv => set_trip_view (Some (mkTripView (tv_key tv) (tv_status tv) true)) st
    | None => st
    end
| ConfirmCompleted => handleTripUpdate Completed st
| BtnAccept => st
end.

(** Render: which screen is mounted, and ActiveTripView's effect
  [setActiveTripStatus(trip.status)] on mount and on status change. *)
Definition reconcile (st : App) : App :=
match activeTrip (allBookings (view st)) with
| None => set_trip_view None st
| Some t =>
    let mount := map_background (setActiveTripStatus (Some (b_status t)))
                   (set_trip_view (Some (mkTripView (b_id t) (b_status t) false)) st) in
    match trip_view st with
    | Some tv =>
        if String.eqb (tv_key tv) (b_id t) then
          if status_eqb (tv_status tv) (b_status t) then st
          else map_background (setActiveTripStatus (Some (b_status t)))
                 (set_trip_view (Some (mkTripView (tv_key tv) (b_status t) (tv_summary tv))) st)
        else mount
    | None => mount
    end
end.

(** The dashboard (with its request cards and GO button) is on screen
  when no trip is active; request cards only when online. *)
Definition dashboard_shown (st : App) : bool :=
match activeTrip (allBookings (view st)) with None => true | Some _ => false end.

Definition card_shown (id : string) (st : App) : bool :=
dashboard_shown st && isOnline (view st) &&
existsb (fun b => String.eqb (b_id b) id) (pendingRequests (allBookings (view st))).

(** A trip button is on screen when ActiveTripView shows it. *)
Definition button_shown (b : trip_button) (st : App) : bool :=
match trip_view st, activeTrip (allBookings (view st)) with
| Some tv, Some t => bool_decide (b ∈ offered (b_status t) (tv_summary tv))
| _, _ => false
end.

Definition step0 (st : App) (e : event) : option App :=
match e with
| OnBookings => Some (onBookings st)
| OnDriverLocation => Some (onDriverLocation st)
| ToggleOnline => if dashboard_shown st then Some (handleToggleOnline st) else None
| Accept id => if card_shown id st then Some (handleAccept id st) else None
| Decline id => if card_shown id st then Some st else None
| Press b => if button_shown b st then Some (press b st) else None
| DbWrite k =>
    match requests st !! k with
    | Some r =>
        if rq_written r then None
        else Some (set_requests (<[k := mkRequest (rq_id r) (rq_status r) (rq_bookings r)
                                             (rq_history r) true]> (requests st))
                                (db_write r st))
    | None => None
    end
| DbReturn k =>
    match requests st !! k with
    | Some r =>
        if rq_written r then Some (after_update r (set_requests (delete k (requests st)) st))
        else None
    | None => None
    end
| DbFail k =>
    match requests st !! k with
    | Some r => if rq_written r then None else Some (set_requests (delete k (requests st)) st)
    | None => None
    end
end.

Definition step (st : App) (e : event) : option App :=
match step0 st e with
| Some st' => Some (reconcile st')
| None => None
end.

(** Running a sequence of events. *)
Fixpoint run (st : App) (es : list event) : option App :=
match es with
| [] => Some st
| e :: es' => match step st e with Some st' => run st' es' | None => None end
end.

(** ** Structural lemmas *)

Lemma map_background_view f st : view (map_background f st) = view st.
Proof. reflexivity. Qed.
Lemma map_background_server f st : server (env (map_background f st)) = server (env st).
Proof. reflexivity. Qed.
Lemma map_background_requests f st : requests (map_background f st) = requests st.
Proof. reflexivity. Qed.
Lemma map_background_trip_view f st : trip_view (map_background f st) = trip_view st.
Proof. reflexivity. Qed.
Lemma map_background_next f st : next_request (map_background f st) = next_request st.
Proof. reflexivity. Qed.
Lemma map_background_history f st :
stored_history (env (map_background f st)) = stored_history (env st).
Proof. reflexivity. Qed.

(** Rendering only touches the mounted trip view and the background
  service's trip status. *)
Lemma reconcile_keeps st :
view (reconcile st) = view st /\ server (env (reconcile st)) = server (env st) /\
stored_history (env (reconcile st)) = stored_history (env st) /\
requests (reconcile st) = requests st /\ next_request (reconcile st) = next_request st.
Proof.
unfold reconcile. destruct (activeTrip _); [|repeat split].
destruct (trip_view st); [|repeat split].
case_ifs; repeat split.
Qed.

(** After rendering, ActiveTripView is mounted exactly when a trip is
  active, keyed by that trip, and its effect has seen its status. *)
Lemma reconcile_sync st :
match trip_view (reconcile st), activeTrip (allBookings (view st)) with
| None, None => True
| Some tv, Some t => tv_key tv = b_id t /\ tv_status tv = b_status t
| _, _ => False
end.
Proof.
unfold reconcile. destruct (activeTrip _) as [t|] eqn:Ht; simpl; [|exact I].
destruct (trip_view st) as [tv|] eqn:Htv; simpl; [|auto].
case_ifs; simpl; rewrite ?Htv; repeat split;
  first [ apply String.eqb_eq | apply status_eqb_eq | idtac ]; assumption.
Qed.

(** Rendering never opens the summary: an open summary after rendering
  was already open in the same mounted view, and the trip is
  unchanged in key. *)
Lemma reconcile_summary st tv' :
trip_view (reconcile st) = Some tv' -> tv_summary tv' = true ->
exists tv, trip_view st = Some tv /\ tv_summary tv = true /\ tv_key tv = tv_key tv'.
Proof.
unfold reconcile. destruct (activeTrip _) as [t|]; simpl; [|discriminate].
destruct (trip_view st) as [tv|] eqn:Htv; simpl; [|intros [= <-]; discriminate].
case_ifs; simpl; rewrite ?Htv; intros [= <-]; simpl; try discriminate; eauto.
Qed.

(** ** Safety of a status write *)

(** At most one booking of the list is active (spec 3: "at most one
  Booking per driver may be in accepted, arrived, in_progress"). *)
Definition one_active (l : list Booking) : Prop :=
length (List.filter (fun b => Spec.active_phase (b_status b)) l) <= 1.

Lemma isActive_spec b : isActive b = Spec.active_phase (b_status b).
Proof. apply is_active_status_spec. Qed.

Lemma one_active_code l : one_active l <-> length (List.filter isActive l) <= 1.
Proof.
unfold one_active. rewrite (List.filter_ext _ isActive); [reflexivity|].
intros b. symmetry. apply isActive_spec.
Qed.

(** A write of status [s] to booking [id] is legal for the set [l]: the
  booking exists and [s] is its successor in the lifecycle, and no
  other booking is active. *)
Definition req_legal (l : list Booking) (id : string) (s : status) : Prop :=
(exists b, In b l /\ b_id b = id /\ Spec.tstep (b_status b) s) /\
(forall x, In x l -> isActive x = true -> b_id x = id).

(** Every booking keeps its id and its status either stays or takes a
  legal step. *)
Definition db_legal (l l' : list Booking) : Prop :=
Forall2 (fun b b' => b_id b' = b_id b /\
           (b_status b' = b_status b \/ Spec.tstep (b_status b) (b_status b'))) l l'.

Lemma db_write_safe l id s :
List.NoDup (map b_id l) -> req_legal l id s ->
List.NoDup (map b_id (db_update_status id s l)) /\
one_active (db_update_status id s l) /\
db_legal l (db_update_status id s l).
Proof.
intros Hnd [(b0 & Hb0 & Hid0 & Hstep) Hact].
split; [rewrite db_update_ids; exact Hnd|]. split.
- apply one_active_code.
  apply (filter_le_one_key b_id isActive id); [rewrite db_update_ids; exact Hnd|].
  intros x Hx Hxa. destruct (db_update_in id s l x Hx) as (b & Hb & Hxb & [[? ?] | [? ->]]).
  + congruence.
  + apply Hact; assumption.
- eapply Forall2_impl_in; [|apply db_update_spec].
  intros b b' Hb [Hid Hcase]. split; [exact Hid|].
  destruct (String.eqb_spec (b_id b) id) as [E|E]; [right | left; congruence].
  rewrite Hcase. rewrite (NoDup_map_inj b_id l b b0 Hnd Hb Hb0 ltac:(congruence)).
  exact Hstep.
Qed.

End Controller.

End App.
