(* ===== verification/DriverSerial.v ===== *)
(** Serialized execution of the driver app.

    The app relies on the round trip through the server for its guards:
    [handleAccept] refuses while [activeTrip] is set, but [activeTrip] is
    computed from [allBookings], which only changes when the subscription
    delivers.  This file states the discipline under which the guards
    are sound: every click's request is written and returns, and the
    subscription delivers, before the next click ([round_trip]).  Under
    it the server never holds two active trips and every status the app
    writes is a legal lifecycle edge ([serial_at_most_one_active],
    [serial_writes_legal]); the invariant is [app_inv], preserved by
    every [serial_step].  DriverRuns.v shows what happens without the
    discipline.  [decline_keeps_request] records that decline does
    nothing at all. *)

From Stdlib Require Import String List Bool QArith.
From stdpp Require Import base gmap strings list.
From S2P Require Import Prelude Types TripStateMachine Backend DriverApp.
Import TripStateMachine.Code App.

Section Serial.
Context `{Db : BookingDb}.

(** A click: an event the user causes. *)
Definition is_click (e : event) : bool :=
  match e with
  | ToggleOnline | Accept _ | Decline _ | Press _ => true
  | _ => false
  end.

(** A click, then the write and return of the request it issued (the
    request's key is the next free one), then the subscription's
    delivery. *)
Definition round_trip (st : App) (e : event) : option App :=
  match step st e with
  | None => None
  | Some st1 =>
      let k := next_request st in
      match step st1 (DbWrite k) with
      | Some st2 =>
          match step st2 (DbReturn k) with
          | Some st3 => step st3 OnBookings
          | None => None
          end
      | None => step st1 OnBookings
      end
  end.

(** The summary overlay of the mounted trip view, if any. *)
Definition summary_open (st : App) : bool :=
  match trip_view st with Some tv => tv_summary tv | None => false end.

(** The mounted trip view matches the active trip, and its summary is
    only open during the in_progress phase. *)
Definition view_ok (st : App) : Prop :=
  match trip_view st with
  | None => activeTrip (allBookings (view st)) = None
  | Some tv => exists t, activeTrip (allBookings (view st)) = Some t /\
                 tv_key tv = b_id t /\
                 (tv_summary tv = true -> b_status t = InProgress)
  end.

(** The invariant of quiet states. *)
Record app_inv (st : App) : Prop := {
  inv_idle : requests st = ∅;
  inv_fresh : allBookings (view st) = server (env st);
  inv_ids : List.NoDup (map b_id (server (env st)));
  inv_one : one_active (server (env st));
  inv_view : view_ok st
}.

(** ** Steps of the system events *)

Lemma step0_trip_view st e st0 :
  match e with Press _ => False | _ => True end ->
  step0 st e = Some st0 -> trip_view st0 = trip_view st.
Proof.
  intros He H. destruct e; simpl in H; try contradiction;
    repeat case_match; simplify_eq; try reflexivity;
    unfold handleToggleOnline, handleAccept, after_update; repeat case_match; reflexivity.
Qed.

(** ** Facts about the active trip *)

Lemma activeTrip_some l t : activeTrip l = Some t -> In t l /\ isActive t = true.
Proof. apply find_some. Qed.

Lemma activeTrip_none l x : activeTrip l = None -> In x l -> isActive x = false.
Proof. intros H Hx. exact (find_none _ _ H x Hx). Qed.

Lemma activeTrip_unique l t x :
  one_active l -> activeTrip l = Some t -> In x l -> isActive x = true -> x = t.
Proof.
  intros Hone Ht Hx Hxa. destruct (activeTrip_some l t Ht) as [Htl Hta].
  apply one_active_code in Hone.
  exact (filter_le_one_unique isActive l x t Hone Hx Htl Hxa Hta).
Qed.

(** The active trip is the only booking a write may target. *)
Lemma active_req_legal l t s :
  one_active l -> activeTrip l = Some t -> Spec.tstep (b_status t) s ->
  req_legal l (b_id t) s.
Proof.
  intros Hone Ht Hs. split.
  - exists t. destruct (activeTrip_some l t Ht). auto.
  - intros x Hx Hxa. rewrite (activeTrip_unique l t x Hone Ht Hx Hxa). reflexivity.
Qed.

Lemma card_shown_pending id st :
  card_shown id st = true ->
  activeTrip (allBookings (view st)) = None /\
  exists b, In b (allBookings (view st)) /\ b_id b = id /\ b_status b = Pending.
Proof.
  unfold card_shown, dashboard_shown. destruct (activeTrip _); [discriminate|].
  rewrite !andb_true_iff, existsb_exists. intros [_ (b & Hb & Hid)].
  split; [reflexivity|]. apply filter_In in Hb as [Hb Hp].
  exists b. apply String.eqb_eq in Hid. apply status_eqb_eq in Hp. auto.
Qed.

Lemma accept_req_legal l id :
  activeTrip l = None ->
  (exists b, In b l /\ b_id b = id /\ b_status b = Pending) ->
  req_legal l id Accepted.
Proof.
  intros Hnone (b & Hb & Hid & Hp). split.
  - exists b. rewrite Hp. split; [exact Hb|]. split; [exact Hid|].
    constructor. reflexivity.
  - intros x Hx Hxa. rewrite (activeTrip_none l x Hnone Hx) in Hxa. discriminate.
Qed.

(** ** What a click does *)

Definition key_of (st : App) : option string := option_map tv_key (trip_view st).

(** The state after a click (before any request returns): same view and
    server, at most one new request, legal for the server; an open
    summary belongs to the in_progress active trip and the only request
    then is its completion. *)
Definition click_post (st st1 : App) : Prop :=
  view st1 = view st /\ server (env st1) = server (env st) /\
  (requests st1 = ∅ \/
   exists r, requests st1 = {[next_request st := r]} /\ rq_written r = false /\
             req_legal (server (env st)) (rq_id r) (rq_status r)) /\
  (summary_open st1 = true ->
   exists t, activeTrip (server (env st)) = Some t /\ b_status t = InProgress /\
     key_of st1 = Some (b_id t) /\
     forall r, requests st1 !! next_request st = Some r ->
               rq_id r = b_id t /\ rq_status r = Completed).

(** Two states that agree on the view, the server and the requests. *)
Definition same_core (a b : App) : Prop :=
  view a = view b /\ server (env a) = server (env b) /\ requests a = requests b.

Lemma reconcile_core st : same_core (reconcile st) st.
Proof. destruct (reconcile_keeps st) as (? & ? & _ & ? & _). repeat split; assumption. Qed.

Lemma map_background_core f st : same_core (map_background f st) st.
Proof. repeat split. Qed.

Lemma same_core_trans a b c : same_core a b -> same_core b c -> same_core a c.
Proof. intros (? & ? & ?) (? & ? & ?). repeat split; congruence. Qed.

Lemma reconcile_no_active st :
  activeTrip (allBookings (view st)) = None -> trip_view (reconcile st) = None.
Proof. unfold reconcile. intros ->. reflexivity. Qed.

(** A click on the dashboard that issues nothing. *)
Lemma click_post_quiet st st0 :
  app_inv st -> same_core st0 st -> activeTrip (allBookings (view st)) = None ->
  click_post st (reconcile st0).
Proof.
  intros Hinv Hc Hnone.
  destruct (same_core_trans _ _ _ (reconcile_core st0) Hc) as (Hv & Hs & Hr).
  split; [exact Hv|]. split; [exact Hs|]. split; [left; rewrite Hr; apply (inv_idle _ Hinv)|].
  unfold summary_open. rewrite reconcile_no_active; [discriminate|].
  destruct Hc as (-> & _). exact Hnone.
Qed.

(** A click that issues [updateBookingStatus(id, s)]. *)
Lemma click_post_issue st st0 id s :
  app_inv st -> same_core st0 st -> next_request st0 = next_request st ->
  trip_view st0 = trip_view st ->
  req_legal (server (env st)) id s ->
  (summary_open st = true -> s = Completed) ->
  click_post st (reconcile (issue id s st0)).
Proof.
  intros Hinv (Hv & Hs & Hr) Hn Htv Hleg Hsum.
  destruct (reconcile_keeps (issue id s st0)) as (Hv' & Hs' & _ & Hr' & _).
  split; [rewrite Hv'; exact Hv|]. split; [rewrite Hs'; exact Hs|].
  rewrite Hr'. simpl. rewrite Hr, (inv_idle _ Hinv), Hn, insert_empty.
  split; [right; eexists; split; [reflexivity|]; split; [reflexivity|]; exact Hleg|].
  intros Hopen. unfold summary_open in Hopen.
  destruct (trip_view (reconcile _)) as [tv'|] eqn:Htv'; [|discriminate].
  destruct (reconcile_summary _ tv' Htv' Hopen) as (tv & Htv0 & Hsum0 & Hkey).
  simpl in Htv0. rewrite Htv in Htv0.
  pose proof (inv_view _ Hinv) as Hview. unfold view_ok in Hview. rewrite Htv0 in Hview.
  destruct Hview as (t & Ht & Hk & Hin).
  exists t. rewrite <- (inv_fresh _ Hinv). split; [exact Ht|]. split; [auto|].
  split; [unfold key_of; rewrite Htv'; simpl; congruence|].
  intros r Hrq. rewrite lookup_singleton_eq in Hrq. injection Hrq as <-. simpl.
  split; [|apply Hsum; unfold summary_open; rewrite Htv0; exact Hsum0].
  destruct Hleg as [_ Hact]. symmetry. apply Hact.
  - rewrite <- (inv_fresh _ Hinv). apply (activeTrip_some _ _ Ht).
  - apply (activeTrip_some _ _ Ht).
Qed.

Lemma dashboard_shown_none st :
  dashboard_shown st = true -> activeTrip (allBookings (view st)) = None.
Proof. unfold dashboard_shown. destruct (activeTrip _); congruence. Qed.

Lemma view_ok_none st :
  view_ok st -> activeTrip (allBookings (view st)) = None -> summary_open st = false.
Proof.
  unfold view_ok, summary_open. destruct (trip_view st) as [tv|]; [|reflexivity].
  intros (t & Ht & _) Hn. congruence.
Qed.

(** Sliding the end-trip slider only opens the summary, on the trip
    that is in progress. *)
Lemma slide_end_click_post st tv t :
  app_inv st -> trip_view st = Some tv -> activeTrip (allBookings (view st)) = Some t ->
  b_status t = InProgress ->
  click_post st (reconcile (set_trip_view (Some (mkTripView (tv_key tv) (tv_status tv) true)) st)).
Proof.
  intros Hinv Htv Ht Hwhere.
  set (X := set_trip_view (Some (mkTripView (tv_key tv) (tv_status tv) true)) st).
  assert (HX : same_core X st) by (repeat split).
  destruct (same_core_trans _ _ _ (reconcile_core X) HX) as (Hv & Hs & Hr).
  split; [exact Hv|]. split; [exact Hs|].
  split; [left; rewrite Hr; apply (inv_idle _ Hinv)|].
  intros _. exists t. rewrite <- (inv_fresh _ Hinv). split; [exact Ht|].
  split; [exact Hwhere|]. split.
  - pose proof (reconcile_sync X) as Hsync. unfold key_of.
    destruct (trip_view (reconcile X)) as [tv'|];
      change (view X) with (view st) in Hsync; rewrite Ht in Hsync; [|contradiction].
    simpl. destruct Hsync as [-> _]. reflexivity.
  - intros r. rewrite Hr, (inv_idle _ Hinv), lookup_empty. discriminate.
Qed.

(** A pressed trip button of the mounted view (the [Press] case). *)
Lemma press_click_post st tv t b :
  app_inv st -> trip_view st = Some tv -> activeTrip (allBookings (view st)) = Some t ->
  In b (offered (b_status t) (tv_summary tv)) ->
  click_post st (reconcile (press b st)).
Proof.
  intros Hinv Htv Ht Hb.
  pose proof (inv_view _ Hinv) as Hview. unfold view_ok in Hview. rewrite Htv in Hview.
  destruct Hview as (t0 & Ht0 & Hkey & Hsum). rewrite Ht in Ht0. injection Ht0 as Ht0.
  subst t0.
  assert (Hok : summary_ok (b_status t) (tv_summary tv) = true).
  { unfold summary_ok. destruct (tv_summary tv); [rewrite Hsum; reflexivity|reflexivity]. }
  pose proof (offered_inv _ _ _ Hb) as Hwhere.
  pose proof (inv_one _ Hinv) as Hone. rewrite <- (inv_fresh _ Hinv) in Hone.
  assert (Hopen : summary_open st = tv_summary tv) by (unfold summary_open; rewrite Htv; reflexivity).
  destruct b; simpl.
  - destruct (activeTrip_some _ _ Ht) as [_ Ha]. unfold isActive in Ha. rewrite Hwhere in Ha. discriminate.
  - unfold handleSwipeComplete, handleTripUpdate. rewrite map_background_view, Ht.
    apply click_post_issue; try reflexivity; [exact Hinv|apply map_background_core| |].
    + rewrite <- (inv_fresh _ Hinv). apply active_req_legal; auto.
      apply (offered_refines _ (tv_summary tv) SlideArrived); auto.
    + rewrite Hopen. intros Hs. rewrite (Hsum Hs) in Hwhere. discriminate.
  - unfold handleSwipeComplete, handleTripUpdate. rewrite map_background_view, Ht.
    apply click_post_issue; try reflexivity; [exact Hinv|apply map_background_core| |].
    + rewrite <- (inv_fresh _ Hinv). apply active_req_legal; auto.
      apply (offered_refines _ (tv_summary tv) SlideStart); auto.
    + rewrite Hopen. intros Hs. rewrite (Hsum Hs) in Hwhere. discriminate.
  - rewrite Htv. exact (slide_end_click_post st tv t Hinv Htv Ht Hwhere).
  - unfold handleTripUpdate. rewrite Ht.
    apply click_post_issue; [exact Hinv|repeat split|reflexivity|reflexivity| |intros; reflexivity].
    rewrite <- (inv_fresh _ Hinv). apply active_req_legal; auto.
    apply (offered_refines _ (tv_summary tv) ConfirmCompleted); auto.
Qed.

(** Every click, on a quiet state satisfying the invariant, reaches its
    post-condition. *)
Lemma step_click_post st e st1 :
  app_inv st -> is_click e = true -> step st e = Some st1 -> click_post st st1.
Proof.
  intros Hinv Hc Hstep. unfold step in Hstep.
  destruct (step0 st e) as [st0|] eqn:H0; [|discriminate]. injection Hstep as <-.
  destruct e; try discriminate Hc; simpl in H0.
  - destruct (dashboard_shown st) eqn:Hd; [|discriminate]. injection H0 as <-.
    apply click_post_quiet; [exact Hinv| |apply dashboard_shown_none; exact Hd].
    unfold handleToggleOnline. destruct (isOnline _); apply map_background_core.
  - destruct (card_shown id st) eqn:Hcs; [|discriminate]. injection H0 as <-.
    destruct (card_shown_pending _ _ Hcs) as [Hnone Hb].
    unfold handleAccept. rewrite Hnone.
    apply click_post_issue; try reflexivity; [exact Hinv|repeat split| |].
    + rewrite <- (inv_fresh _ Hinv). apply accept_req_legal; assumption.
    + rewrite (view_ok_none _ (inv_view _ Hinv) Hnone). discriminate.
  - destruct (card_shown id st) eqn:Hcs; [|discriminate]. injection H0 as <-.
    apply click_post_quiet; [exact Hinv|repeat split|].
    apply (card_shown_pending _ _ Hcs).
  - unfold button_shown in H0.
    destruct (trip_view st) as [tv|] eqn:Htv; [|discriminate].
    destruct (activeTrip _) as [t|] eqn:Ht; [|discriminate].
    case_bool_decide as Hin; [|discriminate]. injection H0 as <-.
    apply list_elem_of_In in Hin.
    exact (press_click_post st tv t b Hinv Htv Ht Hin).
Qed.

(** ** The system phase of a round trip *)

Lemma after_update_keeps r st :
  allBookings (view (after_update r st)) = allBookings (view st) /\
  server (env (after_update r st)) = server (env st) /\
  requests (after_update r st) = requests st.
Proof. unfold after_update. repeat case_match; repeat split. Qed.

Lemma step_DbWrite st k r :
  requests st !! k = Some r -> rq_written r = false ->
  step st (DbWrite k) =
    Some (reconcile (set_requests
      (<[k := mkRequest (rq_id r) (rq_status r) (rq_bookings r) (rq_history r) true]>
         (requests st)) (db_write r st))).
Proof. intros Hk Hw. unfold step. simpl. rewrite Hk, Hw. reflexivity. Qed.

Lemma step_DbReturn st k r :
  requests st !! k = Some r -> rq_written r = true ->
  step st (DbReturn k) =
    Some (reconcile (after_update r (set_requests (delete k (requests st)) st))).
Proof. intros Hk Hw. unfold step. simpl. rewrite Hk, Hw. reflexivity. Qed.

(** System events never open the summary nor change the mounted key. *)
Lemma step_system_summary st e st' :
  match e with Press _ => False | _ => True end ->
  step st e = Some st' -> summary_open st' = true ->
  summary_open st = true /\ key_of st' = key_of st.
Proof.
  intros He Hstep Hopen. unfold step in Hstep.
  destruct (step0 st e) as [st0|] eqn:H0; [|discriminate]. injection Hstep as <-.
  unfold summary_open, key_of in *.
  rewrite <- (step0_trip_view st e st0 He H0).
  destruct (trip_view (reconcile st0)) as [tv'|] eqn:Htv'; [|discriminate].
  destruct (reconcile_summary st0 tv' Htv' Hopen) as (tv & -> & Hs & Hk).
  simpl. rewrite Hs, Hk. auto.
Qed.

(** The view after a delivery is consistent when an open summary
    belongs to an in_progress trip. *)
Lemma view_ok_reconcile st :
  (forall tv t, trip_view (reconcile st) = Some tv ->
     activeTrip (allBookings (view st)) = Some t -> tv_summary tv = true ->
     b_status t = InProgress) ->
  view_ok (reconcile st).
Proof.
  intros Hsum. pose proof (reconcile_sync st) as Hsync.
  destruct (reconcile_keeps st) as (Hv & _).
  unfold view_ok. rewrite Hv.
  destruct (trip_view (reconcile st)) as [tv|] eqn:Htv;
    destruct (activeTrip _) as [t|] eqn:Ht; try contradiction; [|reflexivity].
  exists t. destruct Hsync as [Hk _]. split; [reflexivity|]. split; [exact Hk|].
  intros Hs. exact (Hsum tv t eq_refl eq_refl Hs).
Qed.

Lemma db_legal_refl l : db_legal l l.
Proof. induction l; constructor; auto. Qed.

(** The delivery that ends a round trip: the view becomes the server's
    set, and if an open summary survives it belongs to an in_progress
    trip of the new set. *)
Lemma deliver_inv st3 st' :
  requests st3 = ∅ ->
  List.NoDup (map b_id (server (env st3))) -> one_active (server (env st3)) ->
  step st3 OnBookings = Some st' ->
  (forall t, summary_open st3 = true ->
     activeTrip (server (env st3)) = Some t -> key_of st3 = Some (b_id t) ->
     b_status t = InProgress) ->
  app_inv st' /\ server (env st') = server (env st3).
Proof.
  intros Hr3 Hnd Hone Hst Hsum. pose proof Hst as Hst'.
  unfold step in Hst'. simpl in Hst'. injection Hst' as <-.
  destruct (reconcile_keeps (onBookings st3)) as (Hv' & Hs' & _ & Hr' & _).
  split; [|exact Hs']. constructor.
  - rewrite Hr'. exact Hr3.
  - rewrite Hv', Hs'. reflexivity.
  - rewrite Hs'. exact Hnd.
  - rewrite Hs'. exact Hone.
  - apply view_ok_reconcile. intros tv t Htv Ht Hsm.
    assert (Ho : summary_open (reconcile (onBookings st3)) = true)
      by (unfold summary_open; rewrite Htv; exact Hsm).
    destruct (step_system_summary st3 OnBookings _ I Hst Ho) as [Ho3 Hk3].
    apply Hsum; [exact Ho3 | exact Ht|].
    rewrite <- Hk3. unfold key_of. rewrite Htv. simpl. f_equal.
    pose proof (reconcile_sync (onBookings st3)) as Hsync.
    rewrite Htv, Ht in Hsync. apply Hsync.
Qed.

(** The write and the return of the one request a click issued: the
    server takes the request's status and no request is left. *)
Lemma write_return st1 k r :
  requests st1 = {[k := r]} -> rq_written r = false ->
  exists st2 st3, step st1 (DbWrite k) = Some st2 /\ step st2 (DbReturn k) = Some st3 /\
    server (env st3) = db_update_status (rq_id r) (rq_status r) (server (env st1)) /\
    requests st3 = ∅.
Proof.
  intros Hr Hw.
  assert (Hk1 : requests st1 !! k = Some r) by (rewrite Hr; apply lookup_singleton_eq).
  set (st2 := reconcile (set_requests
      (<[k := mkRequest (rq_id r) (rq_status r) (rq_bookings r) (rq_history r) true]> (requests st1))
      (db_write r st1))).
  assert (Hk2 : requests st2 !! k =
                Some (mkRequest (rq_id r) (rq_status r) (rq_bookings r) (rq_history r) true)).
  { unfold st2. rewrite (proj1 (proj2 (proj2 (proj2 (reconcile_keeps _))))).
    simpl. apply lookup_insert_eq. }
  eexists st2, _. split; [exact (step_DbWrite st1 k r Hk1 Hw)|].
  split; [exact (step_DbReturn st2 k _ Hk2 eq_refl)|]. split.
  - rewrite (proj1 (proj2 (reconcile_keeps _))), (proj1 (proj2 (after_update_keeps _ _))). simpl.
    unfold st2. rewrite (proj1 (proj2 (reconcile_keeps _))). reflexivity.
  - rewrite (proj1 (proj2 (proj2 (proj2 (reconcile_keeps _))))), (proj2 (proj2 (after_update_keeps _ _))).
    simpl. unfold st2. rewrite (proj1 (proj2 (proj2 (proj2 (reconcile_keeps _))))). simpl.
    rewrite Hr, insert_singleton_eq. apply delete_singleton_eq.
Qed.

(** Main invariant: a round trip from a quiet state satisfying the
    invariant ends in a quiet state satisfying it, and every status the
    server stored changed along a legal lifecycle edge (or not at all). *)
Theorem serial_round_trip st e st' :
  app_inv st -> is_click e = true -> round_trip st e = Some st' ->
  app_inv st' /\ db_legal (server (env st)) (server (env st')).
Proof.
  intros Hinv Hc Hrt. unfold round_trip in Hrt.
  destruct (step st e) as [st1|] eqn:H1; [|discriminate].
  destruct (step_click_post _ _ _ Hinv Hc H1) as (Hv & Hs & Hreq & Hsum).
  set (k := next_request st) in *.
  destruct Hreq as [Hemp | (r & Hr & Hw & Hleg)].
  - assert (Hnw : step st1 (DbWrite k) = None)
      by (unfold step; simpl; rewrite Hemp, lookup_empty; reflexivity).
    rewrite Hnw in Hrt.
    destruct (deliver_inv st1 st' Hemp) as [Hinv' Hs']; try rewrite Hs;
      try apply Hinv; try exact Hrt.
    + intros t Ho Ht Hk. destruct (Hsum Ho) as (t0 & Ht0 & Hip & Hk0 & _).
      rewrite Ht in Ht0. congruence.
    + split; [exact Hinv'|]. rewrite Hs', Hs. apply db_legal_refl.
  - assert (Hk1 : requests st1 !! k = Some r) by (rewrite Hr; apply lookup_singleton_eq).
    destruct (write_return st1 k r Hr Hw) as (st2 & st3 & E2 & E3 & Hs3 & Hr3).
    rewrite E2, E3 in Hrt. rewrite Hs in Hs3.
    destruct (db_write_safe (server (env st)) (rq_id r) (rq_status r) (inv_ids _ Hinv) Hleg)
      as (Hnd' & Hone' & Hlegal).
    rewrite <- Hs3 in Hnd', Hone', Hlegal.
    destruct (deliver_inv st3 st' Hr3 Hnd' Hone' Hrt) as [Hinv' Hs'].
    + intros t Ho Ht Hk.
      destruct (step_system_summary st2 (DbReturn k) st3 I E3 Ho) as [Ho2 Hk32].
      destruct (step_system_summary st1 (DbWrite k) st2 I E2 Ho2) as [Ho1 Hk21].
      destruct (Hsum Ho1) as (t0 & Ht0 & Hip & Hk0 & Hreq0).
      destruct (Hreq0 r Hk1) as [Hid Hst].
      assert (Hid' : b_id t = rq_id r) by congruence.
      destruct (activeTrip_some _ _ Ht) as [Hin Hact]. rewrite Hs3 in Hin.
      destruct (db_update_in _ _ _ _ Hin) as (b & _ & Htb & [[Hb Hs1] | [Hb ->]]).
      * unfold isActive in Hact. rewrite Hs1, Hst in Hact. discriminate.
      * congruence.
    + split; [exact Hinv'|]. rewrite Hs'. exact Hlegal.
Qed.

(** ** Serialized executions *)

(** One step of a serialized execution: a click with its round trip,
    or an unsolicited push from either subscription. *)
Inductive serial_step : App -> App -> Prop :=
| sstep_click st e st' :
    is_click e = true -> round_trip st e = Some st' -> serial_step st st'
| sstep_bookings st st' : step st OnBookings = Some st' -> serial_step st st'
| sstep_location st st' : step st OnDriverLocation = Some st' -> serial_step st st'.

Lemma onDriverLocation_inv st st' :
  app_inv st -> step st OnDriverLocation = Some st' ->
  app_inv st' /\ server (env st') = server (env st).
Proof.
  intros Hinv Hst. pose proof Hst as Hst'.
  unfold step in Hst'. simpl in Hst'. injection Hst' as <-.
  destruct (reconcile_keeps (onDriverLocation st)) as (Hv' & Hs' & _ & Hr' & _).
  split; [|exact Hs']. constructor.
  - rewrite Hr'. apply (inv_idle _ Hinv).
  - rewrite Hv', Hs'. apply (inv_fresh _ Hinv).
  - rewrite Hs'. apply (inv_ids _ Hinv).
  - rewrite Hs'. apply (inv_one _ Hinv).
  - apply view_ok_reconcile. intros tv t Htv Ht Hsm.
    assert (Ho : summary_open (reconcile (onDriverLocation st)) = true)
      by (unfold summary_open; rewrite Htv; exact Hsm).
    destruct (step_system_summary st OnDriverLocation _ I Hst Ho) as [Ho0 Hk0].
    pose proof (inv_view _ Hinv) as Hview. unfold view_ok, summary_open in *.
    destruct (trip_view st) as [tv0|]; [|discriminate].
    destruct Hview as (t0 & Ht0 & _ & Hip). simpl in Ht. rewrite Ht in Ht0.
    injection Ht0 as ->. apply Hip. exact Ho0.
Qed.

Lemma onBookings_inv st st' :
  app_inv st -> step st OnBookings = Some st' ->
  app_inv st' /\ server (env st') = server (env st).
Proof.
  intros Hinv Hst.
  apply (deliver_inv st st' (inv_idle _ Hinv) (inv_ids _ Hinv) (inv_one _ Hinv) Hst).
  intros t Ho Ht Hk. pose proof (inv_view _ Hinv) as Hview.
  unfold view_ok, summary_open, key_of in *. rewrite (inv_fresh _ Hinv) in Hview.
  destruct (trip_view st) as [tv0|]; [|discriminate].
  destruct Hview as (t0 & Ht0 & _ & Hip). rewrite Ht in Ht0.
  injection Ht0 as ->. apply Hip. exact Ho.
Qed.

Lemma serial_step_inv st st' :
  app_inv st -> serial_step st st' ->
  app_inv st' /\ db_legal (server (env st)) (server (env st')).
Proof.
  intros Hinv Hs. destruct Hs as [st e st' Hc Hrt | st st' Hst | st st' Hst].
  - exact (serial_round_trip st e st' Hinv Hc Hrt).
  - destruct (onBookings_inv st st' Hinv Hst) as [? ->]. split; [assumption|apply db_legal_refl].
  - destruct (onDriverLocation_inv st st' Hinv Hst) as [? ->]. split; [assumption|apply db_legal_refl].
Qed.

(** The app as mounted: nothing delivered yet, no trip view, nothing in
    flight, the history not yet read. *)
Definition app_init (srv : list Booking) (stored : option (list Booking)) (g : Background) : App :=
  mkApp (mkView [] [] (bg_online g) None) None (mkEnv srv stored g) ∅ 0.

Lemma app_init_inv srv stored g st :
  List.NoDup (map b_id srv) -> one_active srv ->
  step (app_init srv stored g) OnBookings = Some st -> app_inv st.
Proof.
  intros Hnd Hone Hst.
  apply (deliver_inv (app_init srv stored g) st eq_refl Hnd Hone Hst).
  intros t Ho. discriminate.
Qed.

Lemma serial_reachable_inv srv stored g st0 st :
  List.NoDup (map b_id srv) -> one_active srv ->
  step (app_init srv stored g) OnBookings = Some st0 ->
  star serial_step st0 st -> app_inv st.
Proof.
  intros Hnd Hone H0 Hstar.
  apply (star_preserves serial_step app_inv st0 st); [|exact Hstar|].
  - intros a b Ha Hab. apply (serial_step_inv a b Ha Hab).
  - exact (app_init_inv srv stored g st0 Hnd Hone H0).
Qed.

(** C1: Under serialized execution the server never holds two active
    trips: from the first delivery of a booking set with distinct ids
    and at most one active trip, every state reached by clicks with
    their round trips and by subscription pushes has at most one active
    booking, on the server and in the app's view. *)
Theorem serial_at_most_one_active srv stored g st0 st :
  List.NoDup (map b_id srv) -> one_active srv ->
  step (app_init srv stored g) OnBookings = Some st0 ->
  star serial_step st0 st ->
  one_active (server (env st)) /\ one_active (allBookings (view st)).
Proof.
  intros Hnd Hone H0 Hstar.
  pose proof (serial_reachable_inv srv stored g st0 st Hnd Hone H0 Hstar) as Hinv.
  rewrite (inv_fresh _ Hinv). split; apply (inv_one _ Hinv).
Qed.

(** C2: Under serialized execution every write the app makes moves a
    booking's status along a legal lifecycle edge: in every serialized
    step from a reachable state, each booking keeps its id and its
    status either stays or takes one step of the specification's
    lifecycle. *)
Theorem serial_writes_legal srv stored g st0 st st' :
  List.NoDup (map b_id srv) -> one_active srv ->
  step (app_init srv stored g) OnBookings = Some st0 ->
  star serial_step st0 st -> serial_step st st' ->
  db_legal (server (env st)) (server (env st')).
Proof.
  intros Hnd Hone H0 Hstar Hs.
  pose proof (serial_reachable_inv srv stored g st0 st Hnd Hone H0 Hstar) as Hinv.
  exact (proj2 (serial_step_inv st st' Hinv Hs)).
Qed.

(** Whether a card is shown depends on the view only. *)
Lemma card_shown_view id a b : view a = view b -> card_shown id a = card_shown id b.
Proof. intros H. unfold card_shown, dashboard_shown. rewrite H. reflexivity. Qed.

(** Accepting a shown card issues the request. *)
Lemma step_accept st id :
  card_shown id st = true -> step st (Accept id) = Some (reconcile (issue id Accepted st)).
Proof.
  intros Hc. unfold step. cbn [step0]. rewrite Hc. unfold handleAccept.
  rewrite (proj1 (card_shown_pending id st Hc)). reflexivity.
Qed.

(** Decline does not remove the request: [handleDecline]'s body is
    empty, so after a decline the request's card is still on the
    dashboard and nothing is written, where the specification makes
    decline a local removal of the pending request. *)
Theorem decline_keeps_request st id st' :
  step st (Decline id) = Some st' ->
  card_shown id st' = true /\ server (env st') = server (env st) /\ requests st' = requests st.
Proof.
  unfold step. cbn [step0]. destruct (card_shown id st) eqn:Hc; [|discriminate].
  intros H. injection H as <-.
  destruct (reconcile_keeps st) as (Hv & Hs & _ & Hr & _).
  unfold card_shown, dashboard_shown in *. rewrite Hv, Hs, Hr. auto.
Qed.

End Serial.
