(* ===== verification/DriverRuns.v ===== *)
(** Runs of the driver app model.

    The specification's scenario (section 8: booking b1 accepted,
    arrived, started and completed) as fixtures, and the interleavings
    in which the app leaves its specification, each proved for every
    state where it can start (Section [Races]): two accepts before the
    server round trip leave two active trips (any state showing two
    pending requests); a stale "start trip" write landing after
    completion revives a completed trip (any state with such a write
    pending); a second confirm before the booking set is delivered
    archives the trip twice (any rendered state showing the summary,
    through the lemma [confirm_round_trip]); a rejected "arrived" write
    leaves the background service's optimistic status in place (any
    rendered state showing the arrived slider).  The witnesses, on the
    scenario's fixtures, and those of DriverSerial's theorems are here. *)

From Stdlib Require Import String List Bool QArith.
From stdpp Require Import base gmap strings list.
From S2P Require Import Prelude Types JsText Fares TripStateMachine Backend DriverApp DriverSerial.
Import TripStateMachine.Code App.
Local Open Scope string_scope.

(** ** Fixtures *)

Definition b1 : Booking :=
  mkBooking "b1" Pending (Some (CPair (1530 # 100) (4420 # 100)))
            (Some (CPair (1535 # 100) (4425 # 100))) (Some "5") (Some "12") "car".

Definition b2 : Booking :=
  mkBooking "b2" Pending (Some (CPair (1540 # 100) (4410 # 100)))
            (Some (CPair (1550 # 100) (4430 # 100))) (Some "3") (Some "8") "car".

Definition demo_bg : Background := mkBackground true None (Some (1531 # 100, 4421 # 100)).

Definition demo_init : App := app_init [b1; b2] None demo_bg.

(** The spec scenario, in three stages. *)
Definition scen_accept : list event :=
  [OnBookings; OnDriverLocation; Accept "b1"; DbWrite 0; DbReturn 0; OnBookings].

Definition scen_start : list event :=
  scen_accept ++ [Press SlideArrived; DbWrite 1; DbReturn 1; OnBookings;
                  Press SlideStart; DbWrite 2; DbReturn 2; OnBookings].

Definition scen_complete : list event :=
  scen_start ++ [Press SlideEnd; Press ConfirmCompleted; DbWrite 3; DbReturn 3; OnBookings].

(** ** Interleavings that leave the specification *)

Section Races.
Context `{Db : BookingDb}.

(** After two writes of "accepted" to two different ids of the server,
    both bookings are active. *)
Lemma two_accepts_two_active srv id1 id2 :
  id1 <> id2 ->
  (exists b, In b srv /\ b_id b = id1) -> (exists b, In b srv /\ b_id b = id2) ->
  ~ one_active (db_update_status id2 Accepted (db_update_status id1 Accepted srv)).
Proof.
  intros Hne [b1 [Hb1 Hid1]] [b2 [Hb2 Hid2]] Hone.
  destruct (db_update_hit id1 Accepted srv b1 Hb1 Hid1) as (c1 & Hc1 & Hcid1 & Hcs1).
  assert (Hb2' : In b2 (db_update_status id1 Accepted srv)) by (apply db_update_other; congruence).
  destruct (db_update_hit id2 Accepted _ b2 Hb2' Hid2) as (c2 & Hc2 & Hcid2 & Hcs2).
  assert (Hc1' : In c1 (db_update_status id2 Accepted (db_update_status id1 Accepted srv)))
    by (apply db_update_other; congruence).
  unfold one_active in Hone.
  pose proof (filter_two (fun b => Spec.active_phase (b_status b)) _ c1 c2 Hc1' Hc2
                ltac:(congruence) ltac:(cbv beta; rewrite Hcs1; reflexivity) ltac:(cbv beta; rewrite Hcs2; reflexivity)).
  lia.
Qed.

(** C4: [handleAccept]'s guard reads [activeTrip] from [allBookings],
    which only changes when the subscription delivers: from any state
    whose view is up to date and that shows two different pending
    requests, two accepts in quick succession both pass the guard, both
    writes land, and the server holds two active trips (spec 3's
    invariant and 4.1's "accept is rejected if an active trip already
    exists" are both broken). *)
Theorem double_accept_two_active st id1 id2 :
  card_shown id1 st = true -> card_shown id2 st = true -> id1 <> id2 ->
  allBookings (view st) = server (env st) ->
  exists st', run st [Accept id1; Accept id2; DbWrite (next_request st); DbWrite (S (next_request st))] = Some st' /\
    ~ one_active (server (env st')).
Proof.
  intros H1 H2 Hne Hfresh. set (n := next_request st).
  set (s1 := reconcile (issue id1 Accepted st)).
  destruct (reconcile_keeps (issue id1 Accepted st)) as (V1 & S1 & _ & R1 & N1). fold s1 in V1, S1, R1, N1.
  assert (H2' : card_shown id2 s1 = true) by (rewrite (card_shown_view id2 s1 st); [exact H2 | exact V1]).
  set (s2 := reconcile (issue id2 Accepted s1)).
  destruct (reconcile_keeps (issue id2 Accepted s1)) as (V2 & S2 & _ & R2 & N2). fold s2 in V2, S2, R2, N2.
  cbn [issue view env requests next_request] in V1, S1, R1, N1, V2, S2, R2, N2.
  set (r1 := mkRequest id1 Accepted (allBookings (view st)) (tripHistory (view st)) false).
  set (r2 := mkRequest id2 Accepted (allBookings (view s1)) (tripHistory (view s1)) false).
  assert (K1 : requests s2 !! n = Some r1)
    by (rewrite R2, N1, lookup_insert_ne by lia; rewrite R1; apply lookup_insert_eq).
  set (s3 := reconcile (set_requests (<[n := mkRequest (rq_id r1) (rq_status r1) (rq_bookings r1)
                                            (rq_history r1) true]> (requests s2)) (db_write r1 s2))).
  destruct (reconcile_keeps (set_requests (<[n := mkRequest (rq_id r1) (rq_status r1) (rq_bookings r1)
                                            (rq_history r1) true]> (requests s2)) (db_write r1 s2)))
    as (_ & S3 & _ & R3 & _). fold s3 in S3, R3.
  assert (K2 : requests s3 !! S n = Some r2)
    by (rewrite R3; cbn; rewrite lookup_insert_ne by lia; rewrite R2, N1; apply lookup_insert_eq).
  eexists. split.
  - cbn [run]. rewrite (step_accept st id1 H1). fold s1. rewrite (step_accept s1 id2 H2'). fold s2.
    rewrite (step_DbWrite s2 n r1 K1 eq_refl). fold s3. rewrite (step_DbWrite s3 (S n) r2 K2 eq_refl).
    reflexivity.
  - rewrite (proj1 (proj2 (reconcile_keeps _))). cbn. rewrite S3. cbn. rewrite S2, S1.
    destruct (card_shown_pending id1 st H1) as [_ (b1 & Hb1 & Hid1 & _)].
    destruct (card_shown_pending id2 st H2) as [_ (b2 & Hb2 & Hid2 & _)].
    rewrite Hfresh in Hb1, Hb2.
    apply two_accepts_two_active; [exact Hne | exists b1; auto | exists b2; auto].
Qed.

(** Rendering depends only on the bookings shown and the mounted trip
    view: a state that agrees on both with a rendered state is rendered. *)
Lemma reconcile_fixed a b :
  reconcile b = b -> allBookings (view a) = allBookings (view b) ->
  trip_view a = trip_view b -> reconcile a = a.
Proof.
  intros Hb Hv Ht. apply (f_equal trip_view) in Hb. unfold reconcile in *. rewrite Hv, Ht.
  destruct (activeTrip (allBookings (view b))) as [t|]; [destruct (trip_view b) as [tv|]|].
  - destruct (String.eqb (tv_key tv) (b_id t)) eqn:Ek;
      [destruct (status_eqb (tv_status tv) (b_status t)) eqn:Es; [reflexivity|]|];
      exfalso; cbn in Hb; injection Hb as E.
    + apply (f_equal tv_status) in E. cbn in E.
      rewrite <- E, (proj2 (status_eqb_eq _ _) eq_refl) in Es. discriminate.
    + rewrite <- E in Ek. cbn in Ek. rewrite String.eqb_refl in Ek. discriminate.
  - discriminate.
  - destruct a; cbn in *. rewrite Ht, <- Hb. reflexivity.
Qed.

(** In a booking set with distinct ids, the lookup by id of a member
    finds that member. *)
Lemma find_id_unique l t :
  NoDup (map b_id l) -> In t l -> find (fun b => String.eqb (b_id b) (b_id t)) l = Some t.
Proof.
  induction l as [|b l IH]; intros Hnd Hin; [contradiction|]. inversion Hnd as [|? ? Hnot Hnd']; subst.
  cbn. destruct (String.eqb (b_id b) (b_id t)) eqn:E.
  - apply String.eqb_eq in E. destruct Hin as [->|Hin]; [reflexivity|].
    exfalso. apply Hnot. rewrite E. apply list_elem_of_In, in_map, Hin.
  - destruct Hin as [->|Hin]; [rewrite String.eqb_refl in E; discriminate | auto].
Qed.

Lemma run_app st l1 l2 :
  run st (l1 ++ l2) = match run st l1 with Some s => run s l2 | None => None end.
Proof. revert st. induction l1 as [|e l1 IH]; intros st; cbn; [reflexivity|]. destruct (step st e); auto. Qed.

(** The summary's confirm and its round trip, from a rendered state:
    the trip is put at the front of the history, shown and stored, and
    the screen (bookings and trip view) is unchanged, so the confirm is
    still on it. *)
Lemma confirm_round_trip st t :
  reconcile st = st -> NoDup (map b_id (allBookings (view st))) ->
  activeTrip (allBookings (view st)) = Some t -> button_shown ConfirmCompleted st = true ->
  exists st', run st [Press ConfirmCompleted; DbWrite (next_request st); DbReturn (next_request st)] = Some st' /\
    reconcile st' = st' /\ trip_view st' = trip_view st /\ next_request st' = S (next_request st) /\
    view st' = mkView (allBookings (view st)) (with_status t Completed :: tripHistory (view st))
                      (isOnline (view st)) (driverPosition (view st)) /\
    stored_history (env st') = Some (with_status t Completed :: tripHistory (view st)).
Proof.
  intros Hfix Hnd Ht Hb. set (n := next_request st).
  pose proof (find_id_unique _ t Hnd (proj1 (activeTrip_some _ _ Ht))) as Hf.
  set (s1 := issue (b_id t) Completed st).
  set (r := mkRequest (b_id t) Completed (allBookings (view st)) (tripHistory (view st)) false).
  set (w := mkRequest (rq_id r) (rq_status r) (rq_bookings r) (rq_history r) true).
  set (s2 := set_requests (<[n := w]> (requests s1)) (db_write r s1)).
  set (s3 := after_update w (set_requests (delete n (requests s2)) s2)).
  assert (F3 : reconcile s3 = s3)
    by (apply (reconcile_fixed _ st Hfix); unfold s3, after_update; cbn; rewrite Hf; reflexivity).
  exists s3. split; [|split; [exact F3|]].
  - cbn [run]. unfold step at 1. cbn [step0]. rewrite Hb. cbn [press]. unfold handleTripUpdate.
    rewrite Ht. fold s1. rewrite (reconcile_fixed s1 st Hfix eq_refl eq_refl).
    rewrite (step_DbWrite s1 n r (lookup_insert_eq _ _ _) eq_refl). fold w s2.
    rewrite (reconcile_fixed s2 st Hfix eq_refl eq_refl).
    rewrite (step_DbReturn s2 n w (lookup_insert_eq _ _ _) eq_refl). fold s3. rewrite F3. reflexivity.
  - unfold s3, after_update. cbn. rewrite Hf. repeat split.
Qed.

(** C6: The completion continuation prepends the trip to the history its
    closure captured, with no check that the trip is already there: from
    any rendered state showing the trip summary (booking ids distinct),
    a second confirm pressed after the first request returned, while the
    summary is still on screen until the next delivery unmounts the trip
    view, archives the same trip twice, in the shown and in the stored
    history. *)
Theorem double_confirm_duplicates_history st t :
  reconcile st = st -> NoDup (map b_id (allBookings (view st))) ->
  activeTrip (allBookings (view st)) = Some t -> button_shown ConfirmCompleted st = true ->
  exists st', run st [Press ConfirmCompleted; DbWrite (next_request st); DbReturn (next_request st);
                      Press ConfirmCompleted; DbWrite (S (next_request st));
                      DbReturn (S (next_request st))] = Some st' /\
    tripHistory (view st') = with_status t Completed :: with_status t Completed :: tripHistory (view st) /\
    stored_history (env st') =
      Some (with_status t Completed :: with_status t Completed :: tripHistory (view st)).
Proof.
  intros Hfix Hnd Ht Hb.
  destruct (confirm_round_trip st t Hfix Hnd Ht Hb) as (s3 & R3 & F3 & T3 & N3 & V3 & _).
  assert (Hb3 : button_shown ConfirmCompleted s3 = true)
    by (unfold button_shown in *; rewrite T3, V3; exact Hb).
  destruct (confirm_round_trip s3 t F3 ltac:(rewrite V3; exact Hnd) ltac:(rewrite V3; exact Ht) Hb3)
    as (s6 & R6 & _ & _ & _ & V6 & H6).
  exists s6. rewrite N3 in R6. split.
  - refine (eq_trans (run_app st [Press ConfirmCompleted; DbWrite (next_request st);
                                  DbReturn (next_request st)] _) _). rewrite R3. exact R6.
  - rewrite V6, H6, V3. split; reflexivity.
Qed.

(** A status write that the lifecycle forbids: a completed booking
    written to any other status. *)
Lemma db_update_not_legal id s l b :
  In b l -> b_id b = id -> b_status b = Completed -> s <> Completed ->
  ~ db_legal l (db_update_status id s l).
Proof.
  intros Hin Hid Hc Hs HL. unfold db_legal in HL. pose proof (db_update_spec id s l) as F.
  revert Hin HL. induction F as [|c c' l l' [_ Hc'] _ IH]; intros Hin HL; [contradiction|].
  inversion HL as [|? ? ? ? [_ Hst] HL']; subst. destruct Hin as [<-|Hin]; [|exact (IH Hin HL')].
  rewrite String.eqb_refl in Hc'. rewrite Hc', Hc in Hst.
  destruct Hst as [E|E]; [congruence | exact (Spec.completed_terminal _ E)].
Qed.

(** C5: Requests may complete in any order and nothing discards a stale
    one: in any state where a booking the server holds as completed has
    an in_progress write still pending (a duplicated "start trip"),
    the write lands: the booking is in_progress again on the server, a
    transition the lifecycle forbids (completed is terminal). *)
Theorem stale_write_revives_completed st k r b :
  requests st !! k = Some r -> rq_written r = false -> rq_status r = InProgress ->
  In b (server (env st)) -> b_id b = rq_id r -> b_status b = Completed ->
  exists st', step st (DbWrite k) = Some st' /\
    ~ db_legal (server (env st)) (server (env st')) /\
    exists b', In b' (server (env st')) /\ b_id b' = b_id b /\ b_status b' = InProgress.
Proof.
  intros Hk Hw Hs Hin Hid Hc. eexists. split; [exact (step_DbWrite st k r Hk Hw)|].
  rewrite (proj1 (proj2 (reconcile_keeps _))). cbn. rewrite Hs. split.
  - apply (db_update_not_legal _ _ _ b Hin Hid Hc). discriminate.
  - destruct (db_update_hit (rq_id r) InProgress _ b Hin Hid) as (b' & ? & ? & ?).
    exists b'. repeat split; congruence.
Qed.

(** C24: A rejected write is not rolled back: from any rendered state
    whose view is up to date and that shows the arrived slider, the
    slider sets the background service's trip status at once, the server
    rejects the write, and after the next delivery the background
    service still broadcasts "arrived" while the server, the active trip
    and the trip view stay "accepted" (the status effect only runs when
    the trip's status changes). *)
Theorem failed_write_keeps_optimistic_status st :
  reconcile st = st -> allBookings (view st) = server (env st) -> button_shown SlideArrived st = true ->
  exists st', run st [Press SlideArrived; DbFail (next_request st); OnBookings] = Some st' /\
    bg_trip_status (background (env st')) = Some Arrived /\ server (env st') = server (env st) /\
    trip_view st' = trip_view st /\
    option_map b_status (activeTrip (allBookings (view st'))) = Some Accepted.
Proof.
  intros Hfix Hfresh Hb. set (n := next_request st).
  assert (Ht : exists t, activeTrip (allBookings (view st)) = Some t /\ b_status t = Accepted).
  { pose proof Hb as Hb'. unfold button_shown in Hb'. destruct (trip_view st) as [tv|]; [|discriminate].
    destruct (activeTrip _) as [t|]; [|discriminate]. exists t. split; [reflexivity|].
    apply (offered_inv SlideArrived _ (tv_summary tv)). apply list_elem_of_In.
    exact (bool_decide_eq_true_1 _ Hb'). }
  destruct Ht as (t & Ht & Hst).
  set (s1 := issue (b_id t) Arrived (map_background (setActiveTripStatus (Some Arrived)) st)).
  assert (F1 : reconcile s1 = s1) by (apply (reconcile_fixed s1 st Hfix); reflexivity).
  set (s2 := set_requests (delete n (requests s1)) s1).
  assert (F2 : reconcile s2 = s2) by (apply (reconcile_fixed s2 st Hfix); reflexivity).
  set (s3 := onBookings s2).
  assert (F3 : reconcile s3 = s3) by (apply (reconcile_fixed s3 st Hfix); [symmetry; exact Hfresh | reflexivity]).
  exists s3. split.
  - cbn [run]. unfold step at 1. cbn [step0]. rewrite Hb. cbn [press].
    unfold handleSwipeComplete, handleTripUpdate. rewrite map_background_view, Ht. fold s1. rewrite F1.
    unfold step at 1. cbn [step0].
    replace (requests s1 !! n) with (Some (mkRequest (b_id t) Arrived (allBookings (view st))
                                             (tripHistory (view st)) false)) by (symmetry; apply lookup_insert_eq).
    cbn [rq_written]. fold s2. rewrite F2. unfold step at 1. cbn [step0]. fold s3. rewrite F3. reflexivity.
  - split; [reflexivity|]. split; [reflexivity|]. split; [reflexivity|].
    change (allBookings (view s3)) with (server (env st)). rewrite <- Hfresh, Ht. cbn. rewrite Hst. reflexivity.
Qed.

End Races.

(** "Start trip" pressed twice; the second request's write is delayed
    until after the trip has been completed. *)
Definition race_revive_prefix : list event :=
  app scen_accept
    [Press SlideArrived; DbWrite 1; DbReturn 1; OnBookings;
     Press SlideStart; Press SlideStart; DbWrite 2; DbReturn 2; OnBookings;
     Press SlideEnd; Press ConfirmCompleted; DbWrite 4; DbReturn 4; OnBookings].

(** ** Serialized runs *)

Definition demo_st0 : App :=
  match step demo_init OnBookings with Some st => st | None => demo_init end.

Definition demo_st1 : App :=
  match round_trip demo_st0 (Accept "b1") with Some st => st | None => demo_st0 end.

Definition demo_st2 : App :=
  match round_trip demo_st1 (Press SlideArrived) with Some st => st | None => demo_st1 end.

(** Witness of [serial_at_most_one_active]: the demo set, its first
    delivery, and an accept with its round trip. *)
Lemma serial_at_most_one_active_witness :
  one_active (server (env demo_st1)) /\ one_active (allBookings (view demo_st1)).
Proof.
  apply (serial_at_most_one_active [b1; b2] None demo_bg demo_st0 demo_st1).
  - constructor; [intros [H|[]]; discriminate|constructor; [intros []|constructor]].
  - vm_compute. lia.
  - vm_compute. reflexivity.
  - apply star_one. apply (sstep_click _ (Accept "b1")); [reflexivity|].
    vm_compute. reflexivity.
Defined.

(** Witness of [serial_writes_legal]: the arrived slider pressed from
    the accepted state. *)
Lemma serial_writes_legal_witness :
  db_legal (server (env demo_st1)) (server (env demo_st2)).
Proof.
  apply (serial_writes_legal [b1; b2] None demo_bg demo_st0 demo_st1 demo_st2).
  - constructor; [intros [H|[]]; discriminate|constructor; [intros []|constructor]].
  - vm_compute. lia.
  - vm_compute. reflexivity.
  - apply star_one. apply (sstep_click _ (Accept "b1")); [reflexivity|].
    vm_compute. reflexivity.
  - apply (sstep_click _ (Press SlideArrived)); [reflexivity|]. vm_compute. reflexivity.
Defined.

(** Witness of [decline_keeps_request]: declining "b2" on the first
    dashboard. *)
Lemma decline_keeps_request_witness :
  card_shown "b2" (reconcile demo_st0) = true /\
  server (env (reconcile demo_st0)) = server (env demo_st0) /\
  requests (reconcile demo_st0) = requests demo_st0.
Proof. apply (decline_keeps_request demo_st0 "b2"). vm_compute. reflexivity. Defined.

(** Witness of [double_accept_two_active]: the first dashboard of the
    demo, with "b1" and "b2" pending. *)
Lemma double_accept_two_active_witness :
  exists st', run demo_st0 [Accept "b1"; Accept "b2"; DbWrite (next_request demo_st0);
                            DbWrite (S (next_request demo_st0))] = Some st' /\
    ~ one_active (server (env st')).
Proof.
  apply double_accept_two_active; [vm_compute; reflexivity | vm_compute; reflexivity | discriminate |].
  vm_compute. reflexivity.
Defined.

(** The demo after start and the end slider: the summary is open. *)
Definition demo_summary : App :=
  match run demo_init (scen_start ++ [Press SlideEnd]) with Some st => st | None => demo_init end.

(** Witness of [double_confirm_duplicates_history]: b1 in progress with
    its summary open. *)
Lemma double_confirm_duplicates_history_witness :
  exists st', run demo_summary [Press ConfirmCompleted; DbWrite (next_request demo_summary);
                                DbReturn (next_request demo_summary); Press ConfirmCompleted;
                                DbWrite (S (next_request demo_summary));
                                DbReturn (S (next_request demo_summary))] = Some st' /\
    tripHistory (view st') = with_status (with_status b1 InProgress) Completed ::
                             with_status (with_status b1 InProgress) Completed ::
                             tripHistory (view demo_summary) /\
    stored_history (env st') = Some (with_status (with_status b1 InProgress) Completed ::
                                     with_status (with_status b1 InProgress) Completed ::
                                     tripHistory (view demo_summary)).
Proof.
  apply (double_confirm_duplicates_history demo_summary (with_status b1 InProgress));
    [vm_compute; reflexivity | apply (bool_decide_unpack _); vm_compute; exact I
    | vm_compute; reflexivity | vm_compute; reflexivity].
Defined.

(** "Start trip" pressed twice; the second write is still pending when
    the trip has been completed. *)
Lemma stale_write_revives_completed_witness :
  exists st1, run demo_init race_revive_prefix = Some st1 /\
    exists st', step st1 (DbWrite 3) = Some st' /\ ~ db_legal (server (env st1)) (server (env st')) /\
      exists b', In b' (server (env st')) /\ b_id b' = b_id (with_status b1 Completed) /\
                 b_status b' = InProgress.
Proof.
  eexists. split; [vm_compute; reflexivity|].
  match goal with
  | |- exists st', step ?s _ = _ /\ _ =>
      eapply (stale_write_revives_completed s 3 _ (with_status b1 Completed));
        first [vm_compute; reflexivity | vm_compute; left; reflexivity]
  end.
Defined.

(** The arrived slider of b1's trip, after the accept of the scenario. *)
Lemma failed_write_keeps_optimistic_status_witness :
  exists st, run demo_init scen_accept = Some st /\
    exists st', run st [Press SlideArrived; DbFail (next_request st); OnBookings] = Some st' /\
      bg_trip_status (background (env st')) = Some Arrived /\ server (env st') = server (env st) /\
      trip_view st' = trip_view st /\
      option_map b_status (activeTrip (allBookings (view st'))) = Some Accepted.
Proof.
  eexists. split; [vm_compute; reflexivity|].
  match goal with
  | |- exists st', run ?s _ = _ /\ _ =>
      apply (failed_write_keeps_optimistic_status s); vm_compute; reflexivity
  end.
Defined.
