(* ===== verification/History.v ===== *)
(** The trip history's well-formedness (DriverApp.tsx: [tripHistory],
    [localStorage['driver_trip_history']] and [updateBookingStatus]).

    The history is a [Booking[]]; what makes an entry of it meaningful
    is that it is a completed trip: the completion continuation writes
    [{...trip, status}] with [status === 'completed'] in front of the
    history its closure captured, and the bookings callback reloads the
    history from storage.  [hist_ok] says that the shown history, the
    stored one and every history captured by a request in flight hold
    completed trips only; every event preserves it, whatever the
    interleaving (unlike the invariants of DriverSerial, no
    serialization is assumed). *)

From Stdlib Require Import String List Bool.
From stdpp Require Import base gmap list.
From S2P Require Import Prelude Types TripStateMachine Backend DriverApp DriverSerial DriverRuns.
Import ListNotations App.

Section History.
Context `{Db : BookingDb}.

(** A history of completed trips. *)
Definition completed_only (l : list Booking) : Prop :=
  Forall (fun b => b_status b = Completed) l.

Definition hist_ok (st : App) : Prop :=
  completed_only (tripHistory (view st)) /\
  (forall h, stored_history (env st) = Some h -> completed_only h) /\
  map_Forall (fun _ r => completed_only (rq_history r)) (requests st).

(** ** Lemmas *)

Lemma hist_ok_ext a b :
  tripHistory (view a) = tripHistory (view b) -> stored_history (env a) = stored_history (env b) ->
  requests a = requests b -> hist_ok b -> hist_ok a.
Proof. unfold hist_ok. intros -> -> ->. exact id. Qed.

Lemma issue_ok id s st : hist_ok st -> hist_ok (issue id s st).
Proof.
  intros (H1 & H2 & H3). split; [exact H1|]. split; [exact H2|].
  apply map_Forall_insert_2; [exact H1 | exact H3].
Qed.

Lemma handleTripUpdate_ok s st : hist_ok st -> hist_ok (handleTripUpdate s st).
Proof. intros H. unfold handleTripUpdate. case_match; [apply issue_ok|]; exact H. Qed.

Lemma after_update_ok r st :
  completed_only (rq_history r) -> hist_ok st -> hist_ok (after_update r st).
Proof.
  intros Hr (H1 & H2 & H3). unfold after_update.
  case_match; [case_match|]; split; try split; try exact H3; cbn; auto.
  - constructor; [reflexivity | exact Hr].
  - intros h E. injection E as <-. constructor; [reflexivity | exact Hr].
Qed.

Lemma step0_ok st e st' : hist_ok st -> step0 st e = Some st' -> hist_ok st'.
Proof.
  intros H Hs. destruct e as [| | |id|id|b|k|k|k]; cbn [step0] in Hs.
  - injection Hs as <-. destruct H as (H1 & H2 & H3). split; [|split; assumption].
    cbn. destruct (stored_history (env st)) as [h|]; [exact (H2 h eq_refl) | constructor].
  - injection Hs as <-. exact H.
  - case_match; [|discriminate]. injection Hs as <-. unfold handleToggleOnline. case_match; exact H.
  - case_match; [|discriminate]. injection Hs as <-. unfold handleAccept.
    case_match; [exact H | apply issue_ok, H].
  - case_match; [|discriminate]. injection Hs as <-. exact H.
  - case_match; [|discriminate]. injection Hs as <-. destruct b; cbn [press];
      try (apply handleTripUpdate_ok; exact H); try exact H.
    case_match; exact H.
  - destruct (requests st !! k) as [r|] eqn:Hk; [|discriminate]. case_match; [discriminate|].
    injection Hs as <-. destruct H as (H1 & H2 & H3). split; [exact H1|]. split; [exact H2|].
    apply map_Forall_insert_2; [exact (H3 k r Hk) | exact H3].
  - destruct (requests st !! k) as [r|] eqn:Hk; [|discriminate]. case_match; [|discriminate].
    injection Hs as <-. destruct H as (H1 & H2 & H3).
    apply after_update_ok; [exact (H3 k r Hk)|].
    split; [exact H1|]. split; [exact H2|]. apply map_Forall_delete, H3.
  - destruct (requests st !! k) as [r|] eqn:Hk; [|discriminate]. case_match; [discriminate|].
    injection Hs as <-. destruct H as (H1 & H2 & H3). split; [exact H1|]. split; [exact H2|].
    apply map_Forall_delete, H3.
Qed.

Lemma step_ok st e st' : hist_ok st -> step st e = Some st' -> hist_ok st'.
Proof.
  intros H Hs. unfold step in Hs. destruct (step0 st e) as [s0|] eqn:H0; [|discriminate].
  injection Hs as <-. destruct (reconcile_keeps s0) as (V & _ & S & R & _).
  apply (hist_ok_ext _ s0); [rewrite V; reflexivity | exact S | exact R |].
  exact (step0_ok st e s0 H H0).
Qed.

Lemma run_ok st es st' : hist_ok st -> run st es = Some st' -> hist_ok st'.
Proof.
  revert st. induction es as [|e es IH]; intros st H Hr; cbn in Hr; [injection Hr as <-; exact H|].
  destruct (step st e) as [s1|] eqn:E; [|discriminate]. exact (IH s1 (step_ok st e s1 H E) Hr).
Qed.

(** ** Properties *)

(** C3: The history holds completed trips only: from the app's start
    with a stored history of completed trips, after any sequence of
    events (requests answered in any order, deliveries at any time),
    every trip shown in the history and every trip stored in
    [driver_trip_history] has status completed. *)
Theorem history_only_completed srv stored g es st :
  (forall h, stored = Some h -> completed_only h) ->
  run (app_init srv stored g) es = Some st ->
  completed_only (tripHistory (view st)) /\
  (forall h, stored_history (env st) = Some h -> completed_only h).
Proof.
  intros Hs Hr. assert (H0 : hist_ok (app_init srv stored g)).
  { split; [constructor|]. split; [exact Hs | apply map_Forall_empty]. }
  destruct (run_ok _ es st H0 Hr) as (H1 & H2 & _). split; assumption.
Qed.

End History.

(** Witness of [history_only_completed]: the specification's scenario
    from the demo set, with nothing stored. *)
Lemma history_only_completed_witness :
  exists st, run demo_init scen_complete = Some st /\
    completed_only (tripHistory (view st)) /\
    (forall h, stored_history (env st) = Some h -> completed_only h).
Proof.
  eexists. split; [vm_compute; reflexivity|].
  apply (history_only_completed [b1; b2] None demo_bg scen_complete);
    [intros h E; discriminate E | vm_compute; reflexivity].
Defined.
