(* ===== verification/Dashboard.v ===== *)
(** The driver dashboard (src/components/DriverApp.tsx, components
    [DriverDashboard], [DriverTopBar], [TripHistoryItem] and the choice
    between the dashboard and ActiveTripView in [DriverApp]'s render).

    Module [Dash] holds what the dashboard shows as data: the top bar's
    earnings, the request tab's badge, and the panel under the GO
    button (offline message, request cards with their [index], the
    searching indicator, or the earnings tab with the trip count, the
    total and the five most recent trips).  [app_screen] is DriverApp's
    render of a state of the controller model (DriverApp.v), with the
    dashboard's [activeTab] as a parameter (DashUi.v holds it as the
    dashboard's state, with the tab clicks).  The controller model's [card_shown] ignores the
    tab; [card_shown_on_requests_tab] proves it is exactly "the card is
    on the request tab of the rendered screen".

    The dashboard map's two effects are modelled as the commands they
    send to the map: the map is created once per mount, centred on the
    first position (or the default centre), and the driver marker is
    created on the first position and moved afterwards. *)

From Stdlib Require Import String List Bool Arith QArith.
From stdpp Require Import base list.
From S2P Require Import Prelude Types JsText Fares RequestCard TripStateMachine Backend DriverApp DriverRuns.
Import ListNotations Js App.

Module Dash.

(** [activeTab]. *)
Inductive tab : Type := TabRequests | TabEarnings.

(** [StatusIndicator]'s two renders: [youAreOffline] or the pulsing
    [searching] indicator. *)
Inductive indicator : Type := IYouAreOffline | ISearching.

(** [StatusIndicator]: [if (!isOnline) return ... t('youAreOffline')],
    otherwise the searching indicator. *)
Definition StatusIndicator (isOnline : bool) : indicator :=
  if negb isOnline then IYouAreOffline else ISearching.

(** [GoButton]'s label: [isOnline ? t('offline') : t('online')], the
    state a click asks for. *)
Inductive go_label : Type := GoLabelOffline | GoLabelOnline.

Definition GoButton (isOnline : bool) : go_label :=
  if isOnline then GoLabelOffline else GoLabelOnline.

(** [DriverTopBar]: [rating.toFixed(1)] and [$\{earnings.toFixed(2)\}]
    (the dollar sign is literal text). *)
Definition DriverTopBar (earnings rating : jsnum) : string * string :=
  (toFixed 1 rating, toFixed 2 earnings).

(** [rating={4.8}]. *)
Definition driver_rating : jsnum := JNum (48 # 10).

(** What the bottom sheet shows. *)
Inductive panel : Type :=
| POffline                                  (** [youAreOffline], [goOnlineMessage] *)
| PCards (cards : list (nat * Booking))     (** [RequestCard]s with their [index] *)
| PIndicator (i : indicator)                (** [<StatusIndicator isOnline={isOnline} />] *)
| PEarnings (count : nat) (total : string) (recent : option (list Booking)).
    (** the trip count, [$earnings.toFixed(2)], and the
        [TripHistoryItem]s or [noCompletedTrips] when [None] *)

(** [pendingRequests.map((req, index) => <RequestCard index={index} .../>)]. *)
Fixpoint indexed {T} (i : nat) (l : list T) : list (nat * T) :=
  match l with
  | [] => []
  | x :: l' => (i, x) :: indexed (S i) l'
  end.

(** The bottom sheet of [DriverDashboard]. *)
Definition panel_of (isOnline : bool) (activeTab : tab) (pendingRequests tripHistory : list Booking)
    (earnings : jsnum) : panel :=
  if negb isOnline then POffline
  else match activeTab with
       | TabRequests =>
           if 0 <? length pendingRequests then PCards (indexed 0 pendingRequests)
           else PIndicator (StatusIndicator isOnline)
       | TabEarnings =>
           PEarnings (length tripHistory) (toFixed 2 earnings)
             (if 0 <? length tripHistory then Some (firstn 5 tripHistory) else None)
       end.

(** The request tab's badge: [pendingRequests.length > 0 && ...]. *)
Definition badge (pendingRequests : list Booking) : option nat :=
  if 0 <? length pendingRequests then Some (length pendingRequests) else None.

(** A line of the trip history: the service and distance shown, and
    the price [$((parseFloat(distance || '0') * 0.5) + 2).toFixed(2)]. *)
Definition history_item (b : Booking) : string * option string * string :=
  (b_service b, b_distance b, Fares.price b).

(** The screen of [DriverApp]: ActiveTripView keyed by the active trip,
    or the dashboard with the top bar (rating and earnings texts), the
    GO button's label, the badge and the panel. *)
Inductive screen : Type :=
| SActiveTrip (key : string) (trip : Booking)
| SDashboard (top : string * string) (go : go_label) (badge : option nat) (body : panel).

Definition app_screen (st : App) (activeTab : tab) : screen :=
  let v := view st in
  match activeTrip (allBookings v) with
  | Some t => SActiveTrip (b_id t) t
  | None =>
      let pending := pendingRequests (allBookings v) in
      SDashboard (DriverTopBar (Fares.earnings (tripHistory v)) driver_rating) (GoButton (isOnline v))
        (badge pending)
        (panel_of (isOnline v) activeTab pending (tripHistory v) (Fares.earnings (tripHistory v)))
  end.

(** The request cards on a screen. *)
Definition cards_on_screen (s : screen) : list (nat * Booking) :=
  match s with
  | SDashboard _ _ _ (PCards cs) => cs
  | _ => []
  end.

(** The event a card's button sends: DriverApp passes [handleDecline]
    and [handleAccept] down as [onDecline] and [onAccept]. *)
Definition card_event (a : Card.card_action * string) : event :=
  match a with
  | (Card.CardDecline, id) => Decline id
  | (Card.CardAccept, id) => Accept id
  end.

(** The controls of the dashboard and the events their clicks send: the
    GO button ([onToggleOnline={handleToggleOnline}]) and both buttons
    of every request card listed.  (ActiveTripView's controls are the
    trip buttons of DriverApp.v, guarded by [button_shown].) *)
Definition dashboard_controls (s : screen) : list event :=
  match s with
  | SActiveTrip _ _ => []
  | SDashboard _ _ _ body =>
      ToggleOnline ::
      match body with
      | PCards cs => flat_map (fun kb => map card_event (Card.card_buttons (snd kb))) cs
      | _ => []
      end
  end.

(** The controller's events that a click on the dashboard can send. *)
Definition ui_event (e : event) : bool :=
  match e with ToggleOnline | Accept _ | Decline _ => true | _ => false end.

(** ** The dashboard map

    [mapRef] (the centre the map was created with), [driverMarkerRef]
    (where the marker is), the last [panTo] target, whether the
    grayscale filter is on, and the dependencies of the last render
    ([driverPosition]'s identity and [isOnline]; [driverIcon] is
    memoised once per mount).  [driverPosition] is compared by
    identity: every location callback with a truthy latitude sets a new
    array. *)
Record DashMap : Type := mkDashMap {
  dm_map : option LatLngTuple;
  dm_marker : option LatLngTuple;
  dm_adds : nat;                      (** [L.marker(...).addTo(map)] calls *)
  dm_view : option LatLngTuple;
  dm_gray : bool;
  dm_deps : option (nat * bool)
}.

Definition dm_init : DashMap := mkDashMap None None 0 None false None.

(** [[15.3694, 44.1910]]. *)
Definition default_center : LatLngTuple := (153694 # 10000, 441910 # 10000).

(** The first effect: [if (mapContainerRef.current && !mapRef.current)]
    create the map at [driverPosition || [15.3694, 44.1910]]. *)
Definition map_effect (driverPosition : option LatLngTuple) (m : DashMap) : DashMap :=
  match dm_map m with
  | Some _ => m
  | None =>
      let c := match driverPosition with Some p => p | None => default_center end in
      mkDashMap (Some c) (dm_marker m) (dm_adds m) (dm_view m) (dm_gray m) (dm_deps m)
  end.

(** The second effect: without a map it returns at once; otherwise the
    marker is created or moved and the map panned when there is a
    position, and the filter follows [isOnline]. *)
Definition marker_effect (isOnline : bool) (driverPosition : option LatLngTuple) (m : DashMap) : DashMap :=
  match dm_map m with
  | None => m
  | Some _ =>
      match driverPosition with
      | Some p =>
          let adds := match dm_marker m with None => S (dm_adds m) | Some _ => dm_adds m end in
          mkDashMap (dm_map m) (Some p) adds (Some p) (negb isOnline) (dm_deps m)
      | None => mkDashMap (dm_map m) (dm_marker m) (dm_adds m) (dm_view m) (negb isOnline) (dm_deps m)
      end
  end.

(** A render of the mounted dashboard with [isOnline] and
    [driverPosition] (of identity [pos_id]): the effects run in order,
    each when one of its dependencies changed (both on mount). *)
Definition dash_render (isOnline : bool) (driverPosition : option LatLngTuple) (pos_id : nat)
    (m : DashMap) : DashMap :=
  let runs := match dm_deps m with
              | None => (true, true)
              | Some (i, o) => (negb (Nat.eqb i pos_id), negb (Nat.eqb i pos_id) || negb (Bool.eqb o isOnline))
              end in
  let m1 := if fst runs then map_effect driverPosition m else m in
  let m2 := if snd runs then marker_effect isOnline driverPosition m1 else m1 in
  mkDashMap (dm_map m2) (dm_marker m2) (dm_adds m2) (dm_view m2) (dm_gray m2) (Some (pos_id, isOnline)).

(** A render's props: [isOnline], [driverPosition] and its identity. *)
Definition props : Type := (bool * option LatLngTuple * nat)%type.

Definition dash_run (m : DashMap) (rs : list props) : DashMap :=
  fold_left (fun m '(o, p, i) => dash_render o p i m) rs m.

(** The last known position of a run of renders. *)
Definition upd (ls p : option LatLngTuple) : option LatLngTuple :=
  match p with Some q => Some q | None => ls end.

Definition last_pos (ls : option LatLngTuple) (rs : list props) : option LatLngTuple :=
  fold_left (fun ls '(_, p, _) => upd ls p) rs ls.

(** Identities are faithful: two consecutive renders with the same
    array identity have the same position. *)
Fixpoint ids_consistent (prev : props) (rs : list props) : Prop :=
  match rs with
  | [] => True
  | r :: rs' => (snd prev = snd r -> snd (fst prev) = snd (fst r)) /\ ids_consistent r rs'
  end.

(** What a mounted dashboard's map looks like after the renders so far:
    the map created once at [c], the marker created once and at the last
    known position [ls], the view panned there, the filter and the
    recorded dependencies those of the last render [prev]. *)
Definition map_inv (c : LatLngTuple) (ls : option LatLngTuple) (prev : props) (m : DashMap) : Prop :=
  dm_map m = Some c /\ dm_marker m = ls /\ dm_view m = ls /\ dm_adds m = (match ls with Some _ => 1 | None => 0 end) /\
  dm_gray m = negb (fst (fst prev)) /\ dm_deps m = Some (snd prev, fst (fst prev)) /\
  (forall q, snd (fst prev) = Some q -> ls = Some q).

(** ** Lemmas *)

Lemma indexed_In {T} i (l : list T) k x :
  In (k, x) (indexed i l) <-> i <= k /\ nth_error l (k - i) = Some x.
Proof.
  revert i. induction l as [|y l IH]; intros i; cbn.
  - split; [contradiction|]. intros [_ H]. destruct (k - i); discriminate.
  - rewrite IH. split.
    + intros [E|[Hle Hn]]; [injection E as <- <-; rewrite Nat.sub_diag; auto|].
      split; [lia|]. replace (k - i) with (S (k - S i)) by lia. exact Hn.
    + intros [Hle Hn]. destruct (Nat.eq_dec k i) as [->|Hne].
      * rewrite Nat.sub_diag in Hn. injection Hn as ->. auto.
      * right. split; [lia|]. replace (k - i) with (S (k - S i)) in Hn by lia. exact Hn.
Qed.

Lemma indexed_ids {T} i (l : list T) x : (exists k, In (k, x) (indexed i l)) <-> In x l.
Proof.
  setoid_rewrite indexed_In. split.
  - intros (k & _ & Hn). eapply nth_error_In, Hn.
  - intros Hin. destruct (In_nth_error _ _ Hin) as (n & Hn).
    exists (n + i). split; [lia|]. rewrite Nat.add_sub. exact Hn.
Qed.

Lemma dash_mount_inv o p i :
  map_inv (match p with Some q => q | None => default_center end) (upd None p) (o, p, i)
          (dash_render o p i dm_init).
Proof. unfold map_inv. destruct p as [q|]; cbn; repeat split; congruence. Qed.

Lemma dash_render_inv c ls prev o p i m :
  map_inv c ls prev m -> (snd prev = i -> snd (fst prev) = p) ->
  map_inv c (upd ls p) (o, p, i) (dash_render o p i m).
Proof.
  destruct prev as [[o' p'] i'], m as [mm mk ma mv mg md]. unfold map_inv, dash_render. cbn.
  intros (-> & -> & -> & -> & -> & -> & Hs) Hc. cbn.
  destruct (Nat.eqb i' i) eqn:Ei; [apply Nat.eqb_eq in Ei; specialize (Hc Ei); subst p'|];
    cbn; [destruct (Bool.eqb o' o) eqn:Eo; [apply Bool.eqb_prop in Eo; subst o'|]|]; cbn;
    destruct p as [q|]; cbn; try rewrite (Hs q eq_refl); destruct ls; cbn; repeat split; congruence.
Qed.

Lemma dash_run_inv rs c ls prev m :
  map_inv c ls prev m -> ids_consistent prev rs ->
  map_inv c (last_pos ls rs) (List.last rs prev) (dash_run m rs).
Proof.
  revert c ls prev m. induction rs as [|[[o p] i] rs IH]; intros c ls prev m Hm Hc; [exact Hm|].
  destruct Hc as [H1 Hc]. cbn [dash_run last_pos fold_left].
  rewrite last_cons.
  apply (IH c (upd ls p) (o, p, i) (dash_render o p i m)); [apply (dash_render_inv c ls prev); assumption | exact Hc].
Qed.

Lemma pending_cards (l : list Booking) id :
  existsb (fun b => String.eqb (b_id b) id) l = true <->
  exists k b, In (k, b) (if 0 <? length l then indexed 0 l else []) /\ b_id b = id.
Proof.
  rewrite existsb_exists. destruct l as [|b0 l0]; cbn -[indexed].
  - split; [intros (? & [] & _) | intros (? & ? & [] & _)].
  - split.
    + intros (b & Hin & E). apply String.eqb_eq in E.
      destruct (proj2 (indexed_ids 0 (b0 :: l0) b) Hin) as (k & Hk). eauto.
    + intros (k & b & Hk & E). exists b. split; [apply (proj1 (indexed_ids 0 (b0 :: l0) b)); eauto|].
      apply String.eqb_eq, E.
Qed.

Lemma in_card_events (cs : list (nat * Booking)) e :
  In e (flat_map (fun kb => map card_event (Card.card_buttons (snd kb))) cs) <->
  exists k b, In (k, b) cs /\ (e = Decline (b_id b) \/ e = Accept (b_id b)).
Proof.
  rewrite in_flat_map. split.
  - intros ([k b] & Hin & He). exists k, b. split; [exact Hin|].
    destruct He as [<- | [<- | []]]; auto.
  - intros (k & b & Hin & He). exists (k, b). split; [exact Hin|].
    destruct He as [-> | ->]; cbn; auto.
Qed.

(** The cards on the request tab are the pending requests, when the
    dashboard is up and online. *)
Lemma card_shown_iff_on_screen st id :
  card_shown id st = true <->
  exists k b, In (k, b) (cards_on_screen (app_screen st TabRequests)) /\ b_id b = id.
Proof.
  unfold card_shown, dashboard_shown, app_screen, cards_on_screen, panel_of.
  destruct (activeTrip (allBookings (view st))); cbn [andb negb].
  - split; [discriminate | intros (? & ? & [] & _)].
  - destruct (isOnline (view st)); cbn [andb negb].
    + rewrite pending_cards. destruct (0 <? length _); reflexivity.
    + split; [discriminate | intros (? & ? & [] & _)].
Qed.

Lemma controls_of_screen st e :
  In e (dashboard_controls (app_screen st TabRequests)) <->
  dashboard_shown st = true /\
  (e = ToggleOnline \/
   exists k b, In (k, b) (cards_on_screen (app_screen st TabRequests)) /\
               (e = Decline (b_id b) \/ e = Accept (b_id b))).
Proof.
  unfold dashboard_shown. destruct (app_screen st TabRequests) eqn:E; unfold app_screen in E;
    destruct (activeTrip (allBookings (view st))); try discriminate E; cbn.
  - split; [intros [] | intros [? _]; discriminate].
  - injection E as <- <- <- <-.
    destruct (panel_of _ _ _ _ _) as [|cs|i|c t r]; cbn;
      (split; [intros [<- | H]; (split; [reflexivity|]); [left; reflexivity | right]
              | intros [_ [<- | H]]; [left; reflexivity | right]]);
      try (apply in_card_events; exact H); try destruct H as (? & ? & [] & _); destruct H.
Qed.

Lemma card_shown_dashboard st id : card_shown id st = true -> dashboard_shown st = true.
Proof. unfold card_shown. destruct (dashboard_shown st); [reflexivity | discriminate]. Qed.

(** A card button sends [Accept id] (or [Decline id]) exactly when a
    card of booking [id] is listed. *)
Lemma accept_button_on_screen (cs : list (nat * Booking)) id :
  (exists k b, In (k, b) cs /\ (Accept id = Decline (b_id b) \/ Accept id = Accept (b_id b))) <->
  exists k b, In (k, b) cs /\ b_id b = id.
Proof.
  split; intros (k & b & H & E); exists k, b; split; try exact H.
  - destruct E as [E | E]; [discriminate E | injection E as ->; reflexivity].
  - right. rewrite E. reflexivity.
Qed.

Lemma decline_button_on_screen (cs : list (nat * Booking)) id :
  (exists k b, In (k, b) cs /\ (Decline id = Decline (b_id b) \/ Decline id = Accept (b_id b))) <->
  exists k b, In (k, b) cs /\ b_id b = id.
Proof.
  split; intros (k & b & H & E); exists k, b; split; try exact H.
  - destruct E as [E | E]; [injection E as ->; reflexivity | discriminate E].
  - left. rewrite E. reflexivity.
Qed.

(** A card's button is on screen exactly when the controller shows the
    card. *)
Lemma card_button_enabled st id :
  dashboard_shown st = true /\
  (exists k x, In (k, x) (cards_on_screen (app_screen st TabRequests)) /\ b_id x = id)
  <-> card_shown id st = true.
Proof.
  rewrite card_shown_iff_on_screen. split; [tauto|].
  intros H. split; [|exact H]. apply (card_shown_dashboard st id), card_shown_iff_on_screen, H.
Qed.

Lemma toggle_on_screen st :
  In ToggleOnline (dashboard_controls (app_screen st TabRequests)) <-> dashboard_shown st = true.
Proof. rewrite controls_of_screen. split; [tauto | intros D; split; [exact D | left; reflexivity]]. Qed.

Lemma accept_on_screen st id :
  In (Accept id) (dashboard_controls (app_screen st TabRequests)) <-> card_shown id st = true.
Proof.
  rewrite controls_of_screen, <- card_button_enabled, <- accept_button_on_screen.
  split; [intros [D [E | X]]; [discriminate E | split; assumption] | intros [D X]; split; [exact D | right; exact X]].
Qed.

Lemma decline_on_screen st id :
  In (Decline id) (dashboard_controls (app_screen st TabRequests)) <-> card_shown id st = true.
Proof.
  rewrite controls_of_screen, <- card_button_enabled, <- decline_button_on_screen.
  split; [intros [D [E | X]]; [discriminate E | split; assumption] | intros [D X]; split; [exact D | right; exact X]].
Qed.

(** [StatusIndicator] is only rendered in the online branch of the
    bottom sheet, so its offline text is never shown. *)
Lemma status_indicator_offline_unreachable isOnline activeTab pending history earnings :
  panel_of isOnline activeTab pending history earnings <> PIndicator IYouAreOffline.
Proof.
  unfold panel_of. destruct isOnline, activeTab; cbn -[Nat.ltb]; try destruct (0 <? length pending);
    discriminate.
Qed.

(** ** Properties *)

(** The controller model's [card_shown] (the guard of accept and
    decline) is the rendered screen's: a request card for [id] is shown
    exactly when the request tab of DriverApp's screen lists a card whose
    booking has that id; the earnings tab lists none. *)
Theorem card_shown_on_requests_tab st id :
  (card_shown id st = true <->
   exists k b, In (k, b) (cards_on_screen (app_screen st TabRequests)) /\ b_id b = id) /\
  cards_on_screen (app_screen st TabEarnings) = [].
Proof.
  split; [apply card_shown_iff_on_screen|].
  unfold app_screen, cards_on_screen, panel_of.
  destruct (activeTrip _); [reflexivity|]. destruct (negb _); reflexivity.
Qed.

(** The dashboard map follows the driver: over any run of renders
    of a mounted dashboard (array identities faithful), the map is
    created once, centred on the first render's position or the default
    centre; the marker is created at most once, exactly when some
    position was known, and it and the view are at the last known
    position; the grayscale filter is on exactly when the last render
    was offline. *)
Theorem marker_follows_last_position r rs :
  ids_consistent r rs ->
  dm_map (dash_run dm_init (r :: rs)) =
    Some (match snd (fst r) with Some q => q | None => default_center end) /\
  dm_marker (dash_run dm_init (r :: rs)) = last_pos None (r :: rs) /\
  dm_view (dash_run dm_init (r :: rs)) = last_pos None (r :: rs) /\
  dm_adds (dash_run dm_init (r :: rs)) = (match last_pos None (r :: rs) with Some _ => 1 | None => 0 end) /\
  dm_gray (dash_run dm_init (r :: rs)) = negb (fst (fst (List.last rs r))).
Proof.
  intros Hc. destruct r as [[o p] i].
  destruct (dash_run_inv rs _ _ _ _ (dash_mount_inv o p i) Hc) as (H1 & H2 & H3 & H4 & H5 & _).
  repeat split; assumption.
Qed.

Section Controls.
Context `{Db : BookingDb}.

(** C8: The dashboard's controls refine the controller's events: a
    click the dashboard can send (GO, decline, accept) is a control of
    the rendered request tab exactly when the controller accepts the
    event in that state; and accepting a card on screen always sends
    the accept request for that card's booking (while the dashboard is
    up there is no active trip, so [handleAccept]'s guard never
    blocks). *)
Theorem dashboard_controls_enabled st e :
  ui_event e = true ->
  (In e (dashboard_controls (app_screen st TabRequests)) <-> step0 st e <> None) /\
  (forall id, In (Accept id) (dashboard_controls (app_screen st TabRequests)) ->
     step0 st (Accept id) = Some (issue id Accepted st)).
Proof.
  intros Hu. split.
  - destruct e as [| | |id|id| | | |]; try discriminate Hu; cbn [step0];
      [rewrite toggle_on_screen | rewrite accept_on_screen | rewrite decline_on_screen]; apply if_some_iff.
  - intros id H. apply accept_on_screen in H. cbn [step0]. rewrite H.
    pose proof (card_shown_dashboard _ _ H) as D. unfold dashboard_shown in D. unfold handleAccept.
    destruct (activeTrip _); [discriminate D | reflexivity].
Qed.

End Controls.

End Dash.

(** ** Witnesses *)

Import Dash.

(** Mount offline without a position, then two location callbacks while
    going online, then a re-render with the same array. *)
Definition demo_renders : list props :=
  [(true, Some (1531 # 100, 4421 # 100), 1); (false, Some (1532 # 100, 4421 # 100), 2);
   (false, Some (1532 # 100, 4421 # 100), 2)].

Lemma marker_follows_last_position_witness :
  ids_consistent (false, None, 0) demo_renders /\
  dm_map (dash_run dm_init ((false, None, 0) :: demo_renders)) = Some default_center /\
  dm_marker (dash_run dm_init ((false, None, 0) :: demo_renders)) = Some (1532 # 100, 4421 # 100) /\
  dm_view (dash_run dm_init ((false, None, 0) :: demo_renders)) = Some (1532 # 100, 4421 # 100) /\
  dm_adds (dash_run dm_init ((false, None, 0) :: demo_renders)) = 1 /\
  dm_gray (dash_run dm_init ((false, None, 0) :: demo_renders)) = true.
Proof.
  assert (H : ids_consistent (false, None, 0) demo_renders)
    by (cbn; repeat split; intros E; try discriminate E; reflexivity).
  split; [exact H|]. exact (marker_follows_last_position (false, None, 0) demo_renders H).
Defined.

(** After the specification's scenario the dashboard is back, on the
    request tab with b2's card at index 0 and a badge of one; the
    earnings tab counts one trip and shows its fare. *)
Example scenario_dashboard :
  on_some (run demo_init scen_complete) (fun st =>
    app_screen st TabRequests = SDashboard ("4.8"%string, "4.50"%string) GoLabelOffline (Some 1) (PCards [(0, b2)]) /\
    app_screen st TabEarnings =
      SDashboard ("4.8"%string, "4.50"%string) GoLabelOffline (Some 1)
        (PEarnings 1 "4.50" (Some [with_status b1 Completed])) /\
    map history_item (tripHistory (view st)) = [("car", Some "5", "4.50")]%string).
Proof. vm_compute. repeat split. Qed.

(** Witness of [dashboard_controls_enabled]: after the specification's
    scenario, accepting b2's card on the request tab. *)
Lemma dashboard_controls_enabled_witness :
  exists st, run demo_init scen_complete = Some st /\ ui_event (Accept "b2"%string) = true /\
    (In (Accept "b2"%string) (dashboard_controls (app_screen st TabRequests)) <->
     step0 st (Accept "b2"%string) <> None) /\
    (forall id, In (Accept id) (dashboard_controls (app_screen st TabRequests)) ->
       step0 st (Accept id) = Some (issue id Accepted st)).
Proof.
  eexists. split; [vm_compute; reflexivity|]. split; [reflexivity|].
  apply (dashboard_controls_enabled _ (Accept "b2"%string)). reflexivity.
Defined.
