(* ===== verification/MapLife.v ===== *)
(** The Leaflet map instances of the app's views: the map-creation
    effects of DriverDashboard (DriverApp.tsx, lines 118-123),
    ActiveTripView (ActiveTripView.tsx, lines 45-48) and MapPicker
    (MapPicker.tsx, lines 143-186), with what happens to each map when
    its view unmounts.

    Every effect creates its map behind the same guard,
    [if (mapContainerRef.current && !mapRef.current)]; only MapPicker's
    effect returns a cleanup that calls [map.remove()].  React detaches
    the refs of an unmounted view ([mapContainerRef.current] becomes
    null) and drops its [useRef] boxes.  Module [MapLife] counts the
    maps created and removed:

    - DriverApp shows the dashboard or ActiveTripView keyed by the
      active trip ([Dash.app_screen]); each change of the shown view
      unmounts the old view without removing its map and mounts the new
      one, whose effect creates a map.  [maps_leak_per_view_switch]: the
      maps created and never removed are one more than the number of
      switches, while one is on screen.
    - MapPicker's [initializeMap] awaits the position before creating the
      map, so its answer can come after an unmount or a remount; its
      cleanup removes the map.  [picker_map_released]: in every order of
      mounts, answers and unmounts, at most one picker map is alive, and
      none once the picker is unmounted. *)

From Stdlib Require Import String List Bool Arith Lia.
From S2P Require Import Prelude Types Backend DriverApp DriverRuns Dashboard.
Import ListNotations App.

Module MapLife.

(** A view's map refs: whether [mapContainerRef.current] is attached
    and whether [mapRef.current] holds a map. *)
Record view_map : Type := mkViewMap { vm_container : bool; vm_map : bool }.

(** The maps created ([L.map(...)]) and removed ([map.remove()]). *)
Record maps : Type := mkMaps { created : nat; removed : nat }.

(** The maps created and not removed. *)
Definition live (g : maps) : nat := created g - removed g.

(** The guard of the three map effects:
    [if (mapContainerRef.current && !mapRef.current)] create the map and
    store it in [mapRef.current]. *)
Definition init_map (v : view_map) (g : maps) : view_map * maps :=
  if vm_container v && negb (vm_map v)
  then (mkViewMap (vm_container v) true, mkMaps (S (created g)) (removed g))
  else (v, g).

(** A view just mounted: its container attached, [useRef(null)]. *)
Definition fresh_view : view_map := mkViewMap true false.

(** ** DriverApp's two map views *)

(** The view DriverApp shows: the dashboard, or ActiveTripView with its
    [key={activeTrip.id}]. *)
Inductive shown_view : Type := VDashboard | VTrip (key : string).

Definition view_of_screen (s : Dash.screen) : shown_view :=
  match s with
  | Dash.SActiveTrip k _ => VTrip k
  | Dash.SDashboard _ _ _ _ => VDashboard
  end.

(** Whether React keeps the mounted view: same component, same key. *)
Definition same_view (a b : shown_view) : bool :=
  match a, b with
  | VDashboard, VDashboard => true
  | VTrip k, VTrip k' => String.eqb k k'
  | _, _ => false
  end.

(** A render of DriverApp showing [w] after a render that showed [cur]
    with map refs [v]: the same view re-renders and its effect (run
    again when [driverPosition] or [trip.status] changed) finds its map;
    another view unmounts [cur], whose effect returned no cleanup, and
    mounts [w], whose effect creates a map. *)
Definition app_render (w : shown_view) (st : shown_view * view_map * maps) : shown_view * view_map * maps :=
  let '(cur, v, g) := st in
  if same_view cur w then let '(v', g') := init_map v g in (cur, v', g')
  else let '(v', g') := init_map fresh_view g in (w, v', g').

(** The first render of DriverApp. *)
Definition app_mount (w : shown_view) : shown_view * view_map * maps :=
  let '(v, g) := init_map fresh_view (mkMaps 0 0) in (w, v, g).

Definition app_renders (w0 : shown_view) (ws : list shown_view) : shown_view * view_map * maps :=
  fold_left (fun st w => app_render w st) ws (app_mount w0).

(** The number of times the shown view changes. *)
Fixpoint switches (w : shown_view) (ws : list shown_view) : nat :=
  match ws with
  | [] => 0
  | w' :: ws' => (if same_view w w' then 0 else 1) + switches w' ws'
  end.

(** The views DriverApp shows over a run of the controller: the screen
    rendered after each event ([app_screen]). *)
Fixpoint run_views `{BookingDb} (st : App) (es : list event) : list shown_view :=
  match es with
  | [] => []
  | e :: es' =>
      match step st e with
      | Some st' => view_of_screen (Dash.app_screen st' Dash.TabRequests) :: run_views st' es'
      | None => []
      end
  end.

(** ** MapPicker's map *)

(** The mounted MapPicker instance with its refs, the instances whose
    [initializeMap] is suspended at [await getCurrentPosition], and the
    maps. *)
Record picker_life : Type := mkPickerLife {
  pl_view : option (nat * view_map);
  pl_pending : list nat;
  pl_next : nat;
  pl_maps : maps
}.

Definition pl_init : picker_life := mkPickerLife None [] 0 (mkMaps 0 0).

Inductive life_event : Type :=
| LMount              (** MapPicker mounts: its effect calls [initializeMap] *)
| LAnswer (i : nat)   (** instance [i]'s position (or its failure) arrives *)
| LUnmount.           (** MapPicker unmounts: the effect's cleanup runs *)

(** The cleanup: [if (mapRef.current) { mapRef.current.remove();
    mapRef.current = null; }]. *)
Definition picker_cleanup (v : view_map) (g : maps) : view_map * maps :=
  if vm_map v then (mkViewMap (vm_container v) false, mkMaps (created g) (S (removed g)))
  else (v, g).

Definition life_step (l : picker_life) (e : life_event) : option picker_life :=
  match e with
  | LMount =>
      match pl_view l with
      | Some _ => None
      | None => Some (mkPickerLife (Some (pl_next l, fresh_view)) (pl_pending l ++ [pl_next l])
                                   (S (pl_next l)) (pl_maps l))
      end
  | LAnswer i =>
      if existsb (Nat.eqb i) (pl_pending l) then
        let ps := filter (fun j => negb (Nat.eqb j i)) (pl_pending l) in
        match pl_view l with
        | Some (j, v) =>
            (* the continuation reads its own instance's refs: only the
               mounted instance still has its container *)
            if Nat.eqb i j then let '(v', g) := init_map v (pl_maps l) in
                                Some (mkPickerLife (Some (j, v')) ps (pl_next l) g)
            else Some (mkPickerLife (pl_view l) ps (pl_next l) (pl_maps l))
        | None => Some (mkPickerLife None ps (pl_next l) (pl_maps l))
        end
      else None
  | LUnmount =>
      match pl_view l with
      | Some (_, v) => let '(_, g) := picker_cleanup v (pl_maps l) in
                       Some (mkPickerLife None (pl_pending l) (pl_next l) g)
      | None => None
      end
  end.

Fixpoint life_run (l : picker_life) (es : list life_event) : option picker_life :=
  match es with
  | [] => Some l
  | e :: es' => match life_step l e with Some l' => life_run l' es' | None => None end
  end.

(** The picker's maps: removed ones never outnumber created ones, and
    the live ones are the mounted instance's map, if it has one. *)
Definition picker_ok (l : picker_life) : Prop :=
  removed (pl_maps l) <= created (pl_maps l) /\
  live (pl_maps l) = match pl_view l with Some (_, v) => if vm_map v then 1 else 0 | None => 0 end /\
  match pl_view l with Some (_, v) => vm_container v = true | None => True end.

(** ** Lemmas *)

Lemma same_view_eq a b : same_view a b = true -> a = b.
Proof. destruct a, b; cbn; try discriminate; [reflexivity|]. intros E. apply String.eqb_eq in E. congruence. Qed.

(** Renders of DriverApp from a view with its map: each switch creates a
    map, none is removed. *)
Lemma renders_maps cur n ws :
  fold_left (fun st w => app_render w st) ws (cur, mkViewMap true true, mkMaps n 0) =
  (last ws cur, mkViewMap true true, mkMaps (n + switches cur ws) 0).
Proof.
  revert cur n. induction ws as [|w ws IH]; intros cur n; cbn [fold_left switches].
  - rewrite Nat.add_0_r. reflexivity.
  - rewrite last_cons. unfold app_render at 2. destruct (same_view cur w) eqn:E; cbn -[last].
    + apply same_view_eq in E. subst w. rewrite IH. reflexivity.
    + rewrite IH, Nat.add_succ_r. reflexivity.
Qed.

Lemma life_step_ok l e l' : picker_ok l -> life_step l e = Some l' -> picker_ok l'.
Proof.
  destruct l as [[[j v]|] ps nx [c r]], e as [|i|]; unfold picker_ok, live; cbn;
    intros (H1 & H2 & H3) Hs; try discriminate Hs.
  - destruct (existsb _ ps); [|discriminate]. destruct (i =? j).
    + unfold init_map in Hs. destruct v as [[|] [|]]; cbn in *; injection Hs as <-; cbn; lia.
    + injection Hs as <-; cbn. auto.
  - unfold picker_cleanup in Hs. destruct v as [vc [|]]; injection Hs as <-; cbn in *; lia.
  - injection Hs as <-; cbn. auto.
  - destruct (existsb _ ps); [|discriminate]. injection Hs as <-; cbn. auto.
Qed.

Lemma life_run_ok l es l' : picker_ok l -> life_run l es = Some l' -> picker_ok l'.
Proof.
  revert l. induction es as [|e es IH]; intros l H Hr; cbn in Hr; [injection Hr as <-; exact H|].
  destruct (life_step l e) as [l1|] eqn:E; [|discriminate]. exact (IH l1 (life_step_ok l e l1 H E) Hr).
Qed.

(** ** Properties *)

(** C20: DriverApp leaks a Leaflet map per change of the shown view:
    over any run of the controller from any state, the maps created by
    the dashboard's and ActiveTripView's effects and never removed are
    one more than the number of times the shown view changed (dashboard
    to trip, trip to dashboard, or to another trip's keyed view), while
    exactly one is on screen: neither effect returns a cleanup. *)
Theorem maps_leak_per_view_switch `{BookingDb} st0 es :
  let w0 := view_of_screen (Dash.app_screen st0 Dash.TabRequests) in
  let ws := run_views st0 es in
  removed (snd (app_renders w0 ws)) = 0 /\
  live (snd (app_renders w0 ws)) = 1 + switches w0 ws /\
  fst (fst (app_renders w0 ws)) = last ws w0 /\
  vm_map (snd (fst (app_renders w0 ws))) = true.
Proof.
  intros w0 ws. unfold app_renders, app_mount, init_map. cbn.
  rewrite renders_maps. cbn. unfold live. cbn. repeat split.
Qed.

(** C31: MapPicker releases its map: in every order of mounts, answers
    of the initial geolocation and unmounts (an answer arriving after
    its instance unmounted, or after a remount, included), at most one
    picker map is alive, and none once the picker is unmounted. *)
Theorem picker_map_released es l :
  life_run pl_init es = Some l ->
  live (pl_maps l) <= 1 /\ (pl_view l = None -> live (pl_maps l) = 0).
Proof.
  intros Hr. assert (H0 : picker_ok pl_init) by (unfold picker_ok; cbn; auto).
  destruct (life_run_ok _ _ _ H0 Hr) as (_ & H2 & _). rewrite H2.
  split; [destruct (pl_view l) as [[? [? [|]]]|]; cbn; lia | intros ->; reflexivity].
Qed.

End MapLife.

Import MapLife.

(** The specification's scenario: the dashboard, b1's trip view, the
    dashboard again; three maps were created and none removed. *)
Example scenario_three_maps :
  switches VDashboard (run_views demo_init scen_complete) = 2 /\
  live (snd (app_renders VDashboard (run_views demo_init scen_complete))) = 3.
Proof. vm_compute. split; reflexivity. Qed.

(** Witness of [picker_map_released]: the picker unmounts while its
    position is pending and mounts again; the first answer arrives for
    the unmounted instance and creates nothing, the second creates the
    map, which the last unmount removes. *)
Lemma picker_map_released_witness :
  exists l, life_run pl_init [LMount; LUnmount; LMount; LAnswer 0; LAnswer 1; LUnmount] = Some l /\
    live (pl_maps l) <= 1 /\ (pl_view l = None -> live (pl_maps l) = 0).
Proof.
  eexists. split; [vm_compute; reflexivity|].
  apply (picker_map_released [LMount; LUnmount; LMount; LAnswer 0; LAnswer 1; LUnmount]).
  vm_compute. reflexivity.
Defined.
