(* ===== verification/DashUi.v ===== *)
(** DriverApp as the driver operates it: the controller model
    (DriverApp.v) with the dashboard's own state and the clicks on what
    the screen shows (DriverApp.tsx, [DriverDashboard], lines 94-216,
    and DriverApp's render, lines 300-322).

    The dashboard keeps [activeTab] in its own state
    ([useState('requests')], line 105), which React keeps while the
    dashboard stays mounted and starts afresh at every remount (after a
    trip, the dashboard is mounted again).  The tab buttons (lines
    165-170) are rendered in the online branch only.  A click reaches the
    controller only through a control on the screen: the GO button or a
    card's decline or accept button ([Dash.dashboard_controls] of the
    screen at the current tab).  The other events (subscription
    callbacks, server answers, the trip view's buttons) reach it
    directly.

    The lemmas: every run of the UI is a run of the controller with
    the events the UI sent, and React's mounted view is always the one
    on screen ([ui_run_ok]).  The theorem: an accept can only be clicked on the request tab, for a
    card the controller shows; a remounted dashboard starts on the
    request tab. *)

From Stdlib Require Import String List Bool Arith.
From S2P Require Import Prelude Types TripStateMachine Backend DriverApp DriverRuns Dashboard MapLife.
Import ListNotations App Dash MapLife.

Module DashUi.

(** The controller state, the view React has mounted, and the
    dashboard's [activeTab]. *)
Record Ui : Type := mkUi { u_app : App; u_view : shown_view; u_tab : tab }.

Inductive ui_input : Type :=
| UTab (t : tab)          (** [onClick={() => setActiveTab(...)}] on a tab button *)
| UClick (n : nat)        (** a click on the [n]-th control of the dashboard *)
| UOther (e : event).     (** an event no dashboard control sends *)

Section Ui.
Context `{Db : BookingDb}.

(** The tab bar: rendered in the online branch of the bottom sheet. *)
Definition tab_bar_shown (s : screen) : bool :=
  match s with
  | SDashboard _ _ _ POffline => false
  | SDashboard _ _ _ _ => true
  | SActiveTrip _ _ => false
  end.

(** The screen the driver sees. *)
Definition ui_screen (u : Ui) : screen := app_screen (u_app u) (u_tab u).

(** DriverApp re-renders after the controller moved to [st']: React
    keeps the mounted view (and the dashboard's tab) while the same view
    with the same key is shown, and mounts a new one otherwise, a new
    dashboard on the request tab. *)
Definition rerender (u : Ui) (st' : App) : Ui :=
  let w := view_of_screen (app_screen st' (u_tab u)) in
  if same_view (u_view u) w then mkUi st' (u_view u) (u_tab u) else mkUi st' w TabRequests.

(** One input, with the controller events it sent. *)
Definition ui_step (u : Ui) (i : ui_input) : option (Ui * list event) :=
  match i with
  | UTab t =>
      if tab_bar_shown (ui_screen u) then Some (mkUi (u_app u) (u_view u) t, []) else None
  | UClick n =>
      match nth_error (dashboard_controls (ui_screen u)) n with
      | Some e => match step (u_app u) e with
                  | Some st' => Some (rerender u st', [e])
                  | None => None
                  end
      | None => None
      end
  | UOther e =>
      if ui_event e then None
      else match step (u_app u) e with
           | Some st' => Some (rerender u st', [e])
           | None => None
           end
  end.

Fixpoint ui_run (u : Ui) (ins : list ui_input) : option (Ui * list event) :=
  match ins with
  | [] => Some (u, [])
  | i :: ins' =>
      match ui_step u i with
      | Some (u1, es1) =>
          match ui_run u1 ins' with
          | Some (u2, es2) => Some (u2, es1 ++ es2)
          | None => None
          end
      | None => None
      end
  end.

(** DriverApp's first render: the view of the screen, a dashboard on
    the request tab. *)
Definition ui_init (st : App) : Ui := mkUi st (view_of_screen (app_screen st TabRequests)) TabRequests.

(** React's mounted view is the one on screen. *)
Definition ui_ok (u : Ui) : Prop := u_view u = view_of_screen (app_screen (u_app u) TabRequests).

(** ** Lemmas *)

Lemma view_any_tab st t :
  view_of_screen (app_screen st t) = view_of_screen (app_screen st TabRequests).
Proof. unfold app_screen. destruct (activeTrip _); reflexivity. Qed.

Lemma rerender_app u st' : u_app (rerender u st') = st'.
Proof. unfold rerender. destruct (same_view _ _); reflexivity. Qed.

Lemma rerender_ok u st' : ui_ok (rerender u st').
Proof.
  unfold rerender, ui_ok. destruct (same_view _ _) eqn:E; cbn; [apply same_view_eq in E; rewrite E|];
    apply view_any_tab.
Qed.

(** A remount starts the dashboard on the request tab. *)
Lemma rerender_remount u st' : u_view (rerender u st') <> u_view u -> u_tab (rerender u st') = TabRequests.
Proof. unfold rerender. destruct (same_view _ _); cbn; [intros H; contradiction H|]; reflexivity. Qed.

Lemma run_one st e : run st [e] = step st e.
Proof. cbn. destruct (step st e); reflexivity. Qed.

(** The earnings tab has no card, hence no accept. *)
Lemma no_accept_on_earnings st id :
  ~ In (Accept id) (dashboard_controls (app_screen st TabEarnings)).
Proof.
  unfold app_screen. destruct (activeTrip _); [intros []|]. cbn.
  unfold panel_of. destruct (negb _); cbn; intuition discriminate.
Qed.

(** A step of the controller taken by the UI, whichever input sent it. *)
Lemma sent_step u e st' :
  step (u_app u) e = Some st' -> ui_ok (rerender u st') /\ run (u_app u) [e] = Some (u_app (rerender u st')).
Proof. intros E. split; [apply rerender_ok|]. rewrite run_one, E, rerender_app. reflexivity. Qed.

Lemma ui_step_ok u i u' es :
  ui_ok u -> ui_step u i = Some (u', es) -> ui_ok u' /\ run (u_app u) es = Some (u_app u').
Proof.
  intros H Hs. destruct i as [t|n|e]; cbn in Hs.
  - destruct (tab_bar_shown _); [|discriminate]. injection Hs as <- <-. split; [exact H | reflexivity].
  - destruct (nth_error _ n) as [e|]; [|discriminate].
    destruct (step (u_app u) e) as [st'|] eqn:E; [|discriminate]. injection Hs as <- <-. exact (sent_step u e st' E).
  - destruct (ui_event e); [discriminate|].
    destruct (step (u_app u) e) as [st'|] eqn:E; [|discriminate]. injection Hs as <- <-. exact (sent_step u e st' E).
Qed.

Lemma ui_run_ok u ins u' es :
  ui_ok u -> ui_run u ins = Some (u', es) -> ui_ok u' /\ run (u_app u) es = Some (u_app u').
Proof.
  revert u es. induction ins as [|i ins IH]; intros u es H Hr; cbn in Hr.
  - injection Hr as <- <-. split; [exact H | reflexivity].
  - destruct (ui_step u i) as [[u1 es1]|] eqn:E1; [|discriminate].
    destruct (ui_run u1 ins) as [[u2 es2]|] eqn:E2; [|discriminate]. injection Hr as <- <-.
    destruct (ui_step_ok u i u1 es1 H E1) as (H1 & R1). destruct (IH u1 es2 H1 E2) as (H2 & R2).
    split; [exact H2|]. rewrite run_app, R1. exact R2.
Qed.

(** ** Properties *)

(** C9: What the UI lets the driver do: an accept can only be sent from
    the request tab, for a card the controller shows (the earnings tab
    lists no card, and no other input sends an accept); and a dashboard
    mounted again, after a trip, starts on the request tab whatever
    tab the driver left it on. *)
Theorem ui_step_guards u i u' es :
  ui_step u i = Some (u', es) ->
  (forall id, In (Accept id) es -> u_tab u = TabRequests /\ card_shown id (u_app u) = true) /\
  (u_view u' <> u_view u -> u_tab u' = TabRequests).
Proof.
  intros Hs. destruct i as [t|n|e]; cbn in Hs.
  - destruct (tab_bar_shown _); [|discriminate]. injection Hs as <- <-.
    split; [intros ? []| intros H; contradiction H; reflexivity].
  - destruct (nth_error _ n) as [e|] eqn:En; [|discriminate].
    destruct (step (u_app u) e) as [st'|] eqn:E; [|discriminate]. injection Hs as <- <-.
    split; [|apply rerender_remount]. intros id [-> | []].
    apply nth_error_In in En. unfold ui_screen in En.
    destruct (u_tab u); [split; [reflexivity | apply accept_on_screen, En] | contradiction (no_accept_on_earnings _ _ En)].
  - destruct (ui_event e) eqn:Ue; [discriminate|].
    destruct (step (u_app u) e) as [st'|] eqn:E; [|discriminate]. injection Hs as <- <-.
    split; [|apply rerender_remount]. intros id [-> | []]. discriminate Ue.
Qed.

End Ui.

End DashUi.

(** ** Witnesses *)

Import DashUi Code.

(** The specification's scenario operated through the UI: the driver
    looks at the earnings tab, goes back to the requests, clicks b1's
    accept (the third control: GO, b1's decline, b1's accept), looks at
    the earnings again while the accept is in flight; the trip view
    replaces the dashboard, then the trip runs to its end. *)
Definition ui_scenario : list ui_input :=
  [UOther OnBookings; UOther OnDriverLocation; UTab TabEarnings; UTab TabRequests; UClick 2;
   UTab TabEarnings; UOther (DbWrite 0); UOther (DbReturn 0); UOther OnBookings;
   UOther (Press SlideArrived); UOther (DbWrite 1); UOther (DbReturn 1); UOther OnBookings;
   UOther (Press SlideStart); UOther (DbWrite 2); UOther (DbReturn 2); UOther OnBookings;
   UOther (Press SlideEnd); UOther (Press ConfirmCompleted); UOther (DbWrite 3);
   UOther (DbReturn 3); UOther OnBookings].

(** The UI sends exactly the scenario's events, and the dashboard that
    comes back is on the request tab although it was left on the
    earnings tab. *)
Example ui_scenario_sends_spec_events :
  on_some (ui_run (ui_init demo_init) ui_scenario) (fun p =>
    snd p = scen_complete /\ u_view (fst p) = VDashboard /\ u_tab (fst p) = TabRequests).
Proof. vm_compute. repeat split. Qed.

Lemma ui_step_guards_witness :
  exists u u' es, option_map fst (ui_run (ui_init demo_init) (firstn 4 ui_scenario)) = Some u /\
    ui_step u (UClick 2) = Some (u', es) /\
    (forall id, In (Accept id) es -> u_tab u = TabRequests /\ card_shown id (u_app u) = true) /\
    (u_view u' <> u_view u -> u_tab u' = TabRequests).
Proof.
  do 3 eexists. split; [vm_compute; reflexivity|]. split; [vm_compute; reflexivity|].
  apply (ui_step_guards _ (UClick 2)). vm_compute. reflexivity.
Defined.
