(* ===== verification/LocationTracker.v ===== *)
(** The driver's live position in ActiveTripView.tsx.

    [updatePosition] (lines 66-82) runs every second: it reads the
    [driver_location] item of localStorage, parses it, and when both
    [driver_lat] and [driver_lng] are truthy offers the pair to the
    jitter filter, which keeps the previous position unless the new one
    is more than 1e-5 degrees away (Euclidean, in degree space).  The
    map's click handler (lines 53-59) sets the position directly and
    broadcasts it with the trip status its closure captured.

    Coordinates are rationals: [sqrt(dx^2 + dy^2) > 1e-5] is decided
    exactly as [dx^2 + dy^2 > 1e-10], the same comparison since both
    sides are non-negative.  A stored item is either absent, not JSON,
    or an object whose two fields are numbers or missing (other JSON
    types are not modelled). *)

From Stdlib Require Import QArith Qabs Lqa List Bool.
From S2P Require Import Prelude Types.
Import ListNotations.
Local Open Scope Q_scope.

Module Tracker.

(** [localStorage.getItem("driver_location")] and its [JSON.parse]. *)
Inductive stored_location : Type :=
| NoItem                               (** [getItem] returns null *)
| Unparseable                          (** [JSON.parse] throws *)
| Parsed (lat lng : option Q).         (** [driver_lat], [driver_lng] *)

(** JS truthiness of a number field: present and not 0. *)
Definition truthy (o : option Q) : bool :=
  match o with
  | Some q => negb (Qeq_bool q 0)
  | None => false
  end.

(** [0.00001]. *)
Definition jitter : Q := 1 # 100000.

(** Strict comparison on Q as a boolean. *)
Definition Qltb (a b : Q) : bool := negb (Qle_bool b a).

(** Squared Euclidean distance in degree space. *)
Definition dist2 (p q : LatLngTuple) : Q :=
  (fst p - fst q) * (fst p - fst q) + (snd p - snd q) * (snd p - snd q).

(** [dist > 0.00001] with [dist = sqrt(dist2 prev newPos)]. *)
Definition moved (prev newPos : LatLngTuple) : bool :=
  Qltb (jitter * jitter) (dist2 prev newPos).

(** The updater passed to [setDriverPosition]. *)
Definition filter_position (prev : option LatLngTuple) (newPos : LatLngTuple) : LatLngTuple :=
  match prev with
  | None => newPos
  | Some p => if moved p newPos then newPos else p
  end.

(** One tick of [updatePosition]: absent or unparseable items and
    falsy fields leave the position as it is. *)
Definition updatePosition (item : stored_location) (pos : option LatLngTuple)
  : option LatLngTuple :=
  match item with
  | Parsed (Some lat) (Some lng) =>
      if truthy (Some lat) && truthy (Some lng)
      then Some (filter_position pos (lat, lng))
      else pos
  | _ => pos
  end.

(** The one-second interval: the ticks in order. *)
Fixpoint poll (items : list stored_location) (pos : option LatLngTuple)
  : option LatLngTuple :=
  match items with
  | [] => pos
  | it :: rest => poll rest (updatePosition it pos)
  end.

(** The map's state: the published position, the trip status the click
    handler's closure captured when the map was created (none before),
    and the broadcasts [dbService.updateDriverLocation] received. *)
Record Map : Type := mkMap {
  position : option LatLngTuple;
  click_status : option status;
  broadcasts : list (Q * Q * bool * status)
}.

(** The mount effect, re-run on every [trip.status] change: the map and
    its click handler are created only the first time. *)
Definition map_effect (trip_status : status) (m : Map) : Map :=
  match click_status m with
  | None => mkMap (position m) (Some trip_status) (broadcasts m)
  | Some _ => m
  end.

(** A click on the map at [(lat, lng)]. *)
Definition on_map_click (lat lng : Q) (m : Map) : Map :=
  match click_status m with
  | Some s => mkMap (Some (lat, lng)) (Some s) (broadcasts m ++ [(lat, lng, true, s)])
  | None => m
  end.

(** A poll tick acting on the map's position. *)
Definition tick (item : stored_location) (m : Map) : Map :=
  mkMap (updatePosition item (position m)) (click_status m) (broadcasts m).

(** ** Arithmetic of the filter *)

Lemma Qltb_spec a b : Qltb a b = true <-> a < b.
Proof.
  unfold Qltb. rewrite negb_true_iff. split; intros H.
  - apply Qnot_le_lt. intros Hle. apply Qle_bool_iff in Hle. congruence.
  - destruct (Qle_bool b a) eqn:E; [|reflexivity].
    apply Qle_bool_iff in E. exfalso. apply (Qlt_not_le _ _ H E).
Qed.

Lemma Qltb_false a b : Qltb a b = false <-> b <= a.
Proof.
  unfold Qltb. rewrite negb_false_iff. apply Qle_bool_iff.
Qed.

Lemma truthy_some q : truthy (Some q) = true <-> ~ q == 0.
Proof.
  unfold truthy. rewrite negb_true_iff. split; intros H.
  - intros E. apply Qeq_bool_iff in E. congruence.
  - destruct (Qeq_bool q 0) eqn:E; [|reflexivity]. apply Qeq_bool_iff in E. contradiction.
Qed.

Lemma dist2_sym p q : dist2 p q == dist2 q p.
Proof. unfold dist2. ring. Qed.

Lemma dist2_self p : dist2 p p == 0.
Proof. unfold dist2. ring. Qed.

Lemma moved_false_iff p q : moved p q = false <-> dist2 p q <= jitter * jitter.
Proof. apply Qltb_false. Qed.

Lemma moved_true_iff p q : moved p q = true <-> jitter * jitter < dist2 p q.
Proof. apply Qltb_spec. Qed.

Lemma moved_self p : moved p p = false.
Proof. apply moved_false_iff. rewrite dist2_self. unfold jitter. lra. Qed.

Lemma updatePosition_valid lat lng pos :
  ~ lat == 0 -> ~ lng == 0 ->
  updatePosition (Parsed (Some lat) (Some lng)) pos = Some (filter_position pos (lat, lng)).
Proof.
  intros Hlat Hlng. unfold updatePosition.
  rewrite (proj2 (truthy_some lat) Hlat), (proj2 (truthy_some lng) Hlng). reflexivity.
Qed.

(** After a valid sample the published position is within the threshold
    of it. *)
Lemma filter_position_close pos s : dist2 (filter_position pos s) s <= jitter * jitter.
Proof.
  destruct pos as [p|]; simpl; [destruct (moved p s) eqn:E|];
    first [ rewrite dist2_self; unfold jitter; lra | apply moved_false_iff in E; exact E ].
Qed.

#[export] Hint Resolve filter_position_close moved_self : driver.

(** ** Properties of the poll *)

(** C10: Jitter is ignored: a sample whose distance to the published
    position is at most 1e-5 degrees leaves it unchanged (spec 8, first
    property). *)
Theorem jitter_keeps_position p lat lng :
  dist2 p (lat, lng) <= jitter * jitter ->
  updatePosition (Parsed (Some lat) (Some lng)) (Some p) = Some p.
Proof.
  intros Hd. unfold updatePosition.
  destruct (truthy (Some lat) && truthy (Some lng)); [|reflexivity].
  simpl. rewrite (proj2 (moved_false_iff p (lat, lng)) Hd). reflexivity.
Qed.

(** C11: Real movement is followed: a valid sample (both fields truthy)
    farther than 1e-5 degrees from the published position replaces it. *)
Theorem movement_updates_position p lat lng :
  jitter * jitter < dist2 p (lat, lng) -> ~ lat == 0 -> ~ lng == 0 ->
  updatePosition (Parsed (Some lat) (Some lng)) (Some p) = Some (lat, lng).
Proof.
  intros Hd Hlat Hlng. rewrite updatePosition_valid by assumption.
  simpl. rewrite (proj2 (moved_true_iff p (lat, lng)) Hd). reflexivity.
Qed.

(** C25: Errors are skipped, never fatal: only an item that parses to two
    truthy numbers can change the position; a missing item, an item that
    is not JSON, or a missing field leaves it as it was. *)
Theorem only_valid_samples_move item pos :
  updatePosition item pos <> pos ->
  exists lat lng, item = Parsed (Some lat) (Some lng) /\ ~ lat == 0 /\ ~ lng == 0.
Proof.
  intros Hne. destruct item as [| |[lat|] [lng|]]; try (exfalso; apply Hne; reflexivity).
  exists lat, lng. split; [reflexivity|].
  unfold updatePosition in Hne.
  destruct (truthy (Some lat)) eqn:E1, (truthy (Some lng)) eqn:E2; simpl in Hne;
    try (exfalso; apply Hne; reflexivity).
  split; apply truthy_some; assumption.
Qed.

(** C26: The published position never lags the latest valid sample by
    more than the threshold: after any run of ticks ending with a valid
    sample, the position is within 1e-5 degrees of it. *)
Theorem poll_tracks_last_sample items pos lat lng :
  ~ lat == 0 -> ~ lng == 0 ->
  exists p, poll (items ++ [Parsed (Some lat) (Some lng)]) pos = Some p /\
            dist2 p (lat, lng) <= jitter * jitter.
Proof.
  intros Hlat Hlng. revert pos. induction items as [|it items IH]; intros pos; cbn [app poll].
  - rewrite updatePosition_valid by assumption. eexists. split; [reflexivity|].
    apply filter_position_close.
  - apply IH.
Qed.

(** A tick is idempotent: reading the same stored sample twice gives
    the position one read gives. *)
Theorem updatePosition_idempotent item pos :
  updatePosition item (updatePosition item pos) = updatePosition item pos.
Proof.
  destruct item as [| |[lat|] [lng|]]; try reflexivity.
  unfold updatePosition.
  destruct (truthy (Some lat) && truthy (Some lng)); [|reflexivity].
  f_equal. destruct pos as [p|]; simpl.
  - destruct (moved p (lat, lng)) eqn:E; simpl.
    + rewrite moved_self. reflexivity.
    + rewrite E. reflexivity.
  - rewrite moved_self. reflexivity.
Qed.

(** A latitude or longitude of exactly 0 is falsy in JS, so a sample
    on the equator or on the prime meridian is dropped, even when no
    position has been published yet (the spec accepts the first sample
    unconditionally and ignores only malformed or missing ones). *)
Theorem zero_coordinate_sample_ignored lat lng pos :
  lat == 0 \/ lng == 0 ->
  updatePosition (Parsed (Some lat) (Some lng)) pos = pos.
Proof.
  intros Hz. unfold updatePosition.
  destruct (truthy (Some lat)) eqn:E1, (truthy (Some lng)) eqn:E2; simpl; try reflexivity.
  apply truthy_some in E1. apply truthy_some in E2. destruct Hz; contradiction.
Qed.

(** At exactly the threshold the code keeps the old position ([dist >
    0.00001] is strict), where the spec's testable property says a
    distance of at least 1e-5 updates it. *)
Theorem threshold_distance_kept :
  dist2 (15, 44) (15 + jitter, 44) == jitter * jitter /\
  updatePosition (Parsed (Some (15 + jitter)) (Some 44)) (Some (15, 44)) = Some (15, 44).
Proof. split; [unfold dist2, jitter; simpl; ring | vm_compute; reflexivity]. Qed.

(** C27: The click-to-drive handler is registered once, when the map is
    created, and its closure keeps the trip status of that moment: after
    any later status changes a click still broadcasts the first status. *)
Theorem click_broadcasts_mount_status m s0 ss lat lng :
  click_status m = None ->
  broadcasts (on_map_click lat lng (fold_left (fun m s => map_effect s m) ss (map_effect s0 m)))
  = broadcasts m ++ [(lat, lng, true, s0)].
Proof.
  intros Hnone.
  assert (Hfix : forall ms m', click_status m' = Some s0 ->
            fold_left (fun m s => map_effect s m) ms m' = m').
  { induction ms as [|s ms IH]; intros m' Hm'; simpl; [reflexivity|].
    unfold map_effect at 2. rewrite Hm'. apply IH. exact Hm'. }
  unfold map_effect at 2. rewrite Hnone. rewrite Hfix by reflexivity.
  reflexivity.
Qed.

(** The override bypasses the filter and survives its own echo: a
    click sets the position exactly (even within the threshold of the
    old one), and the next poll reading the broadcast position back
    keeps it. *)
Theorem click_then_echo_keeps m lat lng s :
  click_status m = Some s -> ~ lat == 0 -> ~ lng == 0 ->
  position (tick (Parsed (Some lat) (Some lng)) (on_map_click lat lng m)) = Some (lat, lng).
Proof.
  intros Hs Hlat Hlng. unfold on_map_click, tick. rewrite Hs. cbn [position].
  rewrite updatePosition_valid by assumption. cbn [filter_position].
  rewrite moved_self. reflexivity.
Qed.

End Tracker.

(** ** Witnesses *)

Lemma jitter_keeps_position_witness :
  Tracker.updatePosition (Tracker.Parsed (Some (15 + (1 # 200000))) (Some 44)) (Some (15, 44))
  = Some (15, 44).
Proof. apply Tracker.jitter_keeps_position. vm_compute. discriminate. Defined.

Lemma movement_updates_position_witness :
  Tracker.updatePosition (Tracker.Parsed (Some (1531 # 100)) (Some 44)) (Some (15, 44))
  = Some (1531 # 100, 44).
Proof.
  apply Tracker.movement_updates_position; [vm_compute; reflexivity | |];
    vm_compute; discriminate.
Defined.

Lemma only_valid_samples_move_witness :
  exists lat lng, Tracker.Parsed (Some 15) (Some 44) = Tracker.Parsed (Some lat) (Some lng) /\
                  ~ lat == 0 /\ ~ lng == 0.
Proof.
  apply (Tracker.only_valid_samples_move (Tracker.Parsed (Some 15) (Some 44)) None).
  vm_compute. discriminate.
Defined.

Lemma poll_tracks_last_sample_witness :
  exists p, Tracker.poll ([Tracker.NoItem; Tracker.Unparseable] ++
                          [Tracker.Parsed (Some 15) (Some 44)]) None = Some p /\
            Tracker.dist2 p (15, 44) <= Tracker.jitter * Tracker.jitter.
Proof. apply Tracker.poll_tracks_last_sample; vm_compute; discriminate. Defined.

Lemma zero_coordinate_sample_ignored_witness :
  Tracker.updatePosition (Tracker.Parsed (Some 0) (Some 44)) None = None.
Proof. apply Tracker.zero_coordinate_sample_ignored. left. reflexivity. Defined.

Lemma click_broadcasts_mount_status_witness :
  Tracker.broadcasts
    (Tracker.on_map_click 15 44
       (fold_left (fun m s => Tracker.map_effect s m) [Arrived; InProgress]
          (Tracker.map_effect Accepted (Tracker.mkMap None None []))))
  = [] ++ [(15, 44, true, Accepted)].
Proof. apply Tracker.click_broadcasts_mount_status. reflexivity. Defined.

Lemma click_then_echo_keeps_witness :
  Tracker.position (Tracker.tick (Tracker.Parsed (Some 15) (Some 44))
    (Tracker.on_map_click 15 44 (Tracker.mkMap (Some (15, 44)) (Some Accepted) [])))
  = Some (15, 44).
Proof. apply (Tracker.click_then_echo_keeps _ _ _ Accepted); [reflexivity | |]; vm_compute; discriminate. Defined.
