(* ===== verification/TrackerReals.v ===== *)
(** The jitter filter's distance test as the code writes it
    (ActiveTripView.tsx, lines 76-77):
    [Math.sqrt(Math.pow(prev[0]-newPos[0], 2) + Math.pow(prev[1]-newPos[1], 2)) > 0.00001],
    evaluated over the real numbers, and its equivalence with the exact
    rational test [Tracker.moved] ([dx^2 + dy^2 > 1e-10]) that the
    tracker model decides.  This justifies computing the filter without
    square roots: every theorem about [Tracker.filter_position] is a
    theorem about the code's formula. *)

From Stdlib Require Import QArith Qreals Reals Lra.
From S2P Require Import Prelude Types LocationTracker.

Module TrackerReals.
Import Tracker.
Local Open Scope R_scope.

(** [dist], with [Math.pow(x, 2)] as [x ^ 2] and [Math.sqrt] as
    [sqrt]. *)
Definition dist (prev newPos : LatLngTuple) : R :=
  sqrt ((Q2R (fst prev) - Q2R (fst newPos)) ^ 2 + (Q2R (snd prev) - Q2R (snd newPos)) ^ 2).

(** [dist > 0.00001]. *)
Definition moved_ref (prev newPos : LatLngTuple) : Prop := Q2R jitter < dist prev newPos.

(** ** Lemmas *)

Lemma Q2R_dist2 p q :
  Q2R (dist2 p q) = (Q2R (fst p) - Q2R (fst q)) ^ 2 + (Q2R (snd p) - Q2R (snd q)) ^ 2.
Proof. unfold dist2. rewrite Q2R_plus, !Q2R_mult, !Q2R_minus. ring. Qed.

Lemma Q2R_jitter_pos : 0 < Q2R jitter.
Proof. unfold Q2R, jitter. cbn. lra. Qed.

(** For a non-negative [x], [j < sqrt x] exactly when [j^2 < x]. *)
Lemma lt_sqrt_iff j x : 0 < j -> 0 <= x -> (j < sqrt x <-> j * j < x).
Proof.
  intros Hj Hx. split; intros H.
  - apply sqrt_lt_0; [nra | exact Hx|]. rewrite sqrt_square by lra. exact H.
  - rewrite <- (sqrt_square j) by lra. apply sqrt_lt_1; [nra | exact Hx | exact H].
Qed.

(** ** The code's test *)

(** The model's exact test is the code's: a new sample counts as a
    move ([Tracker.moved]) exactly when the Euclidean distance computed
    with [Math.sqrt] and [Math.pow] exceeds 0.00001, for all rational
    coordinates. *)
Lemma moved_is_sqrt_test prev newPos : moved prev newPos = true <-> moved_ref prev newPos.
Proof.
  unfold moved, moved_ref, dist. rewrite Qltb_spec, <- Q2R_dist2.
  rewrite (lt_sqrt_iff _ _ Q2R_jitter_pos); [|rewrite Q2R_dist2; apply Rplus_le_le_0_compat; apply pow2_ge_0].
  rewrite <- Q2R_mult. split; [apply Qlt_Rlt | apply Rlt_Qlt].
Qed.

End TrackerReals.
