(* ===== verification/RouteEngine.v ===== *)
(** Route and destination label of the active trip (ActiveTripView.tsx,
    the navigation effect, lines 88-123, and the ETA of line 252).

    The effect depends on [trip.status], [trip.pickup], [trip.drop],
    [driverPosition] and [language], the arrays compared by identity
    (field [d_arrays]); each change clears the pending timer and arms a
    new one for 1000 ms later, whose closure captures
    those values and the [destinationAddress] of that render.  When the
    timer fires, [updateNavigation] picks the target (pickup while
    accepted, drop while in_progress), fetches the label if the captured
    one is empty, awaits it, then fetches the route from the captured
    driver position, awaits it and stores it; with no valid target it
    clears the route.  Started runs are never cancelled: their awaits
    complete in any order, and a completion after unmount changes
    nothing (React drops the state update).

    The theorems: the debounce collapses quick renders into one run;
    deliveries of the booking set that change no value still restart
    it, so frequent deliveries postpone navigation indefinitely; the
    target follows the phase; a cached label is not refetched; the ETA
    is a ceiling; nothing changes after unmount.

    Time is a natural number of milliseconds; the geocoder's and the
    router's answers are inputs of the completion events. *)

From Stdlib Require Import QArith List Bool Arith String Ascii Lia.
From S2P Require Import Prelude Types.
Import ListNotations.
Local Open Scope nat_scope.

Module Route.

(** The effect's dependency list. *)
Record deps : Type := mkDeps {
  d_status : status;
  d_pickup : option coord_val;
  d_drop : option coord_val;
  d_pos : option LatLngTuple;
  d_lang : string;
  d_arrays : nat
    (** the identity of the arrays [trip.pickup], [trip.drop] and
        [driverPosition]: React compares dependencies with [Object.is],
        so a new booking object (each delivery of the booking set) or a
        newly set position changes it even when the values are equal *)
}.

Lemma deps_eq_dec (a b : deps) : {a = b} + {a <> b}.
Proof.
  assert (Hq : forall x y : Q, {x = y} + {x <> y}).
  { intros [n1 d1] [n2 d2]. decide equality; [apply Pos.eq_dec | apply Z.eq_dec]. }
  assert (Hc : forall x y : coord_val, {x = y} + {x <> y}) by (decide equality).
  decide equality; try apply string_dec; try apply Nat.eq_dec.
  - repeat decide equality.
  - decide equality.
  - decide equality.
  - apply status_eq_dec.
Defined.

(** What the timer's callback closes over. *)
Record closure : Type := mkClosure {
  c_deps : deps;
  c_addr : string        (** [destinationAddress] of the render *)
}.

(** A started [updateNavigation] suspended at one of its awaits. *)
Inductive proc : Type :=
| AwaitGeocode (target : LatLngTuple) (pos : option LatLngTuple)
| AwaitRoute.

Record Nav : Type := mkNav {
  now : nat;
  mounted : bool;
  cur : deps;                          (** dependencies of the last render *)
  timer : option (nat * closure);      (** deadline and callback *)
  procs : list (nat * proc);           (** suspended runs by id *)
  next_proc : nat;
  currentRoute : option (list LatLngTuple);
  destinationAddress : string;
  geocode_calls : list LatLngTuple;                    (** reverseGeocode(target) *)
  route_calls : list (LatLngTuple * LatLngTuple)       (** fetchRoute(from, to) *)
}.

Inductive nav_event : Type :=
| Render (t : nat) (d : deps)          (** a render at time [t] *)
| Wait (t : nat)                       (** time passes until [t] *)
| GeocodeReturns (k : nat) (addr : option string)
| RouteReturns (k : nat) (route : option (list LatLngTuple))
| Unmount (t : nat).

Definition debounce_ms : nat := 1000.

(** [target]: pickup while accepted, drop while in_progress. *)
Definition nav_target (d : deps) : option coord_val :=
  match d_status d with
  | Accepted => d_pickup d
  | InProgress => d_drop d
  | _ => None
  end.

(** [addr?.split(',')[0]]. *)
Fixpoint first_segment (s : string) : string :=
  match s with
  | EmptyString => EmptyString
  | String c rest => if Ascii.eqb c ","%char then EmptyString else String c (first_segment rest)
  end.

(** [addr?.split(',')[0] || 'Destination']. *)
Definition label (addr : option string) : string :=
  match addr with
  | Some a => if String.eqb (first_segment a) ""%string then "Destination"%string else first_segment a
  | None => "Destination"%string
  end.

(** [Math.ceil(currentRoute.length / 10)], or none for ['--']. *)
Definition eta_minutes (route : option (list LatLngTuple)) : option nat :=
  match route with
  | Some r => Some ((List.length r + 9) / 10)%nat
  | None => None
  end.

(** Record updates. *)
Definition with_procs (ps : list (nat * proc)) (k : nat) (n : Nav) : Nav :=
  mkNav (now n) (mounted n) (cur n) (timer n) ps k (currentRoute n)
        (destinationAddress n) (geocode_calls n) (route_calls n).

Definition with_route (r : option (list LatLngTuple)) (n : Nav) : Nav :=
  if mounted n then
    mkNav (now n) (mounted n) (cur n) (timer n) (procs n) (next_proc n) r
          (destinationAddress n) (geocode_calls n) (route_calls n)
  else n.

Definition with_address (a : string) (n : Nav) : Nav :=
  if mounted n then
    mkNav (now n) (mounted n) (cur n) (timer n) (procs n) (next_proc n) (currentRoute n)
          a (geocode_calls n) (route_calls n)
  else n.

(** [apiService.fetchRoute(driverPosition, target)] when the captured
    position is set, suspending the run at its second await. *)
Definition start_route (target : LatLngTuple) (pos : option LatLngTuple) (n : Nav) : Nav :=
  match pos with
  | Some p =>
      mkNav (now n) (mounted n) (cur n) (timer n)
            (procs n ++ [(next_proc n, AwaitRoute)]) (S (next_proc n)) (currentRoute n)
            (destinationAddress n) (geocode_calls n) (route_calls n ++ [(p, target)])
  | None => n
  end.

(** [updateNavigation] up to its first await. *)
Definition updateNavigation (c : closure) (n : Nav) : Nav :=
  match option_map coord_of (nav_target (c_deps c)) with
  | Some (Some tgt) =>
      if String.eqb (c_addr c) ""%string then
        mkNav (now n) (mounted n) (cur n) (timer n)
              (procs n ++ [(next_proc n, AwaitGeocode tgt (d_pos (c_deps c)))])
              (S (next_proc n)) (currentRoute n) (destinationAddress n)
              (geocode_calls n ++ [tgt]) (route_calls n)
      else start_route tgt (d_pos (c_deps c)) n
  | _ => with_route None n
  end.

(** Time passes until [t]: the timer fires if its deadline has come. *)
Definition advance (t : nat) (n : Nav) : Nav :=
  match timer n with
  | Some (dl, c) =>
      if dl <=? t then
        let n1 := mkNav dl (mounted n) (cur n) None (procs n) (next_proc n) (currentRoute n)
                        (destinationAddress n) (geocode_calls n) (route_calls n) in
        let n2 := updateNavigation c n1 in
        mkNav t (mounted n2) (cur n2) (timer n2) (procs n2) (next_proc n2) (currentRoute n2)
              (destinationAddress n2) (geocode_calls n2) (route_calls n2)
      else mkNav t (mounted n) (cur n) (timer n) (procs n) (next_proc n) (currentRoute n)
                 (destinationAddress n) (geocode_calls n) (route_calls n)
  | None => mkNav t (mounted n) (cur n) (timer n) (procs n) (next_proc n) (currentRoute n)
                  (destinationAddress n) (geocode_calls n) (route_calls n)
  end.

(** A render: when a dependency changed, the effect's cleanup clears the
    timer and a new one is armed with this render's values. *)
Definition render (d : deps) (n : Nav) : Nav :=
  if negb (mounted n) then n
  else if deps_eq_dec d (cur n) then n
  else mkNav (now n) (mounted n) d (Some (now n + debounce_ms, mkClosure d (destinationAddress n)))
             (procs n) (next_proc n) (currentRoute n) (destinationAddress n)
             (geocode_calls n) (route_calls n).

Definition find_proc (k : nat) (ps : list (nat * proc)) : option proc :=
  option_map snd (find (fun kp => Nat.eqb (fst kp) k) ps).

Definition drop_proc (k : nat) (ps : list (nat * proc)) : list (nat * proc) :=
  List.filter (fun kp => negb (Nat.eqb (fst kp) k)) ps.

Definition nav_step (n : Nav) (e : nav_event) : option Nav :=
  match e with
  | Render t d => if now n <=? t then Some (render d (advance t n)) else None
  | Wait t => if now n <=? t then Some (advance t n) else None
  | Unmount t =>
      if now n <=? t then
        let n1 := advance t n in
        Some (mkNav (now n1) false (cur n1) None (procs n1) (next_proc n1) (currentRoute n1)
                    (destinationAddress n1) (geocode_calls n1) (route_calls n1))
      else None
  | GeocodeReturns k addr =>
      match find_proc k (procs n) with
      | Some (AwaitGeocode tgt pos) =>
          let n1 := with_procs (drop_proc k (procs n)) (next_proc n) n in
          Some (start_route tgt pos (with_address (label addr) n1))
      | _ => None
      end
  | RouteReturns k route =>
      match find_proc k (procs n) with
      | Some AwaitRoute =>
          let n1 := with_procs (drop_proc k (procs n)) (next_proc n) n in
          Some (match route with Some r => with_route (Some r) n1 | None => n1 end)
      | _ => None
      end
  end.

Fixpoint nav_run (n : Nav) (es : list nav_event) : option Nav :=
  match es with
  | [] => Some n
  | e :: rest => match nav_step n e with Some n' => nav_run n' rest | None => None end
  end.

(** The state [n] seen at time [t]. *)
Definition at_time (t : nat) (n : Nav) : Nav :=
  mkNav t (mounted n) (cur n) (timer n) (procs n) (next_proc n) (currentRoute n)
        (destinationAddress n) (geocode_calls n) (route_calls n).

Definition deps_eqb (a b : deps) : bool := if deps_eq_dec a b then true else false.

(** Renders in quick succession: each at or after the previous one and
    before the pending deadline, each with new dependencies. *)
Fixpoint quick_renders (dl : nat) (prev : deps) (tnow : nat) (rs : list (nat * deps)) : bool :=
  match rs with
  | [] => true
  | (t, d) :: rest =>
      (tnow <=? t) && (t <? dl) && negb (deps_eqb d prev) &&
      quick_renders (t + debounce_ms) d t rest
  end.

Definition renders (rs : list (nat * deps)) : list nav_event :=
  map (fun td => Render (fst td) (snd td)) rs.

(** [m] deliveries of the booking set, [gap] ms apart from [t], that
    change no value of the dependencies [d] but hand over new arrays
    (identities [k], [k + 1], ...). *)
Fixpoint redeliveries (d : deps) (t gap k m : nat) : list (nat * deps) :=
  match m with
  | 0 => []
  | S m' => (t, mkDeps (d_status d) (d_pickup d) (d_drop d) (d_pos d) (d_lang d) k)
              :: redeliveries d (t + gap) gap (S k) m'
  end.

(** The answer to a pending await: the geocoder's answer [a] or the
    router's answer [r]. *)
Definition answer (k : nat) (p : proc) (a : option string) (r : option (list LatLngTuple)) : nav_event :=
  match p with
  | AwaitGeocode _ _ => GeocodeReturns k a
  | AwaitRoute => RouteReturns k r
  end.

(** The work left in the suspended runs: a run waiting for its geocode
    has at most two awaits to go, one waiting for its route has one. *)
Definition proc_weight (p : proc) : nat :=
  match p with AwaitGeocode _ _ => 2 | AwaitRoute => 1 end.

Definition pending_weight (ps : list (nat * proc)) : nat :=
  fold_right (fun kp acc => proc_weight (snd kp) + acc) 0 ps.

(** ** Lemmas on time *)

Lemma advance_early n t dl c :
  timer n = Some (dl, c) -> t < dl -> advance t n = at_time t n.
Proof.
  intros Ht Hlt. unfold advance. rewrite Ht.
  destruct (Nat.leb_spec dl t); [lia|]. unfold at_time. rewrite Ht. reflexivity.
Qed.

Lemma advance_fire n t dl c :
  timer n = Some (dl, c) -> dl <= t ->
  advance t n = at_time t (updateNavigation c (mkNav dl (mounted n) (cur n) None (procs n)
                  (next_proc n) (currentRoute n) (destinationAddress n)
                  (geocode_calls n) (route_calls n))).
Proof.
  intros Ht Hle. unfold advance. rewrite Ht.
  destruct (Nat.leb_spec dl t); [reflexivity | lia].
Qed.

Lemma deps_eqb_false a b : deps_eqb a b = false -> a <> b.
Proof. unfold deps_eqb. destruct (deps_eq_dec a b); congruence. Qed.

(** A render before the deadline only re-arms the timer. *)
Lemma render_rearm n t d dl c :
  mounted n = true -> timer n = Some (dl, c) -> now n <= t -> t < dl -> d <> cur n ->
  nav_step n (Render t d) =
    Some (mkNav t (mounted n) d (Some (t + debounce_ms, mkClosure d (destinationAddress n)))
                (procs n) (next_proc n) (currentRoute n) (destinationAddress n)
                (geocode_calls n) (route_calls n)).
Proof.
  intros Hm Ht Hnow Hlt Hd. unfold nav_step.
  destruct (Nat.leb_spec (now n) t); [|lia].
  rewrite (advance_early n t dl c Ht Hlt). unfold render. simpl. rewrite Hm. simpl.
  destruct (deps_eq_dec d (cur n)); [contradiction | reflexivity].
Qed.

Lemma nav_run_app n l1 l2 :
  nav_run n (l1 ++ l2) = match nav_run n l1 with Some n' => nav_run n' l2 | None => None end.
Proof.
  revert n. induction l1 as [|e l1 IH]; intros n; simpl; [reflexivity|].
  destruct (nav_step n e); [apply IH | reflexivity].
Qed.

(** The renders of a quick succession only move the deadline: the timer
    ends armed for the last render, nothing else changed. *)
Lemma quick_renders_run n dl c rs :
  mounted n = true -> timer n = Some (dl, c) ->
  quick_renders dl (cur n) (now n) rs = true -> rs <> [] ->
  let (tl, dlast) := last rs (0, cur n) in
  nav_run n (renders rs) =
    Some (mkNav tl true dlast (Some (tl + debounce_ms, mkClosure dlast (destinationAddress n)))
                (procs n) (next_proc n) (currentRoute n) (destinationAddress n)
                (geocode_calls n) (route_calls n)).
Proof.
  revert n dl c. induction rs as [|[t d] rest IH]; intros n dl c Hm Ht Hq Hne; [congruence|].
  simpl in Hq. rewrite !andb_true_iff in Hq.
  destruct Hq as [[[Hnow Hlt] Hd] Hq].
  apply Nat.leb_le in Hnow. apply Nat.ltb_lt in Hlt.
  apply negb_true_iff, deps_eqb_false in Hd.
  cbn [renders map nav_run fst snd].
  rewrite (render_rearm n t d dl c Hm Ht Hnow Hlt Hd).
  destruct rest as [|r rest'].
  - simpl. rewrite Hm. reflexivity.
  - set (n1 := mkNav t (mounted n) d _ _ _ _ _ _ _).
    specialize (IH n1 (t + debounce_ms) (mkClosure d (destinationAddress n)) Hm eq_refl Hq
                ltac:(discriminate)).
    change (last (_ :: r :: rest') (0, cur n)) with (last (r :: rest') (0, cur n)).
    rewrite (last_default_irrelevant (r :: rest') (0, cur n) (0, cur n1)) by discriminate.
    exact IH.
Qed.

(** C12: Debounce (spec 4.3 and 8): renders in quick succession, each
    less than 1000 ms after the previous deadline was armed, are
    collapsed: once 1000 ms have passed after the last one, the state
    is exactly that of a single run of [updateNavigation], fired at the
    last render's time plus 1000 ms, with the last render's
    dependencies; the earlier renders issued nothing. *)
Theorem debounce_single_run n dl c rs t_end :
  mounted n = true -> timer n = Some (dl, c) ->
  quick_renders dl (cur n) (now n) rs = true -> rs <> [] ->
  fst (last rs (0, cur n)) + debounce_ms <= t_end ->
  nav_run n (renders rs ++ [Wait t_end]) =
    Some (at_time t_end
      (updateNavigation (mkClosure (snd (last rs (0, cur n))) (destinationAddress n))
        (mkNav (fst (last rs (0, cur n)) + debounce_ms) true (snd (last rs (0, cur n))) None
               (procs n) (next_proc n) (currentRoute n) (destinationAddress n)
               (geocode_calls n) (route_calls n)))).
Proof.
  intros Hm Ht Hq Hne Hend. rewrite nav_run_app.
  pose proof (quick_renders_run n dl c rs Hm Ht Hq Hne) as Hr.
  destruct (last rs (0, cur n)) as [tl dlast]. simpl in Hend |- *. rewrite Hr.
  simpl. destruct (Nat.leb_spec tl t_end); [|lia].
  erewrite advance_fire; [reflexivity | reflexivity | exact Hend].
Qed.

Lemma deps_eqb_arrays a b : d_arrays a <> d_arrays b -> deps_eqb a b = false.
Proof. intros H. unfold deps_eqb. destruct (deps_eq_dec a b) as [->|]; [contradiction | reflexivity]. Qed.

Lemma quick_redeliveries d dl prev tnow t gap k m :
  gap < debounce_ms -> d_arrays prev < k -> tnow <= t -> t < dl ->
  quick_renders dl prev tnow (redeliveries d t gap k m) = true.
Proof.
  revert dl prev tnow t k. induction m as [|m IH]; intros dl prev tnow t k Hg Hk Hn Ht; [reflexivity|].
  cbn [redeliveries quick_renders]. rewrite deps_eqb_arrays by (cbn; lia).
  apply Nat.leb_le in Hn. apply Nat.ltb_lt in Ht. rewrite Hn, Ht. cbn.
  apply IH; cbn; lia.
Qed.

Lemma last_redeliveries d t gap k m x :
  fst (last (redeliveries d t gap k (S m)) x) = t + m * gap.
Proof.
  revert t k x. induction m as [|m IH]; intros t k x; [cbn; lia|].
  change (redeliveries d t gap k (S (S m))) with
    ((t, mkDeps (d_status d) (d_pickup d) (d_drop d) (d_pos d) (d_lang d) k)
       :: redeliveries d (t + gap) gap (S k) (S m)).
  rewrite last_cons, IH. lia.
Qed.

(** C13: Every delivery of the booking set re-renders ActiveTripView
    with a new [trip] object, and the navigation effect compares
    [trip.pickup] and [trip.drop] by identity: deliveries that change
    neither the target nor the position still restart the debounce, so
    while the booking set is delivered more often than once a second
    (any booking of any rider changing) nothing is geocoded or fetched,
    the route is not updated, and the deadline stays 1000 ms after the
    last delivery. *)
Theorem redeliveries_postpone_navigation n dl c gap m :
  mounted n = true -> timer n = Some (dl, c) -> now n < dl -> gap < debounce_ms ->
  exists n', nav_run n (renders (redeliveries (cur n) (now n) gap (S (d_arrays (cur n))) (S m))) = Some n' /\
    geocode_calls n' = geocode_calls n /\ route_calls n' = route_calls n /\
    currentRoute n' = currentRoute n /\
    exists c', timer n' = Some (now n + m * gap + debounce_ms, c').
Proof.
  intros Hm Ht Hlt Hg.
  pose proof (quick_redeliveries (cur n) dl (cur n) (now n) (now n) gap (S (d_arrays (cur n))) (S m)
                Hg ltac:(lia) (le_n _) Hlt) as Hq.
  pose proof (quick_renders_run n dl c _ Hm Ht Hq ltac:(discriminate)) as Hr.
  pose proof (last_redeliveries (cur n) (now n) gap (S (d_arrays (cur n))) m (0, cur n)) as Hl.
  destruct (last _ (0, cur n)) as [tl dlast]. cbn in Hl. subst tl.
  eexists. split; [exact Hr|]. cbn. repeat split. eexists. reflexivity.
Qed.

(** ** Termination of the suspended runs *)

Lemma pending_weight_app ps qs : pending_weight (ps ++ qs) = pending_weight ps + pending_weight qs.
Proof. unfold pending_weight. induction ps as [|kp ps IH]; cbn; [reflexivity | rewrite IH; lia]. Qed.

Lemma pending_weight_filter f ps : pending_weight (List.filter f ps) <= pending_weight ps.
Proof. unfold pending_weight. induction ps as [|kp ps IH]; cbn; [lia|]. destruct (f kp); cbn; lia. Qed.

Lemma with_address_procs x n : procs (with_address x n) = procs n /\ timer (with_address x n) = timer n.
Proof. unfold with_address. destruct (mounted n); split; reflexivity. Qed.

Lemma with_route_procs x n : procs (with_route x n) = procs n /\ timer (with_route x n) = timer n.
Proof. unfold with_route. destruct (mounted n); split; reflexivity. Qed.

Lemma start_route_procs tgt pos n :
  pending_weight (procs (start_route tgt pos n)) <= pending_weight (procs n) + 1 /\
  timer (start_route tgt pos n) = timer n.
Proof. unfold start_route. destruct pos; cbn; [rewrite pending_weight_app; cbn|]; split; lia || reflexivity. Qed.

(** Answering the first pending await succeeds, lowers the pending
    work and leaves the timer alone. *)
Lemma answer_first n k p ps a r :
  procs n = (k, p) :: ps ->
  exists n', nav_step n (answer k p a r) = Some n' /\
    pending_weight (procs n') < pending_weight (procs n) /\ timer n' = timer n.
Proof.
  intros Hp. assert (Hf : find_proc k (procs n) = Some p)
    by (rewrite Hp; unfold find_proc; cbn [find fst]; rewrite Nat.eqb_refl; reflexivity).
  pose proof (pending_weight_filter (fun kp => negb (Nat.eqb (fst kp) k)) ps) as Hw.
  assert (Hd : drop_proc k (procs n) = drop_proc k ps)
    by (rewrite Hp; unfold drop_proc; cbn [List.filter fst]; rewrite Nat.eqb_refl; reflexivity).
  set (n1 := with_procs (drop_proc k (procs n)) (next_proc n) n).
  assert (P1 : pending_weight (procs n1) <= pending_weight ps) by (cbn; rewrite Hd; exact Hw).
  assert (T1 : timer n1 = timer n) by reflexivity.
  rewrite Hp. destruct p as [tgt pos|]; cbn [answer nav_step]; rewrite Hf; eexists; split; try reflexivity; fold n1.
  - destruct (with_address_procs (label a) n1) as [P2 T2].
    destruct (start_route_procs tgt pos (with_address (label a) n1)) as [P3 T3].
    rewrite P2 in P3. unfold pending_weight in *. cbn [fold_right snd proc_weight]. split; [lia | congruence].
  - destruct r as [rt|]; [destruct (with_route_procs (Some rt) n1) as [P2 T2]; rewrite P2, T2|];
      unfold pending_weight in *; cbn [fold_right snd proc_weight]; split; lia || congruence.
Qed.

(** C14: The navigation effect's asynchronous work terminates: whatever
    runs of [updateNavigation] are suspended, answering their awaits in
    order (each geocode with [a], each route with [r]) leaves none
    suspended after at most two answers per run, since a geocode's
    answer starts at most one route fetch and a route's answer starts
    nothing; the debounce timer is untouched. *)
Theorem suspended_runs_terminate (a : option string) (r : option (list LatLngTuple)) n :
  exists es n', List.length es <= pending_weight (procs n) /\ nav_run n es = Some n' /\
                procs n' = [] /\ timer n' = timer n.
Proof.
  remember (pending_weight (procs n)) as w eqn:Hw. revert n Hw.
  induction w as [w IH] using lt_wf_ind. intros n Hw.
  destruct (procs n) as [|[k p] ps] eqn:Hp.
  - exists [], n. repeat split; [cbn; lia | exact Hp].
  - destruct (answer_first n k p ps a r Hp) as (n1 & S1 & W1 & T1). rewrite Hp in W1.
    destruct (IH (pending_weight (procs n1)) ltac:(lia) n1 eq_refl) as (es & n' & L & R & P & T).
    exists (answer k p a r :: es), n'. cbn [nav_run List.length]. rewrite S1.
    repeat split; [lia | exact R | exact P | congruence].
Qed.

(** The call a run issues goes to [tgt]: a geocode of it, a route to it
    from some position, or nothing (no driver position yet). *)
Definition calls_toward (tgt : LatLngTuple) (n u : Nav) : Prop :=
  (geocode_calls u = geocode_calls n ++ [tgt] /\ route_calls u = route_calls n) \/
  (geocode_calls u = geocode_calls n /\ exists p, route_calls u = route_calls n ++ [(p, tgt)]) \/
  (geocode_calls u = geocode_calls n /\ route_calls u = route_calls n).

Lemma start_route_calls tgt pos n :
  geocode_calls (start_route tgt pos n) = geocode_calls n /\
  ((exists p, route_calls (start_route tgt pos n) = route_calls n ++ [(p, tgt)]) \/
   route_calls (start_route tgt pos n) = route_calls n).
Proof. destruct pos as [p|]; simpl; [split; [|left; eauto]|split; [|right]]; reflexivity. Qed.

Lemma updateNavigation_toward c n a b :
  nav_target (c_deps c) = Some (CPair a b) -> calls_toward (a, b) n (updateNavigation c n).
Proof.
  intros Ht. unfold updateNavigation. rewrite Ht. simpl.
  destruct (String.eqb (c_addr c) ""); [left; split; reflexivity|].
  destruct (start_route_calls (a, b) (d_pos (c_deps c)) n) as [Hg [Hr|Hr]].
  - right; left. split; assumption.
  - right; right. split; assumption.
Qed.

(** Target by phase (spec 4.3): a run fetches toward the pickup
    while the trip is accepted and toward the drop while it is in
    progress; in any other status it issues nothing and clears the
    route. *)
Theorem navigation_target_by_phase c n :
  match d_status (c_deps c) with
  | Accepted => forall a b, d_pickup (c_deps c) = Some (CPair a b) ->
                  calls_toward (a, b) n (updateNavigation c n)
  | InProgress => forall a b, d_drop (c_deps c) = Some (CPair a b) ->
                  calls_toward (a, b) n (updateNavigation c n)
  | _ => updateNavigation c n = with_route None n
  end.
Proof.
  destruct (d_status (c_deps c)) eqn:Hs; try (intros a b Hp; apply updateNavigation_toward;
    unfold nav_target; rewrite Hs; exact Hp);
    unfold updateNavigation, nav_target; rewrite Hs; reflexivity.
Qed.

(** The label is cached: a run whose closure saw a non-empty label
    never calls the geocoder, whatever its target. *)
Theorem cached_label_not_refetched c n :
  c_addr c <> ""%string -> geocode_calls (updateNavigation c n) = geocode_calls n.
Proof.
  intros Hne. unfold updateNavigation.
  destruct (option_map coord_of (nav_target (c_deps c))) as [[tgt|]|]; simpl;
    try (unfold with_route; destruct (mounted n); reflexivity).
  apply String.eqb_neq in Hne. rewrite Hne. apply (start_route_calls tgt _ n).
Qed.

(** The ETA is [ceil(points / 10)] minutes (spec 4.3): it is the
    least [m] with [points <= 10 m]; a route of 37 points gives 4. *)
Theorem eta_is_ceiling r :
  exists m, eta_minutes (Some r) = Some m /\
            List.length r <= 10 * m /\ 10 * m < List.length r + 10.
Proof.
  exists ((List.length r + 9) / 10). split; [reflexivity|].
  pose proof (Nat.div_mod (List.length r + 9) 10 ltac:(discriminate)).
  pose proof (Nat.mod_upper_bound (List.length r + 9) 10 ltac:(discriminate)). lia.
Qed.

(** The label is kept by every run: only a geocode answer sets it. *)
Lemma updateNavigation_address c n : destinationAddress (updateNavigation c n) = destinationAddress n.
Proof.
  unfold updateNavigation. destruct (option_map coord_of (nav_target (c_deps c))) as [[tgt|]|];
    [destruct (String.eqb _ _); [reflexivity | destruct (d_pos (c_deps c)); reflexivity] | |];
    unfold with_route; destruct (mounted n); reflexivity.
Qed.

(** A route answer of a mounted view is shown, whichever fetch it
    answers. *)
Lemma route_returns_mounted n k r :
  mounted n = true -> find_proc k (procs n) = Some AwaitRoute ->
  nav_step n (RouteReturns k (Some r)) =
    Some (mkNav (now n) true (cur n) (timer n) (drop_proc k (procs n)) (next_proc n) (Some r)
                (destinationAddress n) (geocode_calls n) (route_calls n)).
Proof. intros Hm Hk. cbn [nav_step]. rewrite Hk. unfold with_route, with_procs. cbn. rewrite Hm. reflexivity. Qed.

Lemma find_proc_drop_other k j ps : k <> j -> find_proc k (drop_proc j ps) = find_proc k ps.
Proof.
  intros H. unfold find_proc, drop_proc. induction ps as [|[i p] ps IH]; cbn; [reflexivity|].
  destruct (Nat.eqb_spec i j) as [->|]; cbn;
    [destruct (Nat.eqb_spec j k); [congruence | exact IH] | destruct (Nat.eqb_spec i k); [reflexivity | exact IH]].
Qed.

(** A render with new dependencies and no timer pending arms one. *)
Lemma render_arm n t d :
  mounted n = true -> timer n = None -> now n <= t -> d <> cur n ->
  nav_step n (Render t d) =
    Some (mkNav t true d (Some (t + debounce_ms, mkClosure d (destinationAddress n)))
                (procs n) (next_proc n) (currentRoute n) (destinationAddress n)
                (geocode_calls n) (route_calls n)).
Proof.
  intros Hm Ht Hnow Hd. unfold nav_step. destruct (Nat.leb_spec (now n) t); [|lia].
  unfold render, advance. rewrite Ht. cbn. rewrite Hm. cbn.
  destruct (deps_eq_dec d (cur n)); [contradiction | reflexivity].
Qed.

Lemma nav_step_unmounted n e n' :
  mounted n = false -> timer n = None -> nav_step n e = Some n' ->
  mounted n' = false /\ timer n' = None /\ currentRoute n' = currentRoute n /\
  destinationAddress n' = destinationAddress n.
Proof.
  intros Hm Ht Hs. destruct e as [t d|t|k addr|k route|t]; simpl in Hs.
  - destruct (now n <=? t); [|discriminate]. injection Hs as <-.
    unfold render, advance. rewrite Ht. simpl. rewrite Hm. simpl. auto.
  - destruct (now n <=? t); [|discriminate]. injection Hs as <-.
    unfold advance. rewrite Ht. simpl. auto.
  - destruct (find_proc k (procs n)) as [[tgt pos|]|]; try discriminate. injection Hs as <-.
    unfold with_address, with_procs. simpl. rewrite Hm.
    destruct pos; simpl; auto.
  - destruct (find_proc k (procs n)) as [[|]|]; try discriminate. injection Hs as <-.
    destruct route; unfold with_route, with_procs; simpl; rewrite ?Hm; auto.
  - destruct (now n <=? t); [|discriminate]. injection Hs as <-.
    unfold advance. rewrite Ht. simpl. auto.
Qed.

Lemma nav_run_unmounted n es n' :
  mounted n = false -> timer n = None -> nav_run n es = Some n' ->
  mounted n' = false /\ timer n' = None /\ currentRoute n' = currentRoute n /\
  destinationAddress n' = destinationAddress n.
Proof.
  revert n. induction es as [|e es IH]; intros n Hm Ht Hr; simpl in Hr.
  - injection Hr as <-. auto.
  - destruct (nav_step n e) as [n1|] eqn:Hs; [|discriminate].
    destruct (nav_step_unmounted n e n1 Hm Ht Hs) as (Hm1 & Ht1 & Hr1 & Ha1).
    destruct (IH n1 Hm1 Ht1 Hr) as (? & ? & ? & ?). repeat split; congruence.
Qed.

(** C28: Disposal (spec 5): the unmount of the view clears its pending
    timer ([clearTimeout] in the effect's cleanup) and marks it
    unmounted; whatever happens afterwards (renders, waits, geocode and
    route answers of runs still suspended), the timer never fires again
    and the route and the label stay what they were at the unmount. *)
Theorem unmounted_state_frozen n t n1 es n' :
  nav_step n (Unmount t) = Some n1 -> nav_run n1 es = Some n' ->
  mounted n' = false /\ timer n' = None /\ currentRoute n' = currentRoute n1 /\
  destinationAddress n' = destinationAddress n1.
Proof.
  intros H1. cbn [nav_step] in H1. destruct (now n <=? t); [|discriminate].
  injection H1 as <-. apply nav_run_unmounted; reflexivity.
Qed.

End Route.
