(* ===== verification/TripScreen.v ===== *)
(** What ActiveTripView draws (src/components/ActiveTripView.tsx): the
    map-drawing effect (lines 125-168) and the navigation header
    ([getHeaderInfo], lines 182-189).

    The drawing effect is modelled by the commands it sends to the map,
    as the specification's rendering interface (set marker, draw path,
    remove layer): the layers on the map by Leaflet id, [layersRef], the
    driver marker ([driverMarkerRef]) and the view's centre.  Its
    dependency list holds [driverIcon], which the component body builds
    anew with [L.divIcon] at every render (lines 31-41, not memoised),
    so the effect runs after every render: [trip_render] is one render.
    The theorems: the map shows exactly the current route and target
    pin, all of them created anew by the render that shows them (the
    previous ones removed), and the driver marker is created once and
    follows the last known position. *)

From Stdlib Require Import String List Bool Arith Lia QArith.
From S2P Require Import Prelude Types.
Import ListNotations.
Local Open Scope nat_scope.

Module TripMap.

(** A layer of [layersRef]: the route's line and its white border
    ([L.polyline(currentRoute, ...)]), and the target pin, green while
    accepted (the pickup) and red otherwise (the drop). *)
Inductive layer : Type :=
| RouteLine (path : list LatLngTuple)
| RouteBorder (path : list LatLngTuple)
| TargetPin (at_ : LatLngTuple) (green : bool).

Record TripMap : Type := mkTripMap {
  tm_layers : list (nat * layer);      (** layers on the map, by id *)
  tm_refs : list nat;                  (** [layersRef.current] *)
  tm_next : nat;                       (** next Leaflet id *)
  tm_marker : option LatLngTuple;      (** [driverMarkerRef.current] *)
  tm_marker_adds : nat;                (** [L.marker(...).addTo(map)] calls *)
  tm_view : option LatLngTuple         (** last [map.setView] centre *)
}.

Definition tm_init : TripMap := mkTripMap [] [] 0 None 0 None.

(** What a render hands to the effect: [trip.status], [trip.pickup],
    [trip.drop], [currentRoute] and [driverPosition]. *)
Record draw_props : Type := mkDrawProps {
  dp_status : status;
  dp_pickup : option coord_val;
  dp_drop : option coord_val;
  dp_route : option (list LatLngTuple);
  dp_pos : option LatLngTuple
}.

(** [layersRef.current.forEach(layer => map.removeLayer(layer));
    layersRef.current = []]. *)
Definition clear_layers (m : TripMap) : TripMap :=
  mkTripMap (List.filter (fun kl => negb (existsb (Nat.eqb (fst kl)) (tm_refs m))) (tm_layers m))
            [] (tm_next m) (tm_marker m) (tm_marker_adds m) (tm_view m).

(** [L.<layer>(...).addTo(map)] followed by [layersRef.current.push]. *)
Definition add_layer (l : layer) (m : TripMap) : TripMap :=
  mkTripMap (tm_layers m ++ [(tm_next m, l)]) (tm_refs m ++ [tm_next m]) (S (tm_next m))
            (tm_marker m) (tm_marker_adds m) (tm_view m).

(** [const target = trip.status === 'accepted' ? trip.pickup : trip.drop]. *)
Definition pin_target (p : draw_props) : option coord_val :=
  if status_eqb (dp_status p) Accepted then dp_pickup p else dp_drop p.

(** The drawing effect. *)
Definition draw (p : draw_props) (m : TripMap) : TripMap :=
  let m1 := clear_layers m in
  let m2 := match dp_route p with
            | Some r => add_layer (RouteBorder r) (add_layer (RouteLine r) m1)
            | None => m1
            end in
  let m3 := match dp_pos p with
            | Some q =>
                let adds := match tm_marker m2 with None => S (tm_marker_adds m2) | Some _ => tm_marker_adds m2 end in
                mkTripMap (tm_layers m2) (tm_refs m2) (tm_next m2) (Some q) adds (Some q)
            | None => m2
            end in
  match pin_target p with
  | Some c =>
      match coord_of c with
      | Some q => add_layer (TargetPin q (status_eqb (dp_status p) Accepted)) m3
      | None => m3
      end
  | None => m3
  end.

(** A render: the effect runs, its [driverIcon] dependency being new. *)
Definition trip_render (p : draw_props) (m : TripMap) : TripMap := draw p m.

Definition trip_renders (m : TripMap) (ps : list draw_props) : TripMap :=
  fold_left (fun m p => trip_render p m) ps m.

(** The layers a render's props call for. *)
Definition expected_layers (p : draw_props) : list layer :=
  match dp_route p with Some r => [RouteLine r; RouteBorder r] | None => [] end ++
  match pin_target p with
  | Some c => match coord_of c with
              | Some q => [TargetPin q (status_eqb (dp_status p) Accepted)]
              | None => []
              end
  | None => []
  end.

(** The last known driver position after a run of renders. *)
Definition last_known (ls : option LatLngTuple) (ps : list draw_props) : option LatLngTuple :=
  fold_left (fun ls p => match dp_pos p with Some q => Some q | None => ls end) ps ls.

(** The map's state between renders: the layers on the map are those
    of [layersRef], and the marker and view are at the last known
    position [ls], the marker created once if there is one. *)
Definition tm_inv (ls : option LatLngTuple) (m : TripMap) : Prop :=
  map fst (tm_layers m) = tm_refs m /\ tm_marker m = ls /\ tm_view m = ls /\
  tm_marker_adds m = match ls with Some _ => 1 | None => 0 end.

(** ** Lemmas *)

Lemma clear_all (l : list (nat * layer)) refs :
  (forall k, In k (map fst l) -> In k refs) ->
  List.filter (fun kl => negb (existsb (Nat.eqb (fst kl)) refs)) l = [].
Proof.
  induction l as [|[k x] l IH]; intros H; [reflexivity|]. cbn.
  assert (E : existsb (Nat.eqb k) refs = true)
    by (apply existsb_exists; exists k; split; [apply H; left; reflexivity | apply Nat.eqb_refl]).
  rewrite E. apply IH. intros k' Hk'. apply H. right. exact Hk'.
Qed.

Lemma clear_layers_eq m :
  map fst (tm_layers m) = tm_refs m ->
  clear_layers m = mkTripMap [] [] (tm_next m) (tm_marker m) (tm_marker_adds m) (tm_view m).
Proof. intros H. unfold clear_layers. rewrite (clear_all _ (tm_refs m)); [reflexivity|]. rewrite H. auto. Qed.

(** One run of the drawing effect: the layers it leaves are the
    expected ones, all new, tracked by [layersRef]; the marker is
    created on the first position and moved afterwards. *)
Lemma draw_layers p m :
  map fst (tm_layers m) = tm_refs m ->
  map snd (tm_layers (draw p m)) = expected_layers p /\
  map fst (tm_layers (draw p m)) = tm_refs (draw p m) /\
  Forall (fun k => tm_next m <= k) (tm_refs (draw p m)) /\
  tm_marker (draw p m) = match dp_pos p with Some q => Some q | None => tm_marker m end /\
  tm_view (draw p m) = match dp_pos p with Some q => Some q | None => tm_view m end /\
  tm_marker_adds (draw p m) =
    match tm_marker m, dp_pos p with None, Some _ => S (tm_marker_adds m) | _, _ => tm_marker_adds m end.
Proof.
  intros H. unfold draw, expected_layers. rewrite (clear_layers_eq m H).
  destruct (dp_route p) as [r|]; destruct (dp_pos p) as [q|]; destruct (pin_target p) as [c|];
    try destruct (coord_of c); cbn; destruct (tm_marker m); repeat split; repeat constructor; lia.
Qed.

Lemma draw_inv ls p m :
  tm_inv ls m -> tm_inv (match dp_pos p with Some q => Some q | None => ls end) (draw p m).
Proof.
  intros (H1 & H2 & H3 & H4). destruct (draw_layers p m H1) as (_ & E1 & _ & E2 & E3 & E4).
  unfold tm_inv. rewrite E1, E2, E3, E4, H2, H3, H4.
  destruct (dp_pos p), ls; repeat split.
Qed.

Lemma renders_inv ps ls m : tm_inv ls m -> tm_inv (last_known ls ps) (trip_renders m ps).
Proof.
  revert ls m. induction ps as [|p ps IH]; intros ls m H; [exact H|].
  apply IH. apply draw_inv, H.
Qed.

Lemma trip_renders_snoc m ps p : trip_renders m (ps ++ [p]) = trip_render p (trip_renders m ps).
Proof. unfold trip_renders. rewrite fold_left_app. reflexivity. Qed.

(** C29: The trip map shows exactly what the current render calls for:
    after any run of renders from mount, the map's layers are the
    current route (line and border) and the current target's pin, no
    layer of an earlier render is left, and every layer shown was
    created by the last render (ids at or above the next id before it:
    the route and pin are removed and redrawn at every render, since
    [driverIcon] is new each time); the driver marker was created once,
    at the first known position, and it and the view are at the last
    known position. *)
Theorem render_shows_current_layers ps p :
  map snd (tm_layers (trip_render p (trip_renders tm_init ps))) = expected_layers p /\
  Forall (fun k => tm_next (trip_renders tm_init ps) <= k)
         (map fst (tm_layers (trip_render p (trip_renders tm_init ps)))) /\
  tm_marker (trip_render p (trip_renders tm_init ps)) = last_known None (ps ++ [p]) /\
  tm_view (trip_render p (trip_renders tm_init ps)) = last_known None (ps ++ [p]) /\
  tm_marker_adds (trip_render p (trip_renders tm_init ps)) =
    match last_known None (ps ++ [p]) with Some _ => 1 | None => 0 end.
Proof.
  assert (H0 : tm_inv None tm_init) by (repeat split).
  destruct (renders_inv ps None tm_init H0) as (H1 & _).
  destruct (draw_layers p _ H1) as (E1 & E2 & E3 & _).
  destruct (renders_inv (ps ++ [p]) None tm_init H0) as (_ & F2 & F3 & F4).
  rewrite trip_renders_snoc in F2, F3, F4.
  split; [exact E1|]. split; [unfold trip_render; rewrite E2; exact E3|]. auto.
Qed.

(** The navigation header: [t(...)] keys and the sub-line. *)
Inductive header_text : Type :=
| HArrivedAtPickup | HWaitingForDriver | HTripInProgress | HTripCompleted.

Inductive header_sub : Type :=
| SubText (s : string)          (** a literal line *)
| SubCanContinue.               (** [t('canContinue')] *)

(** [getHeaderInfo()] (the background colour is styling). *)
Definition getHeaderInfo (s : status) (destinationAddress : string) : header_text * header_sub :=
  match s with
  | Accepted => (HArrivedAtPickup, SubText ("Picking up at " ++ destinationAddress))
  | Arrived => (HWaitingForDriver, SubCanContinue)
  | InProgress => (HTripInProgress, SubText ("Dropping off at " ++ destinationAddress))
  | _ => (HTripCompleted, SubText "")
  end%string.

End TripMap.
