(* ===== verification/RouteRuns.v ===== *)
(** Runs of the route engine of RouteEngine.v, and the behaviours in
    which the code departs from the specification's route and label
    rules: the label fetched for the pickup is kept for the drop (from
    any mounted view with a label, [label_not_refetched_for_drop]); the
    answer of a route fetch is shown whichever fetch it answers, so an
    older route overwrites a newer one ([stale_route_overwrites]); and,
    as concrete runs, a route answered after arrival, a second geocode of
    the same target, and a route fetch issued after unmount.  The
    witnesses of RouteEngine's theorems are here. *)

From Stdlib Require Import QArith List Bool Arith String Lia.
From S2P Require Import Prelude Types RouteEngine TripScreen.
Import ListNotations Route.
Local Open Scope nat_scope.

Definition rpk : option coord_val := Some (CPair (1530 # 100) (4420 # 100)).
Definition rdr : option coord_val := Some (CPair (1535 # 100) (4425 # 100)).

(** Dependencies with status [s] and the driver at latitude [x], the
    arrays of the first delivery ([x] changes only with a new position
    array: the identity is that of the booking's arrays). *)
Definition rdeps (s : status) (x : Q) : deps := mkDeps s rpk rdr (Some (x, 44%Q)) "ar"%string 0.

(** The view just mounted for an accepted trip, its first timer armed. *)
Definition rmount : Nav :=
  mkNav 0 true (rdeps Accepted 15) (Some (1000, mkClosure (rdeps Accepted 15) ""%string))
        [] 0 None ""%string [] [].

Definition route_a : list LatLngTuple := [(15, 44); (1530 # 100, 4420 # 100)]%Q.
Definition route_b : list LatLngTuple := [(1501 # 100, 44); (1530 # 100, 4420 # 100)]%Q.

(** C16: The pickup label is never replaced: from any mounted view with
    a label and no run pending, a render that moves the trip to
    in_progress arms a run that, when it fires, does not geocode the drop
    and keeps the label, so the header says "Dropping off at" the label
    fetched for the pickup; the specification refetches the label once on
    the arrived -> in_progress edge. *)
Theorem label_not_refetched_for_drop n t d n' :
  mounted n = true -> timer n = None -> now n <= t -> d <> cur n -> d_status d = InProgress ->
  destinationAddress n <> ""%string ->
  nav_run n [Render t d; Wait (t + debounce_ms)] = Some n' ->
  geocode_calls n' = geocode_calls n /\ destinationAddress n' = destinationAddress n /\
  TripMap.getHeaderInfo (d_status d) (destinationAddress n') =
    (TripMap.HTripInProgress, TripMap.SubText ("Dropping off at " ++ destinationAddress n)%string).
Proof.
  intros Hm Ht Hnow Hd Hs Ha Hr. cbn [nav_run] in Hr. rewrite (render_arm n t d Hm Ht Hnow Hd) in Hr.
  cbn [nav_step nav_run now] in Hr. replace (t <=? t + debounce_ms) with true in Hr by (symmetry; apply Nat.leb_le; lia).
  unfold advance in Hr. cbn [timer] in Hr. rewrite Nat.leb_refl in Hr.
  injection Hr as <-. cbn [geocode_calls destinationAddress].
  rewrite cached_label_not_refetched by exact Ha. rewrite updateNavigation_address, Hs. repeat split.
Qed.

(** C15: Responses are not matched to the request that is still current
    (spec 5 requires a newer fetch to win): with two route fetches in
    flight, the answer that arrives last is the route shown, whichever
    fetch it answers; in particular a newer fetch answering first is
    overwritten by an older one answering last, with the dependencies and
    the timer left as they were. *)
Theorem stale_route_overwrites n k1 k2 r1 r2 n1 n2 :
  mounted n = true -> find_proc k1 (procs n) = Some AwaitRoute ->
  find_proc k2 (procs n) = Some AwaitRoute -> k1 <> k2 ->
  nav_step n (RouteReturns k2 (Some r2)) = Some n1 -> nav_step n1 (RouteReturns k1 (Some r1)) = Some n2 ->
  currentRoute n1 = Some r2 /\ currentRoute n2 = Some r1 /\ cur n2 = cur n /\ timer n2 = timer n.
Proof.
  intros Hm H1 H2 Hne S1 S2. rewrite (route_returns_mounted n k2 r2 Hm H2) in S1. injection S1 as <-.
  rewrite route_returns_mounted in S2; [| reflexivity | cbn; rewrite find_proc_drop_other by exact Hne; exact H1].
  injection S2 as <-. repeat split.
Qed.

(** A route fetched for the pickup that answers after arrival is shown
    although arrival cleared the route. *)
Example stale_route_after_arrival :
  on_some (nav_run rmount
    [Wait 1000; GeocodeReturns 0 (Some "A"%string);
     Render 1500 (rdeps Arrived 15); Wait 2500; RouteReturns 1 (Some route_a)])
    (fun n => d_status (cur n) = Arrived /\ currentRoute n = Some route_a).
Proof. vm_compute. repeat split. Qed.

(** The label is not fetched "at most once per target": the timer's
    closure holds the label of its render, so when the driver moves
    while the first geocode is still in flight, the next run geocodes
    the same pickup again. *)
Theorem duplicate_geocode_while_in_flight :
  on_some (nav_run rmount [Wait 1000; Render 1200 (rdeps Accepted (1501 # 100)); Wait 2200])
    (fun n => geocode_calls n = [(1530 # 100, 4420 # 100); (1530 # 100, 4420 # 100)]%Q).
Proof. vm_compute. reflexivity. Qed.

(** Work continues after disposal: a run suspended at its geocode
    when the view unmounts still calls the router once the geocode
    answers (the state updates themselves are dropped). *)
Theorem route_fetch_after_unmount :
  on_some (nav_run rmount [Wait 1000; Unmount 1100; GeocodeReturns 0 (Some "A"%string)])
    (fun n => mounted n = false /\ destinationAddress n = ""%string /\
              route_calls n = [((15, 44), (1530 # 100, 4420 # 100))%Q]).
Proof. vm_compute. repeat split. Qed.

(** ** Witnesses *)

Definition rlabelled : Nav :=
  mkNav 0 true (rdeps Accepted 15) (Some (1000, mkClosure (rdeps Accepted 15) "Pickup St"%string))
        [] 0 None "Pickup St"%string [] [].

(** The specification's example: changes at 0, 200 and 400 ms give one
    run, at 1400 ms, for the 400 ms state. *)
Lemma debounce_single_run_witness :
  nav_run rlabelled (renders [(0, rdeps Accepted (1501 # 100)); (200, rdeps Accepted (1502 # 100));
                              (400, rdeps Accepted (1503 # 100))] ++ [Wait 1400])
  = Some (at_time 1400
      (updateNavigation (mkClosure (rdeps Accepted (1503 # 100)) "Pickup St"%string)
        (mkNav 1400 true (rdeps Accepted (1503 # 100)) None [] 0 None "Pickup St"%string [] []))).
Proof.
  apply (debounce_single_run rlabelled 1000 (mkClosure (rdeps Accepted 15) "Pickup St"%string)
    [(0, rdeps Accepted (1501 # 100)); (200, rdeps Accepted (1502 # 100));
     (400, rdeps Accepted (1503 # 100))] 1400);
    first [ reflexivity | discriminate | vm_compute; reflexivity | vm_compute; lia ].
Defined.

Lemma cached_label_not_refetched_witness :
  geocode_calls (updateNavigation (mkClosure (rdeps InProgress 15) "Pickup St"%string) rlabelled)
  = geocode_calls rlabelled.
Proof. apply cached_label_not_refetched. discriminate. Defined.

(** The view unmounts at 1500 ms with a run suspended at its geocode
    and a second run armed for 2200 ms. *)
Lemma unmounted_state_frozen_witness :
  exists n n1 n', nav_run rmount [Wait 1000; Render 1200 (rdeps Accepted (1501 # 100))] = Some n /\
    timer n <> None /\ nav_step n (Unmount 1500) = Some n1 /\
    nav_run n1 [Wait 3000; GeocodeReturns 0 (Some "A"%string); Render 3500 (rdeps Arrived 15)] = Some n' /\
    mounted n' = false /\ timer n' = None /\ currentRoute n' = currentRoute n1 /\
    destinationAddress n' = destinationAddress n1.
Proof.
  do 3 eexists. split; [vm_compute; reflexivity|]. split; [vm_compute; discriminate|].
  match goal with
  | |- nav_step ?n _ = _ /\ _ =>
      split; [vm_compute; reflexivity|]; split; [vm_compute; reflexivity|];
      apply (unmounted_state_frozen n 1500 _ [Wait 3000; GeocodeReturns 0 (Some "A"%string); Render 3500 (rdeps Arrived 15)]); vm_compute; reflexivity
  end.
Defined.

(** The view after arrival, the pickup's label fetched and no run pending. *)
Definition rarrived : Nav :=
  mkNav 2000 true (rdeps Arrived 15) None [] 2 (Some route_a) "Pickup St"%string
        [(1530 # 100, 4420 # 100)%Q] [((15, 44), (1530 # 100, 4420 # 100))%Q].

Lemma label_not_refetched_for_drop_witness :
  exists n', nav_run rarrived [Render 3000 (rdeps InProgress 15); Wait (3000 + debounce_ms)] = Some n' /\
    geocode_calls n' = geocode_calls rarrived /\ destinationAddress n' = destinationAddress rarrived /\
    TripMap.getHeaderInfo InProgress (destinationAddress n') =
      (TripMap.HTripInProgress, TripMap.SubText ("Dropping off at " ++ destinationAddress rarrived)%string).
Proof.
  eexists. split; [vm_compute; reflexivity|].
  apply (label_not_refetched_for_drop rarrived 3000 (rdeps InProgress 15));
    first [reflexivity | cbn; lia | intros E; vm_compute in E; discriminate | vm_compute; reflexivity].
Defined.

Lemma stale_route_overwrites_witness :
  exists n n1 n2,
    nav_run rmount [Wait 1000; GeocodeReturns 0 (Some "A"%string);
                    Render 1500 (rdeps Accepted (1501 # 100)); Wait 2500] = Some n /\
    nav_step n (RouteReturns 2 (Some route_b)) = Some n1 /\
    nav_step n1 (RouteReturns 1 (Some route_a)) = Some n2 /\
    currentRoute n1 = Some route_b /\ currentRoute n2 = Some route_a /\ cur n2 = cur n /\ timer n2 = timer n.
Proof.
  do 3 eexists. split; [vm_compute; reflexivity|]. split; [vm_compute; reflexivity|].
  split; [vm_compute; reflexivity|].
  eapply (stale_route_overwrites _ 1 2); first [discriminate | vm_compute; reflexivity].
Defined.

(** Witness of [redeliveries_postpone_navigation]: ten deliveries 900 ms
    apart after the mount; at 9100 ms nothing has been fetched yet. *)
Lemma redeliveries_postpone_navigation_witness :
  exists n', nav_run rmount (renders (redeliveries (cur rmount) (now rmount) 900
                                        (S (d_arrays (cur rmount))) 10)) = Some n' /\
    geocode_calls n' = geocode_calls rmount /\ route_calls n' = route_calls rmount /\
    currentRoute n' = currentRoute rmount /\
    exists c', timer n' = Some (now rmount + 9 * 900 + debounce_ms, c').
Proof.
  apply (redeliveries_postpone_navigation rmount 1000 (mkClosure (rdeps Accepted 15) ""%string) 900 9);
    [reflexivity | reflexivity | apply Nat.ltb_lt; reflexivity | apply Nat.ltb_lt; reflexivity].
Defined.
