(* ===== verification/GhostDrivers.v ===== *)
(** Nearby "ghost" drivers of MapPicker.tsx (the effect of lines
    189-241).

    The effect runs when [isPickup] or [selectedLocation] changes.  With
    a map, a pickup mode and a location it starts [initDrivers], which
    removes the markers of [driverMarkersRef] (shared by every run of the
    effect), awaits [getNearbyDrivers(center)], adds one marker per
    position and starts a 2000 ms interval that moves every marker of
    the shared ref by [(Math.random() - 0.5) * 0.0003] on each axis.
    The cleanup clears that run's interval, if [simulationInterval] was
    already set, and removes the markers of the shared ref.

    State: the shared marker positions, the running intervals (by the
    effect run that started them), the runs whose [initDrivers] is still
    awaiting, the run whose cleanup is registered, and whether the map
    still exists.  [Math.random()] values are inputs, one pair per marker
    per tick.

    The theorems: each ghost stays within the walk's bound of its spawn
    point; when the dependencies change only after the pending request
    answered, a change leaves no interval and no ghost; in any order of
    events, a change during the request orphans the run's interval,
    which no cleanup clears afterwards. *)

From Stdlib Require Import ZArith QArith Qabs Lqa List Bool Arith Lia.
From S2P Require Import Prelude Types.
Import ListNotations.

Module Ghosts.

(** [0.0003]. *)
Definition step_size : Q := 3 # 10000.

(** [(Math.random() - 0.5) * 0.0003]. *)
Definition drift (r : Q) : Q := (r - (1 # 2)) * step_size.

(** [marker.setLatLng([newLat, newLng])]. *)
Definition move (p : LatLngTuple) (r : Q * Q) : LatLngTuple :=
  ((fst p + drift (fst r))%Q, (snd p + drift (snd r))%Q).

(** One interval tick over the markers, with one pair of random draws
    per marker (in the order [forEach] visits them). *)
Fixpoint move_all (ms : list LatLngTuple) (rs : list (Q * Q)) : option (list LatLngTuple) :=
  match ms, rs with
  | [], [] => Some []
  | m :: ms', r :: rs' =>
      match move_all ms' rs' with Some ms'' => Some (move m r :: ms'') | None => None end
  | _, _ => None
  end.

Record Sim : Type := mkSim {
  markers : list LatLngTuple;        (** [driverMarkersRef.current] *)
  intervals : list nat;              (** running [setInterval]s, by effect run *)
  awaiting : list (nat * LatLngTuple); (** runs suspended in [getNearbyDrivers] *)
  registered : option nat;           (** the run whose cleanup React holds *)
  map_alive : bool;                  (** [mapRef.current] is set *)
  next_run : nat
}.

Inductive sim_event : Type :=
| Deps (isPickup : bool) (selected : option LatLngTuple)  (** the effect's dependencies change *)
| DriversArrive (k : nat) (positions : list LatLngTuple)  (** [getNearbyDrivers] of run [k] answers *)
| Tick (k : nat) (draws : list (Q * Q))                   (** run [k]'s interval fires *)
| MapRemoved.                                             (** MapPicker unmounts *)

(** The cleanup of run [k]: its interval is cleared only if
    [simulationInterval] is set, i.e. its drivers have arrived; the
    shared markers are removed either way. *)
Definition cleanup (k : nat) (s : Sim) : Sim :=
  mkSim [] (List.filter (fun j => negb (Nat.eqb j k)) (intervals s))
        (awaiting s) None (map_alive s) (next_run s).

Definition run_cleanup (s : Sim) : Sim :=
  match registered s with Some k => cleanup k s | None => s end.

(** The effect body: the guard, then [initDrivers] up to its await
    (which first empties the shared ref). *)
Definition effect (isPickup : bool) (selected : option LatLngTuple) (s : Sim) : Sim :=
  match selected with
  | Some center =>
      if isPickup && map_alive s then
        mkSim [] (intervals s) (awaiting s ++ [(next_run s, center)])
              (Some (next_run s)) (map_alive s) (S (next_run s))
      else s
  | None => s
  end.

Definition find_awaiting (k : nat) (s : Sim) : bool :=
  existsb (fun kc => Nat.eqb (fst kc) k) (awaiting s).

Definition sim_step (s : Sim) (e : sim_event) : option Sim :=
  match e with
  | Deps p sel => Some (effect p sel (run_cleanup s))
  | DriversArrive k ps =>
      if find_awaiting k s then
        Some (mkSim (if map_alive s then markers s ++ ps else markers s)
                    (intervals s ++ [k])
                    (List.filter (fun kc => negb (Nat.eqb (fst kc) k)) (awaiting s))
                    (registered s) (map_alive s) (next_run s))
      else None
  | Tick k draws =>
      if existsb (Nat.eqb k) (intervals s) then
        match move_all (markers s) draws with
        | Some ms => Some (mkSim ms (intervals s) (awaiting s) (registered s) (map_alive s) (next_run s))
        | None => None
        end
      else None
  | MapRemoved =>
      let s1 := run_cleanup s in
      Some (mkSim (markers s1) (intervals s1) (awaiting s1) None false (next_run s1))
  end.

Fixpoint sim_run (s : Sim) (es : list sim_event) : option Sim :=
  match es with
  | [] => Some s
  | e :: rest => match sim_step s e with Some s' => sim_run s' rest | None => None end
  end.

Definition sim_init : Sim := mkSim [] [] [] None true 0.

(** ** The random walk *)

(** [Math.random()] draws lie in [0, 1). *)
Definition rand_ok (r : Q * Q) : Prop :=
  (0 <= fst r /\ fst r < 1 /\ 0 <= snd r /\ snd r < 1)%Q.

(** Half a step: [0.00015] degrees. *)
Definition max_drift : Q := 3 # 20000.

(** Successive ticks. *)
Fixpoint walk (ms : list LatLngTuple) (ticks : list (list (Q * Q))) : option (list LatLngTuple) :=
  match ticks with
  | [] => Some ms
  | t :: rest => match move_all ms t with Some ms' => walk ms' rest | None => None end
  end.

(** [n] as a rational. *)
Definition nQ (n : nat) : Q := inject_Z (Z.of_nat n).

Lemma nQ_succ n : (nQ (S n) == nQ n + 1)%Q.
Proof. unfold nQ. rewrite Nat2Z.inj_succ, <- Z.add_1_r, inject_Z_plus. reflexivity. Qed.

Lemma nQ_zero : (nQ 0 == 0)%Q.
Proof. reflexivity. Qed.

(** Being within [n] half-steps of a spawn point on each axis. *)
Definition within (n : nat) (p0 p : LatLngTuple) : Prop :=
  (- (nQ n * max_drift) <= fst p - fst p0 <= nQ n * max_drift /\
   - (nQ n * max_drift) <= snd p - snd p0 <= nQ n * max_drift)%Q.

Lemma drift_bound r : (0 <= r -> r < 1 -> - max_drift <= drift r <= max_drift)%Q.
Proof. unfold drift, step_size, max_drift. intros. split; lra. Qed.

Lemma within_move n p0 p r :
  rand_ok r -> within n p0 p -> within (S n) p0 (move p r).
Proof.
  unfold within, rand_ok, move. simpl. rewrite nQ_succ.
  intros (H1 & H2 & H3 & H4) ((Ha & Hb) & (Hc & Hd)).
  pose proof (drift_bound _ H1 H2). pose proof (drift_bound _ H3 H4).
  split; split; nra.
Qed.

Lemma move_all_within n p0s ps rs ps' :
  Forall rand_ok rs -> Forall2 (within n) p0s ps -> move_all ps rs = Some ps' ->
  Forall2 (within (S n)) p0s ps'.
Proof.
  intros Hr Hw. revert rs ps' Hr. induction Hw as [|p0 p p0s ps Hp Hw IH];
    intros [|r rs] ps' Hr Hm; simpl in Hm; try discriminate.
  - injection Hm as <-. constructor.
  - inversion Hr as [|? ? Hr1 Hrs]; subst.
    destruct (move_all ps rs) as [ps''|] eqn:E; [|discriminate]. injection Hm as <-.
    constructor; [apply within_move; assumption | exact (IH rs ps'' Hrs E)].
Qed.

Lemma within_zero p : within 0 p p.
Proof. unfold within. rewrite nQ_zero. split; split; lra. Qed.

Lemma walk_within_from n spawn cur ticks ms :
  Forall (Forall rand_ok) ticks -> Forall2 (within n) spawn cur ->
  walk cur ticks = Some ms -> Forall2 (within (n + List.length ticks)) spawn ms.
Proof.
  intros Hok. revert n cur.
  induction Hok as [|t rest Ht Hrest IH]; intros n cur Hw Hwalk; simpl in Hwalk.
  - injection Hwalk as <-. rewrite Nat.add_0_r. exact Hw.
  - destruct (move_all cur t) as [cur'|] eqn:E; [|discriminate].
    simpl. rewrite Nat.add_succ_r, <- Nat.add_succ_l.
    exact (IH (S n) cur' (move_all_within n spawn cur t cur' Ht Hw E) Hwalk).
Qed.

(** ** The simulator *)

Lemma ticks_walk s0 k ticks s :
  existsb (Nat.eqb k) (intervals s0) = true ->
  sim_run s0 (map (Tick k) ticks) = Some s -> walk (markers s0) ticks = Some (markers s).
Proof.
  revert s0. induction ticks as [|t ticks IH]; intros s0 Hk Hrun; simpl in Hrun |- *.
  - injection Hrun as <-. reflexivity.
  - rewrite Hk in Hrun. destruct (move_all (markers s0) t) as [ms|]; [|discriminate].
    exact (IH (mkSim ms (intervals s0) (awaiting s0) (registered s0) (map_alive s0) (next_run s0))
              Hk Hrun).
Qed.

(** C17: Ghost drift is bounded (spec 8): after the drivers around a
    pickup arrive and the interval has fired [N] times with
    [Math.random()] draws in [0, 1), every ghost lies within [N *
    0.00015] degrees of its spawn point on each axis. *)
Theorem ghost_drift_bounded c spawn ticks s :
  Forall (Forall rand_ok) ticks ->
  sim_run sim_init ([Deps true (Some c); DriversArrive 0 spawn] ++ map (Tick 0) ticks) = Some s ->
  Forall2 (within (List.length ticks)) spawn (markers s).
Proof.
  intros Hok Hrun. simpl in Hrun.
  apply (walk_within_from 0 spawn spawn ticks); [exact Hok| |].
  - clear. induction spawn; constructor; [apply within_zero | assumption].
  - exact (ticks_walk (mkSim spawn [0%nat] [] (Some 0%nat) true 1) 0 ticks s eq_refl Hrun).
Qed.

(** Every running interval and every awaiting run belongs to the run
    whose cleanup is registered; with none registered, nothing is
    running or shown. *)
Definition owned (s : Sim) : Prop :=
  match registered s with
  | None => markers s = [] /\ intervals s = [] /\ awaiting s = []
  | Some k => (forall j, In j (intervals s) -> j = k) /\
              (forall kc, In kc (awaiting s) -> fst kc = k)
  end.

(** Serialized use: the dependencies change (or the map goes away) only
    once the pending [getNearbyDrivers] has answered. *)
Definition serial_ok (s : Sim) (e : sim_event) : bool :=
  match e with
  | Deps _ _ | MapRemoved => match awaiting s with [] => true | _ => false end
  | _ => true
  end.

Inductive sim_serial_step : Sim -> Sim -> Prop :=
| sim_serial s e s' : serial_ok s e = true -> sim_step s e = Some s' -> sim_serial_step s s'.

Lemma filter_owned (l : list nat) k :
  (forall j, In j l -> j = k) -> List.filter (fun j => negb (Nat.eqb j k)) l = [].
Proof.
  induction l as [|j l IH]; intros H; [reflexivity|]. simpl.
  rewrite (H j (or_introl eq_refl)), Nat.eqb_refl. apply IH. intros. apply H. right. assumption.
Qed.

(** With nothing awaiting, the cleanup leaves nothing behind. *)
Lemma run_cleanup_clean s :
  owned s -> awaiting s = [] ->
  markers (run_cleanup s) = [] /\ intervals (run_cleanup s) = [] /\
  awaiting (run_cleanup s) = [] /\ registered (run_cleanup s) = None /\
  map_alive (run_cleanup s) = map_alive s /\ next_run (run_cleanup s) = next_run s.
Proof.
  unfold owned, run_cleanup. intros Ho Ha. destruct (registered s) as [k|] eqn:Hr.
  - destruct Ho as [Hi _]. simpl. repeat split; auto. apply filter_owned. exact Hi.
  - destruct Ho as (Hm & Hi & _). rewrite Hr. repeat split; auto.
Qed.

Lemma effect_owned p sel s :
  markers s = [] -> intervals s = [] -> awaiting s = [] -> registered s = None ->
  owned (effect p sel s).
Proof.
  intros Hm Hi Ha Hr. unfold effect, owned.
  destruct sel as [c|]; [destruct (p && map_alive s)|]; simpl; rewrite ?Hr; auto.
  rewrite Hi, Ha. simpl. split; [intros j []|intros kc [<-|[]]; reflexivity].
Qed.

Lemma sim_serial_owned s s' : owned s -> sim_serial_step s s' -> owned s'.
Proof.
  intros Ho Hst. inversion Hst as [s0 e s1 Hok Hs]; subst s0 s1. clear Hst.
  rename s into s0.
  destruct e as [p sel|k ps|k draws|]; simpl in Hs, Hok.
  - destruct (awaiting s0) eqn:Ha; [|discriminate]. injection Hs as <-.
    destruct (run_cleanup_clean s0 Ho Ha) as (Hm & Hi & Ha' & Hr & _).
    apply effect_owned; assumption.
  - unfold find_awaiting in Hs. destruct (existsb _ _) eqn:E; [|discriminate].
    injection Hs as <-. apply existsb_exists in E as [[k' c] [Hin Hk]].
    apply Nat.eqb_eq in Hk. simpl in Hk. subst k'.
    unfold owned in *. simpl. destruct (registered s0) as [r|].
    + destruct Ho as [Hi Ha]. pose proof (Ha _ Hin) as Hkr. simpl in Hkr. subst r. split.
      * intros j Hj. apply in_app_or in Hj as [Hj|[<-|[]]]; auto.
      * intros kc Hkc. apply filter_In in Hkc as [Hkc _]. auto.
    + destruct Ho as (_ & _ & Ha). rewrite Ha in Hin. contradiction.
  - destruct (existsb _ _); [|discriminate].
    destruct (move_all (markers s0) draws) as [ms|] eqn:E; [|discriminate].
    injection Hs as <-. unfold owned in *. simpl. destruct (registered s0); [exact Ho|].
    destruct Ho as (Hm & Hi & Ha). rewrite Hm in E. destruct draws; [|discriminate].
    injection E as <-. auto.
  - destruct (awaiting s0) eqn:Ha; [|discriminate]. injection Hs as <-.
    destruct (run_cleanup_clean s0 Ho Ha) as (Hm & Hi & Ha' & Hr & _).
    unfold owned. simpl. auto.
Qed.

Lemma sim_init_owned : owned sim_init.
Proof. unfold owned. simpl. auto. Qed.

(** C19: Stopping or restarting leaves nothing of the previous run
    (spec 4.4), when the dependencies only change after the pending
    request has answered: a change of [isPickup] or [selectedLocation]
    leaves no interval running and no ghost on the map (a restart then
    shows only the drivers of the new center). *)
Theorem serial_deps_change_clears s p sel s' :
  star sim_serial_step sim_init s -> awaiting s = [] ->
  sim_step s (Deps p sel) = Some s' ->
  intervals s' = [] /\ markers s' = [].
Proof.
  intros Hstar Ha Hs.
  assert (Ho : owned s) by (apply (star_preserves _ owned sim_init s sim_serial_owned Hstar sim_init_owned)).
  simpl in Hs. injection Hs as <-.
  destruct (run_cleanup_clean s Ho Ha) as (Hm & Hi & _).
  unfold effect. destruct sel as [c|]; [destruct (p && map_alive _)|]; simpl; auto.
Qed.

(** ** A dependency change during [getNearbyDrivers] *)

(** Any step, in any order: the dependencies may change while a
    request is in flight. *)
Inductive sim_any_step : Sim -> Sim -> Prop :=
| sim_any s e s' : sim_step s e = Some s' -> sim_any_step s s'.

(** The registered run is one already started. *)
Definition reg_below (s : Sim) : Prop := forall k, registered s = Some k -> (k < next_run s)%nat.

(** Run [k] is orphaned: started, and no longer the run whose cleanup
    React holds. *)
Definition orphan (k : nat) (s : Sim) : Prop := (k < next_run s)%nat /\ registered s <> Some k.

Lemma run_cleanup_fields s :
  registered (run_cleanup s) = None /\ next_run (run_cleanup s) = next_run s.
Proof. unfold run_cleanup. destruct (registered s) eqn:E; cbn; auto. Qed.

(** The cleanup clears the interval of its own run only. *)
Lemma run_cleanup_keeps k s :
  registered s <> Some k -> In k (intervals s) -> In k (intervals (run_cleanup s)).
Proof.
  unfold run_cleanup. destruct (registered s) as [j|]; [|auto]. intros Hj Hk. cbn.
  apply filter_In. split; [exact Hk|]. apply negb_true_iff, Nat.eqb_neq. congruence.
Qed.

Lemma effect_fields p sel s :
  intervals (effect p sel s) = intervals s /\
  ((registered (effect p sel s) = registered s /\ next_run (effect p sel s) = next_run s) \/
   (registered (effect p sel s) = Some (next_run s) /\ next_run (effect p sel s) = S (next_run s))).
Proof. unfold effect. destruct sel; [destruct (p && map_alive s)|]; cbn; auto. Qed.

Lemma reg_below_step s s' : reg_below s -> sim_any_step s s' -> reg_below s'.
Proof.
  intros H Hst. inversion Hst as [s0 e s1 Hs]; subst s0 s1. clear Hst. unfold reg_below in *. destruct e as [p sel|j ps|j draws|]; cbn in Hs.
  - injection Hs as <-. destruct (run_cleanup_fields s) as [R N].
    destruct (effect_fields p sel (run_cleanup s)) as (_ & [[Re Ne]|[Re Ne]]); rewrite Re, Ne;
      [rewrite R; discriminate | rewrite N; intros k E; injection E as <-; lia].
  - destruct (find_awaiting j s); [|discriminate]. injection Hs as <-. exact H.
  - destruct (existsb _ _); [|discriminate]. destruct (move_all _ _); [|discriminate].
    injection Hs as <-. exact H.
  - injection Hs as <-. discriminate.
Qed.

Lemma orphan_step k s e s' :
  orphan k s -> sim_step s e = Some s' ->
  orphan k s' /\ (In k (intervals s) -> In k (intervals s')).
Proof.
  intros [Hlt Hr] Hs. unfold orphan. destruct e as [p sel|j ps|j draws|]; cbn in Hs.
  - injection Hs as <-. destruct (run_cleanup_fields s) as [R N].
    destruct (effect_fields p sel (run_cleanup s)) as (I & [[Re Ne]|[Re Ne]]); rewrite I, Re, Ne;
      (split; [split; [lia|] | apply run_cleanup_keeps, Hr]);
      [rewrite R; discriminate | rewrite N; intros E; injection E; lia].
  - destruct (find_awaiting j s); [|discriminate]. injection Hs as <-. cbn.
    split; [auto | intros Hk; apply in_or_app; left; exact Hk].
  - destruct (existsb _ _); [|discriminate]. destruct (move_all _ _); [|discriminate].
    injection Hs as <-. cbn. auto.
  - injection Hs as <-. cbn [registered next_run intervals]. rewrite (proj2 (run_cleanup_fields s)).
    split; [split; [lia | discriminate] | apply run_cleanup_keeps, Hr].
Qed.

(** A dependency change orphans the registered run. *)
Lemma deps_orphans k s p sel s1 :
  reg_below s -> registered s = Some k -> sim_step s (Deps p sel) = Some s1 -> orphan k s1.
Proof.
  intros Hb Hk H1. cbn in H1. injection H1 as <-. pose proof (Hb k Hk) as Hlt.
  destruct (run_cleanup_fields s) as [R N]. unfold orphan.
  destruct (effect_fields p sel (run_cleanup s)) as (_ & [[Re Ne]|[Re Ne]]); rewrite Re, Ne, ?R, N;
    (split; [lia|]); [discriminate | intros E; injection E; lia].
Qed.

Lemma orphan_run k s es s' :
  orphan k s -> sim_run s es = Some s' ->
  orphan k s' /\ (In k (intervals s) -> In k (intervals s')).
Proof.
  revert s. induction es as [|e es IH]; intros s Ho Hr; cbn in Hr; [injection Hr as <-; auto|].
  destruct (sim_step s e) as [s1|] eqn:E; [|discriminate].
  destruct (orphan_step k s e s1 Ho E) as [H1 I1]. destruct (IH s1 H1 Hr) as [H2 I2]. auto.
Qed.

Lemma sim_run_app s l1 l2 :
  sim_run s (l1 ++ l2) = match sim_run s l1 with Some s1 => sim_run s1 l2 | None => None end.
Proof.
  revert s. induction l1 as [|e l1 IH]; intros s; cbn; [reflexivity|].
  destruct (sim_step s e); [apply IH | reflexivity].
Qed.

(** C18: The effect's cleanup reads [simulationInterval] before
    [initDrivers] has set it: in any reachable state, when the
    dependencies change while the registered run's [getNearbyDrivers]
    is still in flight, that run's interval, once its drivers arrive,
    runs in every later state (whatever the picker does, the map's
    removal included) and its cleanup is no longer the registered one,
    so no cleanup can ever clear it (spec 4.4: stopping clears all
    timers, restarting fully resets). *)
Theorem race_leaks_interval s k p sel s1 es ps s' :
  star sim_any_step sim_init s -> registered s = Some k ->
  sim_step s (Deps p sel) = Some s1 -> sim_run s1 es = Some s' -> In (DriversArrive k ps) es ->
  In k (intervals s') /\ registered s' <> Some k.
Proof.
  intros Hreach Hk H1 Hr Hin.
  assert (Hb : reg_below s) by (apply (star_preserves _ reg_below sim_init s reg_below_step Hreach);
                                intros ? E; discriminate E).
  pose proof (deps_orphans k s p sel s1 Hb Hk H1) as Ho1.
  apply in_split in Hin as (l1 & l2 & ->). rewrite sim_run_app in Hr.
  destruct (sim_run s1 l1) as [s2|] eqn:E2; [|discriminate].
  pose proof (proj1 (orphan_run k s1 l1 s2 Ho1 E2)) as Ho2. cbn [sim_run] in Hr.
  destruct (sim_step s2 (DriversArrive k ps)) as [s3|] eqn:E3; [|discriminate].
  destruct (orphan_step k s2 _ s3 Ho2 E3) as [Ho3 _].
  assert (I3 : In k (intervals s3)).
  { cbn in E3. destruct (find_awaiting k s2); [|discriminate]. injection E3 as <-. cbn.
    apply in_or_app. right. left. reflexivity. }
  destruct (orphan_run k s3 l2 s' Ho3 Hr) as [[_ R] I]. auto.
Qed.

End Ghosts.

(** ** Runs *)

Definition gc1 : LatLngTuple := (1530 # 100, 4420 # 100)%Q.
Definition gc2 : LatLngTuple := (1540 # 100, 4410 # 100)%Q.
Definition gp1 : list LatLngTuple := [(15301 # 1000, 4420 # 100)%Q].
Definition gp2 : list LatLngTuple := [(15401 # 1000, 4410 # 100)%Q].

(** Witness of [ghost_drift_bounded]: one ghost, two ticks. *)
Definition gd_ticks : list (list (Q * Q)) := [[(1 # 4, 3 # 4)%Q]; [(0, 9 # 10)%Q]].

Definition gd_final : Ghosts.Sim :=
  match Ghosts.sim_run Ghosts.sim_init
          ([Ghosts.Deps true (Some gc1); Ghosts.DriversArrive 0 gp1] ++ map (Ghosts.Tick 0) gd_ticks)
  with Some s => s | None => Ghosts.sim_init end.

Lemma ghost_drift_bounded_witness :
  Forall2 (Ghosts.within (List.length gd_ticks)) gp1 (Ghosts.markers gd_final).
Proof.
  apply (Ghosts.ghost_drift_bounded gc1 gp1 gd_ticks gd_final).
  - repeat constructor; vm_compute; intros; discriminate.
  - vm_compute. reflexivity.
Defined.

(** Witness of [serial_deps_change_clears]: the picker leaves pickup mode
    after its drivers arrived. *)
Definition gs_started : Ghosts.Sim := Ghosts.mkSim [] [] [(0%nat, gc1)] (Some 0%nat) true 1.
Definition gs_running : Ghosts.Sim := Ghosts.mkSim gp1 [0%nat] [] (Some 0%nat) true 1.
Definition gs_stopped : Ghosts.Sim := Ghosts.mkSim [] [] [] None true 1.

Lemma serial_deps_change_clears_witness :
  Ghosts.intervals gs_stopped = [] /\ Ghosts.markers gs_stopped = [].
Proof.
  apply (Ghosts.serial_deps_change_clears gs_running false None gs_stopped).
  - apply (star_step _ _ gs_started).
    + apply (Ghosts.sim_serial _ (Ghosts.Deps true (Some gc1))); reflexivity.
    + apply star_one. apply (Ghosts.sim_serial _ (Ghosts.DriversArrive 0 gp1)); vm_compute; reflexivity.
  - reflexivity.
  - vm_compute. reflexivity.
Defined.

(** The pickup point moves while the first request is in flight; the
    picker then leaves pickup mode: the first run's interval still runs. *)
Lemma race_leaks_interval_witness :
  exists s1 s', Ghosts.sim_step gs_started (Ghosts.Deps true (Some gc2)) = Some s1 /\
    Ghosts.sim_run s1 [Ghosts.DriversArrive 0 gp1; Ghosts.DriversArrive 1 gp2; Ghosts.Deps false None] = Some s' /\
    In 0%nat (Ghosts.intervals s') /\ Ghosts.registered s' <> Some 0%nat.
Proof.
  do 2 eexists. split; [vm_compute; reflexivity|].
  match goal with
  | |- Ghosts.sim_run ?a _ = Some _ /\ _ =>
      split; [vm_compute; reflexivity|];
      apply (Ghosts.race_leaks_interval gs_started 0 true (Some gc2) a
               [Ghosts.DriversArrive 0 gp1; Ghosts.DriversArrive 1 gp2; Ghosts.Deps false None] gp1);
      [ apply star_one; apply (Ghosts.sim_any _ (Ghosts.Deps true (Some gc1))); reflexivity
      | reflexivity | vm_compute; reflexivity | vm_compute; reflexivity | left; reflexivity ]
  end.
Defined.
